(** * Roseboard: the daily message generator and the two focus timers

    A shallow embedding of the parts of the application that carry logic:

    - [Generator]: [generateDailyMessage] of the server's routes file, the
      seeded template filler behind [GET /api/eod-message];
    - [Pomo]: the Pomodoro session kept in the [Home] component
      ([calculatePomoRemaining], its interval effect, the mode effect and
      [resetPomodoro]);
    - [Fs]: the hook [useFullscreenTimer] with the adjust buttons of
      [FullscreenTimerCard];
    - [Stats]: [addFocusTime], the statistics collaborator of both timers.

    The numbers of the generator and of the Pomodoro session are integers
    far below 2^53 in magnitude (see [loop_is_exact]), so the IEEE double
    arithmetic of the source is exact on them and they are modelled by [Z].
    The seconds of the full-screen countdown are fractions: [Fs] keeps them
    as exact thousandths, [Fs64] as binary64 numbers ([Double]), and each
    says what it is used for.  The other modules cover the clock display
    ([Format]), the login streak ([Streak]), the task list of the first
    version of the page ([Tasks]), the cache of the end-of-day message
    ([Eod]) and the timers of the first version ([Legacy]). *)

From Stdlib Require Import ZArith List String Ascii Bool Lia.
From Stdlib Require Import DecimalString.
From Stdlib Require DecimalZ DecimalPos.
From Stdlib Require SpecFloat.
Import ListNotations.

Local Open Scope Z_scope.

(** ** JavaScript number primitives used by the source *)

Module Js.

(** [ToInt32]: reduce modulo 2^32 into the signed range. *)
Definition ToInt32 (x : Z) : Z :=
  let m := x mod 2 ^ 32 in
  if m <? 2 ^ 31 then m else m - 2 ^ 32.

Definition ToUint32 (x : Z) : Z := x mod 2 ^ 32.

(** [x << n]: the left operand as an int32, the shift count masked to five
    bits, the result wrapped to an int32 again. *)
Definition shl (x n : Z) : Z :=
  ToInt32 (Z.shiftl (ToInt32 x) (Z.land (ToUint32 n) 31)).

(** [x & y] on the int32 readings of both operands. *)
Definition band (x y : Z) : Z :=
  ToInt32 (Z.land (ToInt32 x) (ToInt32 y)).

(** [Math.abs], [Math.max] and the remainder operator [%] (sign of the
    dividend) on integers. *)
Definition abs (x : Z) : Z := Z.abs x.
Definition max (x y : Z) : Z := Z.max x y.
Definition rem (x y : Z) : Z := Z.rem x y.

(** [Math.floor (x / d)] for integers [x] and a positive integer [d]. *)
Definition floor_div (x d : Z) : Z := x / d.

(** [Math.round (x / d)]: [Math.round] is [floor (y + 1/2)], that is
    halves go up, also below zero. *)
Definition round_div (x d : Z) : Z := (2 * x + d) / (2 * d).

(** The integers a double holds exactly. *)
Definition safe_integer (x : Z) : Prop := - (2 ^ 53) < x < 2 ^ 53.

Definition int32 (x : Z) : Prop := - (2 ^ 31) <= x < 2 ^ 31.

(** A reference that holds [null] or a number is falsy on [null] and on
    [0]. *)
Definition truthy (r : option Z) : bool :=
  match r with
  | Some t => negb (t =? 0)
  | None => false
  end.

(** [String.prototype.replace] with a string pattern: the first occurrence
    of [pat] is replaced, the text before and after it is kept.  The
    replacement is inserted as it stands; the source only passes
    replacements without a dollar sign (see
    [pools_have_no_dollar]), on which the substitution patterns
    of the language do nothing. *)
Definition replace (pat rep s : string) : string :=
  match String.index 0 pat s with
  | None => s
  | Some pos =>
      (substring 0 pos s ++ rep ++
       substring (pos + String.length pat)
                 (String.length s - (pos + String.length pat)) s)%string
  end.

(** An array read [xs[i]]: [None] stands for [undefined]. *)
Definition get {A : Type} (xs : list A) (i : Z) : option A :=
  if i <? 0 then None else nth_error xs (Z.to_nat i).

(** [ToString] of an array read that is spliced into a string. *)
Definition to_string (v : option string) : string :=
  match v with
  | Some s => s
  | None => "undefined"%string
  end.

End Js.

(** ** The daily message generator *)

Module Generator.

(** A JavaScript string as [charCodeAt] reads it: its UTF-16 code units. *)
Definition dateString_t : Type := list Z.

Definition code_unit (c : Z) : Prop := 0 <= c < 65536.
Definition well_formed (s : dateString_t) : Prop := Forall code_unit s.

(** The code units of a string literal. *)
Definition codes (s : string) : dateString_t :=
  map (fun a => Z.of_nat (nat_of_ascii a)) (list_ascii_of_string s).

Definition templates : list string :=
  [ "You {action} today. {encouragement}";
    "{encouragement} You've {verb} through another day.";
    "Rest now. {future_action}";
    "{accomplishment}, and that's enough.";
    "Your {quality} matters. Take care of yourself." ]%string.

Definition actions : list string :=
  [ "did enough"; "showed up"; "made it through"; "gave your best";
    "tried your hardest" ]%string.

Definition encouragements : list string :=
  [ "Well done"; "Good work"; "You've got this"; "Keep going";
    "Be proud" ]%string.

Definition verbs : list string :=
  [ "made it"; "pushed through"; "powered through"; "persevered";
    "carried on" ]%string.

Definition accomplishments : list string :=
  [ "You showed up today"; "You tried your best"; "You kept going";
    "You made progress"; "You did your part" ]%string.

Definition qualities : list string :=
  [ "effort"; "courage"; "persistence"; "strength"; "resilience" ]%string.

Definition futureActions : list string :=
  [ "Tomorrow is a fresh start."; "Tomorrow awaits your greatness.";
    "Tomorrow will be better."; "Tomorrow needs you.";
    "Tomorrow is a new opportunity." ]%string.

Definition len {A : Type} (xs : list A) : Z := Z.of_nat (List.length xs).

(** The body of the loop: [seed = ((seed << 5) - seed) + c; seed = seed & seed]. *)
Definition hash_step (seed c : Z) : Z :=
  let seed := (Js.shl seed 5 - seed) + c in
  Js.band seed seed.

(** [let seed = 0; for (i ...) ...] over the code units in order. *)
Definition seed_of (dateString : dateString_t) : Z :=
  fold_left hash_step dateString 0.

Record indices : Type := mkIndices {
  templateIdx : Z;
  actionIdx : Z;
  encouragementIdx : Z;
  verbIdx : Z;
  accomplishmentIdx : Z;
  qualityIdx : Z;
  futureIdx : Z
}.

Definition indices_of_seed (seed : Z) : indices :=
  let abs := Js.abs seed in
  {| templateIdx := Js.rem abs (len templates);
     actionIdx := Js.rem (abs + 1) (len actions);
     encouragementIdx := Js.rem (abs + 2) (len encouragements);
     verbIdx := Js.rem (abs + 3) (len verbs);
     accomplishmentIdx := Js.rem (abs + 4) (len accomplishments);
     qualityIdx := Js.rem (abs + 5) (len qualities);
     futureIdx := Js.rem (abs + 6) (len futureActions) |}.

(** [templates[templateIdx]] followed by the chain of six [replace] calls.
    Calling [replace] on [undefined] throws: that is [None]. *)
Definition fill (ix : indices) : option string :=
  match Js.get templates (templateIdx ix) with
  | None => None
  | Some message =>
      let message :=
        Js.replace "{action}" (Js.to_string (Js.get actions (actionIdx ix))) message in
      let message :=
        Js.replace "{encouragement}"
          (Js.to_string (Js.get encouragements (encouragementIdx ix))) message in
      let message :=
        Js.replace "{verb}" (Js.to_string (Js.get verbs (verbIdx ix))) message in
      let message :=
        Js.replace "{accomplishment}"
          (Js.to_string (Js.get accomplishments (accomplishmentIdx ix))) message in
      let message :=
        Js.replace "{quality}" (Js.to_string (Js.get qualities (qualityIdx ix))) message in
      let message :=
        Js.replace "{future_action}"
          (Js.to_string (Js.get futureActions (futureIdx ix))) message in
      Some message
  end.

Definition generateDailyMessage (dateString : dateString_t) : option string :=
  fill (indices_of_seed (seed_of dateString)).

(** The route handler: the message for the clock's date string, returned
    together with that string. *)
Definition eod_message (date : dateString_t) : option string * dateString_t :=
  (generateDailyMessage date, date).

(** *** The specification's reading, to compare the code with *)

(** [truncate32]: signed 32-bit two's-complement wrap-around. *)
Definition truncate32 (x : Z) : Z := (x + 2 ^ 31) mod 2 ^ 32 - 2 ^ 31.

(** seed_0 = 0, seed_{i+1} = truncate32 (seed_i * 31 + c_i). *)
Fixpoint spec_seed_from (seed : Z) (s : dateString_t) : Z :=
  match s with
  | [] => seed
  | c :: s' => spec_seed_from (truncate32 (seed * 31 + c)) s'
  end.

Definition spec_seed (s : dateString_t) : Z := spec_seed_from 0 s.

Inductive slot : Type :=
  | action | encouragement | verb | accomplishment | quality | futureAction.

(** The fixed offset of each slot and its pool. *)
Definition offset (k : slot) : Z :=
  match k with
  | action => 1
  | encouragement => 2
  | verb => 3
  | accomplishment => 4
  | quality => 5
  | futureAction => 6
  end.

Definition pool (k : slot) : list string :=
  match k with
  | action => actions
  | encouragement => encouragements
  | verb => verbs
  | accomplishment => accomplishments
  | quality => qualities
  | futureAction => futureActions
  end.

(** A template read as text and placeholders. *)
Inductive piece : Type :=
  | Lit (text : string)
  | Slot (k : slot).

Definition template_pieces : list (list piece) :=
  [ [Lit "You "; Slot action; Lit " today. "; Slot encouragement];
    [Slot encouragement; Lit " You've "; Slot verb; Lit " through another day."];
    [Lit "Rest now. "; Slot futureAction];
    [Slot accomplishment; Lit ", and that's enough."];
    [Lit "Your "; Slot quality; Lit " matters. Take care of yourself."] ]%string.

(** A template with every placeholder written out under the source's
    placeholder names. *)
Definition placeholder (k : slot) : string :=
  match k with
  | action => "{action}"
  | encouragement => "{encouragement}"
  | verb => "{verb}"
  | accomplishment => "{accomplishment}"
  | quality => "{quality}"
  | futureAction => "{future_action}"
  end.

Definition render (choose : slot -> string) (t : list piece) : string :=
  fold_right
    (fun p acc =>
       match p with
       | Lit text => (text ++ acc)%string
       | Slot k => (choose k ++ acc)%string
       end) EmptyString t.

(** The pool entry the formula [(abs + offset) mod 5] picks for a slot. *)
Definition spec_choice (abs : Z) (k : slot) : string :=
  nth (Z.to_nat ((abs + offset k) mod 5)) (pool k) EmptyString.

Definition spec_message (abs : Z) : string :=
  render (spec_choice abs) (nth (Z.to_nat (abs mod 5)) template_pieces []).

(** The seven indices as the formulas of the specification give them. *)
Definition spec_indices (abs : Z) : indices :=
  {| templateIdx := abs mod 5;
     actionIdx := (abs + offset action) mod 5;
     encouragementIdx := (abs + offset encouragement) mod 5;
     verbIdx := (abs + offset verb) mod 5;
     accomplishmentIdx := (abs + offset accomplishment) mod 5;
     qualityIdx := (abs + offset quality) mod 5;
     futureIdx := (abs + offset futureAction) mod 5 |}.

Definition in_bounds {A : Type} (xs : list A) (i : Z) : Prop :=
  0 <= i < len xs.

Definition has_dollar (s : string) : bool :=
  existsb (fun a => Ascii.eqb a "$"%char) (list_ascii_of_string s).

(** Every number the loop computes from [seed] on over [s] is one a double
    holds exactly. *)
Fixpoint exact_from (seed : Z) (s : dateString_t) : Prop :=
  match s with
  | [] => True
  | c :: s' =>
      Js.safe_integer (Js.shl seed 5 - seed) /\
      Js.safe_integer (Js.shl seed 5 - seed + c) /\
      exact_from (hash_step seed c) s'
  end.

End Generator.

(** ** The statistics collaborator: [addFocusTime] of [Home] *)

Module Stats.

(** [focusTime] is the React state (minutes); [user] says whether somebody is
    signed in; [userDoc] is the user's document in the store: [None] while it
    does not exist, [Some f] when it does, [f] being its field [focusTime]
    ([None]: the document has no such field); [rose_focus_time] is the
    guest's entry of the local storage (the number whose decimal rendering
    the source stores), [None] while it was never written. *)
Record state : Type := mkState {
  focusTime : Z;
  user : bool;
  userDoc : option (option Z);
  rose_focus_time : option Z
}.

Definition setFocusTime (v : Z) (st : state) : state :=
  {| focusTime := v; user := user st; userDoc := userDoc st;
     rose_focus_time := rose_focus_time st |}.

(** [addFocusTime minutes].  The function reads [focusTime] as the render
    that created it saw it; both callers hold the function of the latest
    render, so this is the current state.  [write_ok] says whether the
    write to the store went through: a failure is caught and logged, and
    leaves the stored value as it was.  [setDoc] with [merge] creates the
    document when there is none. *)
Definition addFocusTime (write_ok : bool) (minutes : Z) (st : state) : state :=
  if minutes <=? 0 then st
  else
    let newFocusTime := focusTime st + minutes in
    if negb write_ok then
      {| focusTime := newFocusTime; user := user st;
         userDoc := userDoc st;
         rose_focus_time := rose_focus_time st |}
    else if user st then
      {| focusTime := newFocusTime; user := user st;
         userDoc := Some (Some newFocusTime);
         rose_focus_time := rose_focus_time st |}
    else
      {| focusTime := newFocusTime; user := user st;
         userDoc := userDoc st;
         rose_focus_time := Some newFocusTime |}.

(** The field [focusTime] of the user's document, when there is one. *)
Definition doc_focusTime (st : state) : option Z :=
  match userDoc st with
  | Some f => f
  | None => None
  end.

(** The value that is persisted for the current visitor. *)
Definition persisted (st : state) : option Z :=
  if user st then doc_focusTime st else rose_focus_time st.

(** A run of reports, in order. *)
Definition addAll (write_ok : bool) (reports : list Z) (st : state) : state :=
  fold_left (fun s m => addFocusTime write_ok m s) reports st.

(** [data.focusTime || 0] *)
Definition focusTime_or_0 (f : option Z) : Z :=
  match f with
  | Some v => if v =? 0 then 0 else v
  | None => 0
  end.

(** [loadStatistics]: the only place where the state is brought in line with
    the store.  [read_ok] says whether [getDoc] went through; a failure is
    caught and logged and leaves the state as it was. *)
Definition loadStatistics (read_ok : bool) (st : state) : state :=
  if negb (user st) then st
  else if negb read_ok then st
  else
    match userDoc st with
    | Some f => setFocusTime (focusTime_or_0 f) st
    | None => st
    end.

(** [Home] mounts: [useState(0)], then the effect that reads the guest's
    entry ([if (v) setFocusTime(parseInt(v, 10))]), then the effect on
    [[user]], which sets 0 for a guest and calls [loadStatistics] for a
    user. *)
Definition mount (read_ok : bool) (signedIn : bool)
    (document : option (option Z)) (guestEntry : option Z) : state :=
  let st := mkState 0 signedIn document guestEntry in
  let st := match guestEntry with
            | Some v => setFocusTime v st
            | None => st
            end in
  if negb signedIn then setFocusTime 0 st
  else loadStatistics read_ok st.

End Stats.

(** ** The Pomodoro session of [Home]

    Times are [Date.now()] readings in milliseconds, durations are seconds as
    in the source.  A handler runs to its end, then React renders once and
    runs the effects whose dependencies changed, in the order the component
    declares them; [render] is that step. *)

Module Pomo.

Inductive mode : Type := focus | break.

Definition mode_eqb (a b : mode) : bool :=
  match a, b with
  | focus, focus | break, break => true
  | _, _ => false
  end.

(** What [calculatePomoRemaining] read from the render that created it.
    [useCallback] keeps the function until [pomoRunning] or [pomoMode]
    changes, so [pomoRemaining] may be an old value. *)
Record closure : Type := mkClosure {
  cl_running : bool;
  cl_remaining : Z;
  cl_mode : mode
}.

Record state : Type := mkState {
  pomoMode : mode;
  pomoRunning : bool;
  pomoRemaining : Z;
  pomoSessionStartRef : option Z;
  pomoSessionDurationRef : Z;
  (** [pomoIntervalRef]: the interval and the callback it runs *)
  pomoIntervalRef : option closure;
  (** the memoised [calculatePomoRemaining] *)
  calculate : closure;
  (** the arguments [pomoOnFocusTimeRef.current] was called with, oldest
      first *)
  reports : list Z
}.

Definition setPomoMode (m : mode) (st : state) : state :=
  mkState m (pomoRunning st) (pomoRemaining st) (pomoSessionStartRef st)
    (pomoSessionDurationRef st) (pomoIntervalRef st) (calculate st) (reports st).

Definition setPomoRunning (r : bool) (st : state) : state :=
  mkState (pomoMode st) r (pomoRemaining st) (pomoSessionStartRef st)
    (pomoSessionDurationRef st) (pomoIntervalRef st) (calculate st) (reports st).

Definition setPomoRemaining (v : Z) (st : state) : state :=
  mkState (pomoMode st) (pomoRunning st) v (pomoSessionStartRef st)
    (pomoSessionDurationRef st) (pomoIntervalRef st) (calculate st) (reports st).

Definition set_sessionStart (t : option Z) (st : state) : state :=
  mkState (pomoMode st) (pomoRunning st) (pomoRemaining st) t
    (pomoSessionDurationRef st) (pomoIntervalRef st) (calculate st) (reports st).

Definition set_sessionDuration (d : Z) (st : state) : state :=
  mkState (pomoMode st) (pomoRunning st) (pomoRemaining st) (pomoSessionStartRef st)
    d (pomoIntervalRef st) (calculate st) (reports st).

Definition set_interval (i : option closure) (st : state) : state :=
  mkState (pomoMode st) (pomoRunning st) (pomoRemaining st) (pomoSessionStartRef st)
    (pomoSessionDurationRef st) i (calculate st) (reports st).

Definition set_calculate (c : closure) (st : state) : state :=
  mkState (pomoMode st) (pomoRunning st) (pomoRemaining st) (pomoSessionStartRef st)
    (pomoSessionDurationRef st) (pomoIntervalRef st) c (reports st).

Definition report (minutes : Z) (st : state) : state :=
  mkState (pomoMode st) (pomoRunning st) (pomoRemaining st) (pomoSessionStartRef st)
    (pomoSessionDurationRef st) (pomoIntervalRef st) (calculate st)
    (reports st ++ [minutes]).

(** [(mode === "focus" ? 25 : 5) * 60] *)
Definition full_duration (m : mode) : Z :=
  (match m with focus => 25 | break => 5 end) * 60.

(** The updater handed to [setPomoMode] on completion: it flips the mode
    it is given and reports 25 minutes when that mode was [focus]. *)
Definition complete (st : state) : state :=
  let currentMode := pomoMode st in
  let nextMode := match currentMode with focus => break | break => focus end in
  let st := match currentMode with focus => report 25 st | break => st end in
  setPomoMode nextMode st.

(** [calculatePomoRemaining]: the value it returns and the state it leaves. *)
Definition calculatePomoRemaining (cl : closure) (now : Z) (st : state) : Z * state :=
  match pomoSessionStartRef st with
  | Some start =>
      if negb (cl_running cl) || negb (Js.truthy (Some start)) then (cl_remaining cl, st)
      else
        let elapsed := Js.floor_div (now - start) 1000 in
        let totalDuration := pomoSessionDurationRef st in
        let remainingTime := Js.max 0 (totalDuration - elapsed) in
        if remainingTime =? 0 then
          let st := complete st in
          let st := set_sessionStart None st in
          let next := (match cl_mode cl with focus => 5 | break => 25 end) * 60 in
          (next, set_sessionDuration next st)
        else (remainingTime, st)
  | None => (cl_remaining cl, st)
  end.

(** The effect on [[pomoRunning, calculatePomoRemaining]], its clean-up
    included: the old interval is cleared, a running session gets a start
    and a duration when it has none, and a new interval. *)
Definition running_effect (now : Z) (st : state) : state :=
  if pomoRunning st then
    let st :=
      if negb (Js.truthy (pomoSessionStartRef st))
      then set_sessionDuration (pomoRemaining st) (set_sessionStart (Some now) st)
      else st in
    set_interval (Some (calculate st)) st
  else set_interval None (set_sessionStart None st).

(** The effect on [[pomoMode]]. *)
Definition mode_effect (st : state) : state :=
  set_sessionStart None (setPomoRemaining (full_duration (pomoMode st)) st).

(** One render after a handler took [prev] to [st]. *)
Definition render (now : Z) (prev st : state) : state :=
  let mode_changed := negb (mode_eqb (pomoMode prev) (pomoMode st)) in
  let deps_changed :=
    negb (Bool.eqb (pomoRunning prev) (pomoRunning st)) || mode_changed in
  let st :=
    if deps_changed
    then set_calculate (mkClosure (pomoRunning st) (pomoRemaining st) (pomoMode st)) st
    else st in
  let st := if deps_changed then running_effect now st else st in
  if mode_changed then mode_effect st else st.

(** The state after mounting: [useState] initial values, both effects run. *)
Definition init : state :=
  mkState focus false (25 * 60) None 0 None (mkClosure false (25 * 60) focus) [].

(** The interval fires. *)
Definition tick (now : Z) (st : state) : state :=
  match pomoIntervalRef st with
  | None => st
  | Some cl =>
      let '(newRemaining, st1) := calculatePomoRemaining cl now st in
      render now st (setPomoRemaining newRemaining st1)
  end.

(** The start/pause button: [onSetRunning(!running)]. *)
Definition toggle (now : Z) (st : state) : state :=
  render now st (setPomoRunning (negb (pomoRunning st)) st).

Definition resetPomodoro (now : Z) (nextMode : mode) (st : state) : state :=
  render now st
    (set_sessionStart None
       (setPomoRemaining (full_duration nextMode)
          (setPomoMode nextMode (setPomoRunning false st)))).

Inductive event : Type :=
  | Tick (now : Z)
  | Toggle (now : Z)
  | Reset (now : Z) (nextMode : mode).

Definition step (st : state) (e : event) : state :=
  match e with
  | Tick now => tick now st
  | Toggle now => toggle now st
  | Reset now nextMode => resetPomodoro now nextMode st
  end.

Definition run (es : list event) (st : state) : state := fold_left step es st.

(** A run segment: resumed at [resumed], ticks at [ticks], paused at
    [paused]. *)
Record segment : Type := mkSegment {
  resumed : Z;
  ticks : list Z;
  paused : Z
}.

Definition segment_events (g : segment) : list event :=
  Toggle (resumed g) :: map Tick (ticks g) ++ [Toggle (paused g)].

Definition run_segments (gs : list segment) (st : state) : state :=
  run (List.concat (map segment_events gs)) st.

Definition last_tick (g : segment) : Z := last (ticks g) (resumed g).


Definition running_time (g : segment) : Z := paused g - resumed g.

Definition total (f : segment -> Z) (gs : list segment) : Z :=
  fold_right (fun g acc => f g + acc) 0 gs.

(** The clock is not at zero at the resume, no tick comes before the resume
    or after the last tick, and the pause is not before the last tick. *)
Definition segment_ok (g : segment) : Prop :=
  resumed g <> 0 /\
  Forall (fun t => resumed g <= t <= last_tick g) (ticks g) /\
  last_tick g <= paused g.

(** What every state the component can be in satisfies: the interval runs
    the memoised callback and exists exactly while the session is running,
    the callback saw the current [pomoRunning] and [pomoMode], a session
    that is not running has no start, and no duration is negative. *)
Definition coherent (st : state) : Prop :=
  cl_running (calculate st) = pomoRunning st /\
  cl_mode (calculate st) = pomoMode st /\
  pomoIntervalRef st = (if pomoRunning st then Some (calculate st) else None) /\
  (pomoRunning st = false -> pomoSessionStartRef st = None) /\
  0 <= pomoRemaining st /\
  0 <= cl_remaining (calculate st).

(** The running focus or break interval is over at [now]: the session has
    a start and [Math.max(0, totalDuration - elapsed)] is zero. *)
Definition completes_at (now : Z) (st : state) : Prop :=
  pomoRunning st = true /\
  exists start,
    pomoSessionStartRef st = Some start /\ start <> 0 /\
    Js.max 0 (pomoSessionDurationRef st - Js.floor_div (now - start) 1000) = 0.

(** The state of a session resumed at [a] with [v] seconds left, showing
    [shown] seconds. *)
Definition resumed_at (m : mode) (a v shown : Z) (reps : list Z) : state :=
  mkState m true shown (Some a) v (Some (mkClosure true v m))
    (mkClosure true v m) reps.

(** A running session that has no start and shows the full length of its
    mode, as the callback saw it. *)
Definition waiting (st : state) : Prop :=
  pomoRunning st = true /\
  pomoSessionStartRef st = None /\
  pomoRemaining st = full_duration (pomoMode st) /\
  cl_remaining (calculate st) = full_duration (pomoMode st).



(** The test of [calculatePomoRemaining] for a running focus interval that
    is over at [now]: the session runs in focus mode, it has a start, and
    [Math.max(0, totalDuration - elapsed)] is zero. *)
Definition completes_focus (now : Z) (st : state) : bool :=
  pomoRunning st && mode_eqb (pomoMode st) focus &&
  match pomoSessionStartRef st with
  | Some start =>
      Js.truthy (Some start) &&
      (Js.max 0 (pomoSessionDurationRef st - Js.floor_div (now - start) 1000) =? 0)
  | None => false
  end.

(** What an event adds to the reports when it is a tick that completes a
    focus interval. *)
Definition completed_focus (e : event) (st : state) : bool :=
  match e with
  | Tick now => completes_focus now st
  | Toggle _ | Reset _ _ => false
  end.

(** The focus intervals that complete in the course of the events. *)
Fixpoint focus_completions (es : list event) (st : state) : nat :=
  match es with
  | [] => 0
  | e :: es' =>
      ((if completed_focus e st then 1 else 0) + focus_completions es' (step st e))%nat
  end.

End Pomo.

(** ** The full-screen countdown: [useFullscreenTimer] as [Home] mounts it

    [seconds] of the source is a fractional number of seconds that only ever
    changes by whole seconds (the adjust buttons) and by [(now - last) / 1000]
    (a tick).  This model keeps it in thousandths: the field [seconds] holds
    1000 times the source's value, so a minute is [60000] here and a tick
    subtracts [now - last].  This is the arithmetic of the source over the
    rationals, without the rounding of the doubles; it serves for what does
    not depend on that rounding: the sign of the seconds, the reports (which
    the source computes from integer milliseconds) and the full-screen flag.
    What is said about the value of the seconds is said of [Fs64] below,
    which computes them as the source does.

    [Home] passes [addFocusTime] as [onFocusTime], so the callback is always
    present; [Home] declares it as a plain function, which makes it a new
    function at every render of [Home]. *)

Module Fs.

Record state : Type := mkState {
  seconds : Z;
  running : bool;
  open : bool;
  lastTickRef : option Z;
  sessionStartTimeRef : option Z;
  (** the interval of the tick effect is installed *)
  interval : bool;
  (** the arguments [onFocusTime] was called with, oldest first *)
  reports : list Z
}.

Definition setSeconds (v : Z) (st : state) : state :=
  mkState v (running st) (open st) (lastTickRef st) (sessionStartTimeRef st)
    (interval st) (reports st).

Definition setRunning (r : bool) (st : state) : state :=
  mkState (seconds st) r (open st) (lastTickRef st) (sessionStartTimeRef st)
    (interval st) (reports st).

Definition setOpen (o : bool) (st : state) : state :=
  mkState (seconds st) (running st) o (lastTickRef st) (sessionStartTimeRef st)
    (interval st) (reports st).

Definition set_lastTick (t : option Z) (st : state) : state :=
  mkState (seconds st) (running st) (open st) t (sessionStartTimeRef st)
    (interval st) (reports st).

Definition set_sessionStartTime (t : option Z) (st : state) : state :=
  mkState (seconds st) (running st) (open st) (lastTickRef st) t
    (interval st) (reports st).

Definition set_interval (i : bool) (st : state) : state :=
  mkState (seconds st) (running st) (open st) (lastTickRef st)
    (sessionStartTimeRef st) i (reports st).

Definition report (minutes : Z) (st : state) : state :=
  mkState (seconds st) (running st) (open st) (lastTickRef st)
    (sessionStartTimeRef st) (interval st) (reports st ++ [minutes]).

(** [Math.round(sessionDurationMs / (1000 * 60))] *)
Definition sessionMinutes (sessionDurationMs : Z) : Z :=
  Js.round_div sessionDurationMs (1000 * 60).

(** The effect on [[running, onFocusTime]]. *)
Definition report_effect (now : Z) (st : state) : state :=
  if running st then
    set_lastTick (Some now) (set_sessionStartTime (Some now) st)
  else
    match sessionStartTimeRef st with
    | Some start =>
        if Js.truthy (Some start) then
          let sessionDurationMs := now - start in
          let st :=
            if sessionMinutes sessionDurationMs >? 0
            then report (sessionMinutes sessionDurationMs) st
            else st in
          set_sessionStartTime None st
        else st
    | None => st
    end.

(** The effect on [[running]], its clean-up included. *)
Definition tick_effect (st : state) : state :=
  if running st then set_interval true st
  else set_interval false (set_lastTick None st).

(** One render after a handler took [prev] to [st]; [fresh_callback] says
    that [Home] rendered too and handed down a new [onFocusTime].  The last
    effect, on [[seconds]], stops a timer that shows zero, which renders
    once more for the two effects that depend on [running]. *)
Definition render (now : Z) (fresh_callback : bool) (prev st : state) : state :=
  let running_changed := negb (Bool.eqb (running prev) (running st)) in
  let seconds_changed := negb (seconds prev =? seconds st) in
  let st := if running_changed || fresh_callback then report_effect now st else st in
  let st := if running_changed then tick_effect st else st in
  if seconds_changed && (seconds st =? 0) && running st
  then tick_effect (report_effect now (setRunning false st))
  else st.

(** The state after mounting with [initialSeconds] (in thousandths). *)
Definition init (initialSeconds : Z) : state :=
  mkState initialSeconds false false None None false [].

(** The interval fires. *)
Definition tick (now : Z) (st : state) : state :=
  if interval st then
    let last := match lastTickRef st with Some l => l | None => now end in
    let st1 := set_lastTick (Some now) st in
    let delta := now - last in
    if delta <=? 0 then st1
    else
      let next := seconds st - delta in
      render now false st (setSeconds (if next <=? 0 then 0 else next) st1)
  else st.

(** The start/pause button: [setRunning(!timer.running)]. *)
Definition toggle (now : Z) (st : state) : state :=
  render now false st (setRunning (negb (running st)) st).

(** The adjust buttons: [setSeconds((s) => s + 60)] and
    [setSeconds((s) => Math.max(0, s - 60))]. *)
Definition plus (now : Z) (st : state) : state :=
  render now false st (setSeconds (seconds st + 60000) st).

Definition minus (now : Z) (st : state) : state :=
  render now false st (setSeconds (Js.max 0 (seconds st - 60000)) st).

(** [Home] renders (its clock does so every second) and the card with it. *)
Definition rerender (now : Z) (st : state) : state :=
  render now true st st.

Definition enter (st : state) : state := setOpen true st.
Definition exit (st : state) : state := setOpen false st.

Inductive event : Type :=
  | Tick (now : Z)
  | Toggle (now : Z)
  | Plus (now : Z)
  | Minus (now : Z)
  | Rerender (now : Z)
  | Enter
  | Exit.

Definition step (st : state) (e : event) : state :=
  match e with
  | Tick now => tick now st
  | Toggle now => toggle now st
  | Plus now => plus now st
  | Minus now => minus now st
  | Rerender now => rerender now st
  | Enter => enter st
  | Exit => exit st
  end.

Definition run (es : list event) (st : state) : state := fold_left step es st.

(** The card of [Home]: [useFullscreenTimer(10 * 60, onFocusTime)]. *)
Definition card : state := init (10 * 60 * 1000).

(** No session is open, or the open one started at [from] or later. *)
Definition started_since (from : Z) (st : state) : Prop :=
  match sessionStartTimeRef st with
  | Some start => from <= start
  | None => True
  end.

(** The renders of [Home] that its clock causes: one every second, [n] of
    them after [from]. *)
Definition clock_renders (from : Z) (n : nat) : list event :=
  map (fun k => Rerender (from + 1000 * Z.of_nat k)) (seq 1 n).

(** The observable value of the timer is not below zero. *)
Definition non_negative (st : state) : Prop := 0 <= seconds st.

(** The clock reading an event carries. *)
Definition event_time (e : event) : option Z :=
  match e with
  | Tick now | Toggle now | Plus now | Minus now | Rerender now => Some now
  | Enter | Exit => None
  end.

(** Every event of [es] happens between [from] and [till]. *)
Definition within (from till : Z) (es : list event) : Prop :=
  Forall (fun e => match event_time e with
                   | Some now => from <= now <= till
                   | None => True
                   end) es.

End Fs.

(** ** JavaScript numbers as binary64

    The seconds of the full-screen countdown are not whole numbers: a tick
    takes [(now - last) / 1000] off them.  [Double] is the arithmetic the
    source computes them with, IEEE 754 binary64 with rounding to nearest,
    ties to even, as the Standard Library specifies it ([SpecFloat], 53 bits
    of precision, exponents up to 1024).  A double is a [spec_float] that
    [valid_binary] accepts; the operations return such numbers. *)

Module Double.

Definition double : Type := SpecFloat.spec_float.

Definition prec : Z := 53.
Definition emax : Z := 1024.

(** The double of an integer: exact for every integer up to 2^53 in
    magnitude, so for every [Date.now()] and every difference of two. *)
Definition of_Z (n : Z) : double := SpecFloat.binary_normalize prec emax n 0 false.

Definition zero : double := SpecFloat.S754_zero false.

(** [a + b], [a - b], [a / b] *)
Definition add (a b : double) : double := SpecFloat.SFadd prec emax a b.
Definition sub (a b : double) : double := SpecFloat.SFsub prec emax a b.
Definition div (a b : double) : double := SpecFloat.SFdiv prec emax a b.

(** [a <= b], [a < b] and [a === b]: all false on NaN, and [-0 === 0]. *)
Definition leb (a b : double) : bool := SpecFloat.SFleb a b.
Definition ltb (a b : double) : bool := SpecFloat.SFltb a b.
Definition eqb (a b : double) : bool := SpecFloat.SFeqb a b.

(** [Object.is(a, b)], the comparison React uses for a new state and for
    the dependencies of an effect: NaN is itself, 0 and -0 differ. *)
Definition same (a b : double) : bool :=
  match a, b with
  | SpecFloat.S754_zero s, SpecFloat.S754_zero s' => Bool.eqb s s'
  | SpecFloat.S754_infinity s, SpecFloat.S754_infinity s' => Bool.eqb s s'
  | SpecFloat.S754_nan, SpecFloat.S754_nan => true
  | SpecFloat.S754_finite s m e, SpecFloat.S754_finite s' m' e' =>
      Bool.eqb s s' && Pos.eqb m m' && Z.eqb e e'
  | _, _ => false
  end.

(** [Math.max(a, b)]: NaN when either is, and 0 counts as larger than -0. *)
Definition max (a b : double) : double :=
  match a, b with
  | SpecFloat.S754_nan, _ | _, SpecFloat.S754_nan => SpecFloat.S754_nan
  | SpecFloat.S754_zero sa, SpecFloat.S754_zero sb => SpecFloat.S754_zero (sa && sb)
  | _, _ => if ltb a b then b else a
  end.

(** [Math.abs(a)] *)
Definition abs (a : double) : double := SpecFloat.SFabs a.

(** [q] shifted left by [k] bits. *)
Definition shl (q : positive) (k : Z) : positive :=
  match k with
  | Zpos k' => Pos.iter xO q k'
  | _ => q
  end.

(** The double of a whole number [q] that fits into 53 bits, with sign [s]:
    the 53-bit mantissa that starts with the bits of [q], and the exponent
    that makes up for the shift. *)
Definition whole (s : bool) (q : positive) : double :=
  SpecFloat.S754_finite s (shl q (prec - Z.pos (SpecFloat.digits2_pos q)))
    (Z.pos (SpecFloat.digits2_pos q) - prec).

(** The double a decimal literal stands for, say [649.9] as
    [decimal 6499 10]: the quotient of two integers, rounded once. *)
Definition decimal (digits scale : Z) : double := div (of_Z digits) (of_Z scale).


End Double.

(** ** The full-screen countdown with its seconds in binary64

    [useFullscreenTimer] once more, as in [Fs], with [seconds] a double as
    in the source.  [Fs] serves where the value of the seconds plays no part
    (their sign, the reports, which come from integer milliseconds, the
    full-screen flag); what is said about the value of the seconds is said
    of [Fs64]. *)

Module Fs64.

Record state : Type := mkState {
  seconds : Double.double;
  running : bool;
  open : bool;
  lastTickRef : option Z;
  sessionStartTimeRef : option Z;
  (** the interval of the tick effect is installed *)
  interval : bool;
  (** the arguments [onFocusTime] was called with, oldest first *)
  reports : list Z
}.

Definition setSeconds (v : Double.double) (st : state) : state :=
  mkState v (running st) (open st) (lastTickRef st) (sessionStartTimeRef st)
    (interval st) (reports st).

Definition setRunning (r : bool) (st : state) : state :=
  mkState (seconds st) r (open st) (lastTickRef st) (sessionStartTimeRef st)
    (interval st) (reports st).

Definition setOpen (o : bool) (st : state) : state :=
  mkState (seconds st) (running st) o (lastTickRef st) (sessionStartTimeRef st)
    (interval st) (reports st).

Definition set_lastTick (t : option Z) (st : state) : state :=
  mkState (seconds st) (running st) (open st) t (sessionStartTimeRef st)
    (interval st) (reports st).

Definition set_sessionStartTime (t : option Z) (st : state) : state :=
  mkState (seconds st) (running st) (open st) (lastTickRef st) t
    (interval st) (reports st).

Definition set_interval (i : bool) (st : state) : state :=
  mkState (seconds st) (running st) (open st) (lastTickRef st)
    (sessionStartTimeRef st) i (reports st).

Definition report (minutes : Z) (st : state) : state :=
  mkState (seconds st) (running st) (open st) (lastTickRef st)
    (sessionStartTimeRef st) (interval st) (reports st ++ [minutes]).

(** The effect on [[running, onFocusTime]]. *)
Definition report_effect (now : Z) (st : state) : state :=
  if running st then
    set_lastTick (Some now) (set_sessionStartTime (Some now) st)
  else
    match sessionStartTimeRef st with
    | Some start =>
        if Js.truthy (Some start) then
          let sessionDurationMs := now - start in
          let st :=
            if Fs.sessionMinutes sessionDurationMs >? 0
            then report (Fs.sessionMinutes sessionDurationMs) st
            else st in
          set_sessionStartTime None st
        else st
    | None => st
    end.

(** The effect on [[running]], its clean-up included. *)
Definition tick_effect (st : state) : state :=
  if running st then set_interval true st
  else set_interval false (set_lastTick None st).

(** One render after a handler took [prev] to [st]; [fresh_callback] says
    that [Home] rendered too and handed down a new [onFocusTime].  React
    compares the old and the new [seconds] with [Object.is]; the effect on
    [[seconds]] tests [seconds === 0] and stops the timer, which renders
    once more for the two effects that depend on [running]. *)
Definition render (now : Z) (fresh_callback : bool) (prev st : state) : state :=
  let running_changed := negb (Bool.eqb (running prev) (running st)) in
  let seconds_changed := negb (Double.same (seconds prev) (seconds st)) in
  let st := if running_changed || fresh_callback then report_effect now st else st in
  let st := if running_changed then tick_effect st else st in
  if seconds_changed && Double.eqb (seconds st) Double.zero && running st
  then tick_effect (report_effect now (setRunning false st))
  else st.

(** The state after mounting with [initialSeconds]. *)
Definition init (initialSeconds : Double.double) : state :=
  mkState initialSeconds false false None None false [].

(** [(now - last) / 1000] *)
Definition delta (now last : Z) : Double.double :=
  Double.div (Double.of_Z (now - last)) (Double.of_Z 1000).

(** The updater of the tick:
    [(prev) => { const next = prev - delta; return next <= 0 ? 0 : next; }] *)
Definition countdown (prev d : Double.double) : Double.double :=
  let next := Double.sub prev d in
  if Double.leb next Double.zero then Double.zero else next.

(** The interval fires. *)
Definition tick (now : Z) (st : state) : state :=
  if interval st then
    let last := match lastTickRef st with Some l => l | None => now end in
    let st1 := set_lastTick (Some now) st in
    if Double.leb (delta now last) Double.zero then st1
    else render now false st (setSeconds (countdown (seconds st) (delta now last)) st1)
  else st.

(** The start/pause button: [setRunning(!timer.running)]. *)
Definition toggle (now : Z) (st : state) : state :=
  render now false st (setRunning (negb (running st)) st).

(** The adjust buttons: [setSeconds((s) => s + 60)] and
    [setSeconds((s) => Math.max(0, s - 60))]. *)
Definition plus (now : Z) (st : state) : state :=
  render now false st (setSeconds (Double.add (seconds st) (Double.of_Z 60)) st).

Definition minus (now : Z) (st : state) : state :=
  render now false st
    (setSeconds (Double.max Double.zero (Double.sub (seconds st) (Double.of_Z 60))) st).

(** [Home] renders (its clock does so every second) and the card with it. *)
Definition rerender (now : Z) (st : state) : state :=
  render now true st st.

Definition enter (st : state) : state := setOpen true st.
Definition exit (st : state) : state := setOpen false st.

Inductive event : Type :=
  | Tick (now : Z)
  | Toggle (now : Z)
  | Plus (now : Z)
  | Minus (now : Z)
  | Rerender (now : Z)
  | Enter
  | Exit.

Definition step (st : state) (e : event) : state :=
  match e with
  | Tick now => tick now st
  | Toggle now => toggle now st
  | Plus now => plus now st
  | Minus now => minus now st
  | Rerender now => rerender now st
  | Enter => enter st
  | Exit => exit st
  end.

Definition run (es : list event) (st : state) : state := fold_left step es st.

(** The card of [Home]: [useFullscreenTimer(10 * 60, onFocusTime)]. *)
Definition card : state := init (Double.of_Z (10 * 60)).

(** A run segment of the hook on its own: resumed at [resumed], ticked at
    [ticks], paused at [paused]. *)
Record segment : Type := mkSegment {
  resumed : Z;
  ticks : list Z;
  paused : Z
}.

Definition segment_events (g : segment) : list event :=
  Toggle (resumed g) :: map Tick (ticks g) ++ [Toggle (paused g)].

Definition run_segments (gs : list segment) (st : state) : state :=
  run (List.concat (map segment_events gs)) st.






Definition last_tick (g : segment) : Z := last (ticks g) (resumed g).

Definition running_time (g : segment) : Z := paused g - resumed g.


(** The ticks of a segment come in order, none before the resume, and the
    pause is not before the last tick. *)
Fixpoint ascending (from : Z) (ts : list Z) : Prop :=
  match ts with
  | [] => True
  | t :: ts' => from <= t /\ ascending t ts'
  end.

Definition segment_ok (g : segment) : Prop :=
  ascending (resumed g) (ticks g) /\ last_tick g <= paused g.


(** The state of a countdown resumed at [a], last ticked at [lastTick],
    with [left] seconds left. *)
Definition resumed_at (left : Double.double) (o : bool) (a lastTick : Z)
    (reps : list Z) : state :=
  mkState left true o (Some lastTick) (Some a) true reps.

(** The test [seconds < 0] is false. *)
Definition not_below_zero (st : state) : Prop :=
  Double.ltb (seconds st) Double.zero = false.




Definition total (f : segment -> Z) (gs : list segment) : Z :=
  fold_right (fun g acc => f g + acc) 0 gs.

End Fs64.

(** ** The clock display: [pad2] and [formatHMS] *)

Module Format.

(** [String(n)] of an integer of a magnitude up to 2^53: its decimal digits,
    a minus sign before them when it is negative.  (Above 2^53 the source
    writes the shortest digits that give the double back, and an exponent
    from 1e21 on; the definition is not meant for such numbers.) *)
Definition String_of (n : Z) : string := NilZero.string_of_int (Z.to_int n).

(** [k] characters of [padString], repeated from its start; [cur] is what is
    left of the current copy. *)
Fixpoint fill (padString cur : string) (k : nat) : string :=
  match k with
  | O => EmptyString
  | S k' =>
      match cur with
      | String c rest => String c (fill padString rest k')
      | EmptyString =>
          match padString with
          | String c rest => String c (fill padString rest k')
          | EmptyString => EmptyString
          end
      end
  end.

(** [s.padStart(targetLength, padString)] *)
Definition padStart (targetLength : nat) (padString s : string) : string :=
  (fill padString padString (targetLength - String.length s) ++ s)%string.

Definition pad2 (n : Z) : string := padStart 2 "0" (String_of n).

(** [formatHMS] on a whole number of seconds ([Math.floor] leaves it as it
    is). *)
Definition formatHMS (totalSeconds : Z) : string :=
  let s := Js.max 0 totalSeconds in
  let h := Js.floor_div s 3600 in
  let m := Js.floor_div (Js.rem s 3600) 60 in
  let ss := Js.rem s 60 in
  if h >? 0 then (pad2 h ++ ":" ++ pad2 m ++ ":" ++ pad2 ss)%string
  else (pad2 m ++ ":" ++ pad2 ss)%string.

(** A decimal number read back: the integer a string of digits stands for. *)
Definition read_decimal (s : string) : option Z :=
  option_map Z.of_int (NilZero.int_of_string s).

(** A display of the form [MM:SS] read back as seconds. *)
Definition read_MMSS (s : string) : option Z :=
  match read_decimal (substring 0 2 s), read_decimal (substring 3 2 s) with
  | Some m, Some ss => Some (m * 60 + ss)
  | _, _ => None
  end.

(** What [formatHMS] shows and reads back as, checked for one value. *)
Definition display_ok (s : Z) : bool :=
  (String.length (formatHMS s) =? 5)%nat &&
  match read_MMSS (formatHMS s) with
  | Some v => v =? s
  | None => false
  end &&
  String.eqb (substring 2 1 (formatHMS s)) ":".

End Format.

(** ** The login streak: [updateLoginStreak] of [Home] *)

Module Streak.

(** The user's document as far as the streak goes: a field that is missing
    is [None].  Dates are the strings [toDateString] gives. *)
Record userDoc : Type := mkDoc {
  doc_streak : option Z;
  doc_lastLoginDate : option string
}.

(** [user] says whether somebody is signed in, [doc] is the user's document
    in the store ([None]: it does not exist), [streak] the React state. *)
Record state : Type := mkState {
  user : bool;
  doc : option userDoc;
  streak : Z
}.

(** [lastLoginDate === date] where [lastLoginDate] is [null], [undefined] or a
    string. *)
Definition same_date (lastLoginDate : option string) (date : string) : bool :=
  match lastLoginDate with
  | Some d => String.eqb d date
  | None => false
  end.

(** [data.streak || 0] *)
Definition streak_or_0 (v : option Z) : Z :=
  match v with
  | Some s => if s =? 0 then 0 else s
  | None => 0
  end.

(** [updateLoginStreak] at a moment when the clock gives [today] and, a day
    back, [yesterdayStr].  [read_ok] and [write_ok] say whether [getDoc] and
    [setDoc] go through; either failure is caught and logged. *)
Definition updateLoginStreak (read_ok write_ok : bool) (today yesterdayStr : string)
    (st : state) : state :=
  if negb (user st) then st
  else if negb read_ok then st
  else
    let currentStreak :=
      match doc st with Some data => streak_or_0 (doc_streak data) | None => 0 end in
    let lastLoginDate :=
      match doc st with Some data => doc_lastLoginDate data | None => None end in
    if same_date lastLoginDate today then st
    else
      let currentStreak :=
        if same_date lastLoginDate yesterdayStr then currentStreak + 1
        else if negb (same_date lastLoginDate today) then 1
        else currentStreak in
      if write_ok
      then mkState (user st) (Some (mkDoc (Some currentStreak) (Some today))) currentStreak
      else mkState (user st) (doc st) currentStreak.

(** Visits on the days [days], one after the other: at each visit the clock
    gives the day of the visit and, as yesterday, [prev], the day before it in
    the list. *)
Fixpoint visits (prev : string) (days : list string) (st : state) : state :=
  match days with
  | [] => st
  | today :: days' => visits today days' (updateLoginStreak true true today prev st)
  end.

(** No day of the list is the day right before it. *)
Fixpoint distinct_days (prev : string) (days : list string) : Prop :=
  match days with
  | [] => True
  | today :: days' => today <> prev /\ distinct_days today days'
  end.

(** The streak the store holds. *)
Definition stored_streak (st : state) : option Z :=
  match doc st with
  | Some data => doc_streak data
  | None => None
  end.

Definition stored_date (st : state) : option string :=
  match doc st with
  | Some data => doc_lastLoginDate data
  | None => None
  end.

End Streak.

(** ** The task list of the first version of [Home], kept in React state *)

Module Tasks.

Record LocalTask : Type := mkTask {
  id : string;
  title : string;
  done : bool;
  createdAt : Z
}.

(** [addTask(title)]: [uuid] is what [crypto.randomUUID()] gives and [now]
    what [Date.now()] gives. *)
Definition addTask (uuid : string) (now : Z) (title : string)
    (prev : list LocalTask) : list LocalTask :=
  mkTask uuid title false now :: prev.

Definition toggleTask (i : string) (prev : list LocalTask) : list LocalTask :=
  map (fun t => if String.eqb (id t) i
                then mkTask (id t) (title t) (negb (done t)) (createdAt t)
                else t) prev.

Definition removeTask (i : string) (prev : list LocalTask) : list LocalTask :=
  filter (fun t => negb (String.eqb (id t) i)) prev.

(** [tasks.filter((t) => !t.done).length] of the card. *)
Definition remaining (tasks : list LocalTask) : nat :=
  List.length (filter (fun t => negb (done t)) tasks).

Definition ids (tasks : list LocalTask) : list string := map id tasks.

End Tasks.

(** ** The end-of-day message of [Home] and its cache in the local storage *)

Module Eod.

Record storage : Type := mkStorage {
  rose_eod_last_date : option string;
  rose_eod_message : option string
}.

Record state : Type := mkState {
  eodMessage : option string;
  localStorage : storage
}.

(** [!cachedMessage]: [null] and the empty string are falsy. *)
Definition falsy (v : option string) : bool :=
  match v with
  | Some s => String.eqb s EmptyString
  | None => true
  end.

Definition differs (lastDate : option string) (todayKey : string) : bool :=
  match lastDate with
  | Some d => negb (String.eqb d todayKey)
  | None => true
  end.

(** The effect on [[currentTime]]: the state it leaves and whether it sends
    the request for a new message. *)
Definition effect (hour : Z) (todayKey : string) (st : state) : state * bool :=
  if hour >=? 21 then
    let lastDate := rose_eod_last_date (localStorage st) in
    let cachedMessage := rose_eod_message (localStorage st) in
    if differs lastDate todayKey || falsy cachedMessage then (st, true)
    else
      ((if falsy cachedMessage then st else mkState cachedMessage (localStorage st)),
       false)
  else (mkState None (localStorage st), false).

(** The answer to a request the effect sent with [todayKey]. *)
Definition on_response (todayKey message : string) (st : state) : state :=
  mkState (Some message) (mkStorage (Some todayKey) (Some message)).

Definition fallback : string := "Rest well. You've earned it.".

(** The request failed. *)
Definition on_failure (st : state) : state :=
  mkState (Some fallback) (localStorage st).

End Eod.

(** ** The timers of the first version of the page

    [usePomodoro] and [useFullscreenTimer] as the older [Home] has them: both
    count whole seconds, as the difference between two ticks rounded down. *)

Module Legacy.

(** [Math.max(0, Math.floor((now - last) / 1000))] *)
Definition whole_seconds (now last : Z) : Z :=
  Js.max 0 (Js.floor_div (now - last) 1000).

Record countdown : Type := mkCountdown {
  seconds : Z;
  running : bool;
  lastTickRef : option Z;
  (** the interval of the tick effect is installed *)
  interval : bool
}.

(** The effect on [[running]] of [useFullscreenTimer], its clean-up
    included. *)
Definition tick_effect (st : countdown) : countdown :=
  if running st then mkCountdown (seconds st) true (lastTickRef st) true
  else mkCountdown (seconds st) false None false.

(** One render after a handler took [prev] to [st]: the effect on
    [[running]], then the effect on [[seconds]], which stops a countdown that
    shows zero. *)
Definition render (prev st : countdown) : countdown :=
  let st :=
    if negb (Bool.eqb (running prev) (running st)) then tick_effect st else st in
  if negb (seconds prev =? seconds st) && (seconds st =? 0) && running st
  then tick_effect (mkCountdown (seconds st) false (lastTickRef st) (interval st))
  else st.

Definition tick (now : Z) (st : countdown) : countdown :=
  if interval st then
    let last := match lastTickRef st with Some l => l | None => now end in
    let st1 := mkCountdown (seconds st) (running st) (Some now) (interval st) in
    let delta := whole_seconds now last in
    if delta <=? 0 then st1
    else
      let next := seconds st - delta in
      render st
        (mkCountdown (if next <=? 0 then 0 else next) (running st1)
           (lastTickRef st1) (interval st1))
  else st.

Definition toggle (st : countdown) : countdown :=
  render st (mkCountdown (seconds st) (negb (running st)) (lastTickRef st) (interval st)).

Definition plus (st : countdown) : countdown :=
  render st (mkCountdown (seconds st + 60) (running st) (lastTickRef st) (interval st)).

Definition minus (st : countdown) : countdown :=
  render st
    (mkCountdown (Js.max 0 (seconds st - 60)) (running st) (lastTickRef st)
       (interval st)).

(** [usePomodoro({ focusMin, breakMin })] *)
Record pomodoro : Type := mkPomodoro {
  mode : Pomo.mode;
  pomo_running : bool;
  remaining : Z;
  pomo_lastTickRef : option Z;
  (** the interval and the [mode] its callback saw *)
  pomo_interval : option Pomo.mode
}.

Definition duration (focusMin breakMin : Z) (m : Pomo.mode) : Z :=
  (match m with Pomo.focus => focusMin | Pomo.break => breakMin end) * 60.

(** The effect on [[running, mode, breakMin, focusMin]], its clean-up
    included. *)
Definition pomo_effect (st : pomodoro) : pomodoro :=
  if pomo_running st
  then mkPomodoro (mode st) true (remaining st) (pomo_lastTickRef st) (Some (mode st))
  else mkPomodoro (mode st) false (remaining st) None None.

Definition pomo_render (prev st : pomodoro) : pomodoro :=
  if negb (Bool.eqb (pomo_running prev) (pomo_running st))
     || negb (Pomo.mode_eqb (mode prev) (mode st))
  then pomo_effect st else st.

Definition pomo_tick (focusMin breakMin now : Z) (st : pomodoro) : pomodoro :=
  match pomo_interval st with
  | None => st
  | Some seen =>
      let last := match pomo_lastTickRef st with Some l => l | None => now end in
      let st1 :=
        mkPomodoro (mode st) (pomo_running st) (remaining st) (Some now)
          (pomo_interval st) in
      let delta := whole_seconds now last in
      if delta <=? 0 then st1
      else
        let next := remaining st - delta in
        if next >? 0
        then pomo_render st
               (mkPomodoro (mode st1) (pomo_running st1) next (pomo_lastTickRef st1)
                  (pomo_interval st1))
        else
          let nextMode :=
            match seen with Pomo.focus => Pomo.break | Pomo.break => Pomo.focus end in
          pomo_render st
            (mkPomodoro nextMode (pomo_running st1)
               (duration focusMin breakMin nextMode) (pomo_lastTickRef st1)
               (pomo_interval st1))
  end.

Definition pomo_toggle (st : pomodoro) : pomodoro :=
  pomo_render st
    (mkPomodoro (mode st) (negb (pomo_running st)) (remaining st)
       (pomo_lastTickRef st) (pomo_interval st)).

(** [reset(nextMode)] *)
Definition reset (focusMin breakMin : Z) (nextMode : Pomo.mode) (st : pomodoro)
    : pomodoro :=
  pomo_render st
    (mkPomodoro nextMode false (duration focusMin breakMin nextMode)
       (pomo_lastTickRef st) (pomo_interval st)).

(** The state after mounting. *)
Definition pomo_init (focusMin breakMin : Z) : pomodoro :=
  mkPomodoro Pomo.focus false (focusMin * 60) None None.

Definition countdown_init (initialSeconds : Z) : countdown :=
  mkCountdown initialSeconds false None false.

(** Ticks that follow one another at less than a second: each comes less
    than 1000 ms after the one before. *)
Fixpoint close_ticks (last : Z) (ts : list Z) : Prop :=
  match ts with
  | [] => True
  | t :: ts' => t < last + 1000 /\ close_ticks t ts'
  end.

(** The same for a timer that may not have ticked yet. *)
Definition close_ticks_from (lastTick : option Z) (ts : list Z) : Prop :=
  match lastTick, ts with
  | Some last, _ => close_ticks last ts
  | None, [] => True
  | None, t :: ts' => close_ticks t ts'
  end.

Definition ticks (ts : list Z) (st : countdown) : countdown :=
  fold_left (fun s t => tick t s) ts st.

Definition pomo_ticks (focusMin breakMin : Z) (ts : list Z) (st : pomodoro) : pomodoro :=
  fold_left (fun s t => pomo_tick focusMin breakMin t s) ts st.

End Legacy.

(** ** What the generator can say *)

Module Messages.

(** The five sentences, by the remainder of the seed's absolute value. *)
Definition possible : list string :=
  [ "You showed up today. You've got this";
    "Keep going You've carried on through another day.";
    "Rest now. Tomorrow needs you.";
    "You kept going, and that's enough.";
    "Your resilience matters. Take care of yourself." ]%string.

Definition has_brace (s : string) : bool :=
  existsb (fun a => Ascii.eqb a "{"%char || Ascii.eqb a "}"%char)
    (list_ascii_of_string s).

(** A sentence a reader can be shown: not empty, no placeholder left. *)
Definition presentable (s : string) : bool :=
  negb (String.eqb s EmptyString) && negb (has_brace s).

End Messages.

(** ** The Pomodoro session under a clock that does not run backwards *)

Module PomoClock.

Definition event_time (e : Pomo.event) : Z :=
  match e with
  | Pomo.Tick now | Pomo.Toggle now | Pomo.Reset now _ => now
  end.

(** The events come in the order of their clock readings, none before
    [from]. *)
Fixpoint ascending (from : Z) (es : list Pomo.event) : Prop :=
  match es with
  | [] => True
  | e :: es' => from <= event_time e /\ ascending (event_time e) es'
  end.

(** At time [t] nothing exceeds the 25 minutes of a focus interval, and a
    session that has a start did not start after [t]. *)
Definition bounded (t : Z) (st : Pomo.state) : Prop :=
  Pomo.pomoRemaining st <= 25 * 60 /\
  Pomo.cl_remaining (Pomo.calculate st) <= 25 * 60 /\
  match Pomo.pomoSessionStartRef st with
  | Some start => start <= t /\ Pomo.pomoSessionDurationRef st <= 25 * 60
  | None => True
  end.

End PomoClock.

(** ** The full-screen flag of the countdown *)

Module FsScreen.

(** [enter] and [exit], the two events that set [open]. *)
Definition is_screen (e : Fs.event) : bool :=
  match e with
  | Fs.Enter | Fs.Exit => true
  | _ => false
  end.

(** Two states of the countdown that differ at most in [open]. *)
Definition same_timer (a b : Fs.state) : Prop :=
  Fs.setOpen false a = Fs.setOpen false b.

(** What [open] is after the events: what the last [enter] or [exit] made
    it. *)
Fixpoint open_after (o : bool) (es : list Fs.event) : bool :=
  match es with
  | [] => o
  | Fs.Enter :: es' => open_after true es'
  | Fs.Exit :: es' => open_after false es'
  | _ :: es' => open_after o es'
  end.

End FsScreen.

(** * Properties *)

(** ** The generator's hash *)

Section Truncate32.

Import Generator.

Lemma truncate32_range (x : Z) : Js.int32 (truncate32 x).
Proof.
  unfold Js.int32, truncate32.
  pose proof (Z.mod_pos_bound (x + 2 ^ 31) (2 ^ 32) ltac:(lia)).
  lia.
Qed.

Lemma truncate32_small (x : Z) : Js.int32 x -> truncate32 x = x.
Proof.
  unfold Js.int32, truncate32. intros Hx.
  rewrite Z.mod_small by lia. lia.
Qed.

Lemma truncate32_wraps (x : Z) : exists q, truncate32 x = x + q * 2 ^ 32.
Proof.
  exists (- ((x + 2 ^ 31) / 2 ^ 32)). unfold truncate32.
  pose proof (Z.div_mod (x + 2 ^ 31) (2 ^ 32) ltac:(lia)). lia.
Qed.

Lemma truncate32_shift (x q : Z) : truncate32 (x + q * 2 ^ 32) = truncate32 x.
Proof.
  unfold truncate32.
  replace (x + q * 2 ^ 32 + 2 ^ 31) with (x + 2 ^ 31 + q * 2 ^ 32) by lia.
  now rewrite Z_mod_plus_full.
Qed.

Lemma ToInt32_truncate32 (x : Z) : Js.ToInt32 x = truncate32 x.
Proof.
  unfold Js.ToInt32.
  pose proof (Z.mod_pos_bound x (2 ^ 32) ltac:(lia)) as Hm.
  pose proof (Z.div_mod x (2 ^ 32) ltac:(lia)) as Hd.
  destruct (x mod 2 ^ 32 <? 2 ^ 31) eqn:E.
  - apply Z.ltb_lt in E.
    replace x with (x mod 2 ^ 32 + (x / 2 ^ 32) * 2 ^ 32) at 2 by lia.
    rewrite truncate32_shift. symmetry. apply truncate32_small.
    unfold Js.int32. lia.
  - apply Z.ltb_ge in E.
    replace x with ((x mod 2 ^ 32 - 2 ^ 32) + (x / 2 ^ 32 + 1) * 2 ^ 32) at 2 by lia.
    rewrite truncate32_shift. symmetry. apply truncate32_small.
    unfold Js.int32. lia.
Qed.

Lemma shl_5 (x : Z) : Js.shl x 5 = truncate32 (x * 32).
Proof.
  unfold Js.shl. rewrite !ToInt32_truncate32.
  change (Z.land (Js.ToUint32 5) 31) with 5.
  rewrite Z.shiftl_mul_pow2 by lia. change (2 ^ 5) with 32.
  destruct (truncate32_wraps x) as [q ->].
  replace ((x + q * 2 ^ 32) * 32) with (x * 32 + (q * 32) * 2 ^ 32) by lia.
  apply truncate32_shift.
Qed.

Lemma band_diag (x : Z) : Js.band x x = truncate32 x.
Proof.
  unfold Js.band. rewrite Z.land_diag, !ToInt32_truncate32.
  apply truncate32_small, truncate32_range.
Qed.

Lemma hash_step_truncate32 (seed c : Z) :
  hash_step seed c = truncate32 (seed * 31 + c).
Proof.
  unfold hash_step. rewrite band_diag, shl_5.
  destruct (truncate32_wraps (seed * 32)) as [q ->].
  replace (seed * 32 + q * 2 ^ 32 - seed + c) with (seed * 31 + c + q * 2 ^ 32) by lia.
  apply truncate32_shift.
Qed.

Lemma hash_step_int32 (seed c : Z) : Js.int32 (hash_step seed c).
Proof. rewrite hash_step_truncate32. apply truncate32_range. Qed.

(** The two intermediate numbers of the loop body stay far inside the
    range a double holds exactly, so the source's arithmetic is exact. *)
Lemma hash_step_is_safe_integer (seed c : Z) :
  Js.int32 seed -> code_unit c ->
  Js.safe_integer (Js.shl seed 5 - seed) /\
  Js.safe_integer (Js.shl seed 5 - seed + c).
Proof.
  unfold Js.safe_integer, code_unit. intros Hs Hc.
  pose proof (truncate32_range (seed * 32)) as Hr.
  rewrite shl_5. unfold Js.int32 in *.
  change (2 ^ 53) with 9007199254740992.
  change (2 ^ 31) with 2147483648 in *. lia.
Qed.

Lemma fold_hash_step (s : dateString_t) (seed : Z) :
  fold_left hash_step s seed = spec_seed_from seed s.
Proof.
  revert seed. induction s as [|c s IH]; intros seed; simpl.
  - reflexivity.
  - rewrite hash_step_truncate32. apply IH.
Qed.

Lemma fold_hash_step_int32 (s : dateString_t) (seed : Z) :
  Js.int32 seed -> Js.int32 (fold_left hash_step s seed).
Proof.
  revert seed. induction s as [|c s IH]; intros seed Hs; simpl.
  - exact Hs.
  - apply IH, hash_step_int32.
Qed.

Lemma seed_of_int32 (s : dateString_t) : Js.int32 (seed_of s).
Proof. apply fold_hash_step_int32. unfold Js.int32. lia. Qed.

(** On a string of UTF-16 code units the whole loop is exact. *)
Lemma loop_is_exact (s : dateString_t) (seed : Z) :
  Js.int32 seed -> well_formed s -> exact_from seed s.
Proof.
  intros Hseed Hs. revert seed Hseed.
  induction Hs as [|c s Hc _ IH]; intros seed Hseed; cbn [exact_from].
  - exact I.
  - destruct (hash_step_is_safe_integer seed c Hseed Hc) as [H1 H2].
    split; [exact H1 | split; [exact H2 | apply IH, hash_step_int32]].
Qed.

Lemma codes_well_formed (text : string) : well_formed (codes text).
Proof.
  unfold well_formed, codes. apply Forall_forall. intros c Hin.
  apply in_map_iff in Hin. destruct Hin as (a & <- & _).
  pose proof (nat_ascii_bounded a). unfold code_unit. lia.
Qed.

End Truncate32.

(** C1: the seed is the fold seed_0 = 0, seed_(i+1) = truncate32 (seed_i * 31
    + c_i) over the character codes, because one pass of the loop body,
    [seed = ((seed << 5) - seed) + c; seed = seed & seed], is
    truncate32 (seed * 31 + c) for every seed and character code; the seed is
    a signed 32-bit integer after every step. *)
Theorem seed_is_the_31_hash :
  (forall seed c : Z,
      Generator.hash_step seed c = Generator.truncate32 (seed * 31 + c)) /\
  (forall s : Generator.dateString_t,
      Generator.seed_of s = Generator.spec_seed s /\
      Js.int32 (Generator.seed_of s)).
Proof.
  split.
  - exact hash_step_truncate32.
  - intros s. split.
    + apply fold_hash_step.
    + apply seed_of_int32.
Qed.

(** ** The generator's choices *)

Section Choices.

Import Generator.

Lemma abs_nonneg (seed : Z) : 0 <= Js.abs seed.
Proof. unfold Js.abs. lia. Qed.

Lemma rem_5 (a k : Z) : 0 <= a -> 0 <= k -> Js.rem (a + k) 5 = (a mod 5 + k) mod 5.
Proof.
  intros Ha Hk. unfold Js.rem.
  rewrite Z.rem_mod_nonneg by lia.
  now rewrite Zplus_mod_idemp_l.
Qed.

Lemma spec_indices_mod (abs : Z) : spec_indices abs = spec_indices (abs mod 5).
Proof.
  unfold spec_indices.
  rewrite Z.mod_mod by lia.
  now rewrite !(Zplus_mod_idemp_l abs).
Qed.

Lemma indices_of_seed_spec (seed : Z) :
  indices_of_seed seed = spec_indices (Js.abs seed).
Proof.
  pose proof (abs_nonneg seed) as Ha.
  unfold indices_of_seed, spec_indices.
  change (len templates) with 5. change (len actions) with 5.
  change (len encouragements) with 5. change (len verbs) with 5.
  change (len accomplishments) with 5. change (len qualities) with 5.
  change (len futureActions) with 5.
  unfold Js.rem. rewrite !Z.rem_mod_nonneg by (simpl; lia).
  reflexivity.
Qed.

Lemma residue_cases (a : Z) :
  a mod 5 = 0 \/ a mod 5 = 1 \/ a mod 5 = 2 \/ a mod 5 = 3 \/ a mod 5 = 4.
Proof. pose proof (Z.mod_pos_bound a 5 ltac:(lia)). lia. Qed.

Lemma render_ext (f g : slot -> string) (t : list piece) :
  (forall k, f k = g k) -> render f t = render g t.
Proof.
  intros Hfg. induction t as [|[text|k] t IH]; simpl.
  - reflexivity.
  - now rewrite IH.
  - now rewrite IH, Hfg.
Qed.

Lemma spec_message_mod (abs : Z) : spec_message abs = spec_message (abs mod 5).
Proof.
  unfold spec_message. rewrite Z.mod_mod by lia.
  apply render_ext. intros k. unfold spec_choice.
  now rewrite Zplus_mod_idemp_l.
Qed.

(** The chain of [replace] calls puts the chosen pool entries where the
    template has its placeholders, whatever the seed. *)
Lemma fill_spec_message (abs : Z) :
  fill (spec_indices abs) = Some (spec_message abs).
Proof.
  rewrite spec_indices_mod, spec_message_mod.
  destruct (residue_cases abs) as [E|[E|[E|[E|E]]]]; rewrite E; reflexivity.
Qed.

Lemma spec_indices_in_bounds (abs : Z) :
  in_bounds templates (templateIdx (spec_indices abs)) /\
  in_bounds actions (actionIdx (spec_indices abs)) /\
  in_bounds encouragements (encouragementIdx (spec_indices abs)) /\
  in_bounds verbs (verbIdx (spec_indices abs)) /\
  in_bounds accomplishments (accomplishmentIdx (spec_indices abs)) /\
  in_bounds qualities (qualityIdx (spec_indices abs)) /\
  in_bounds futureActions (futureIdx (spec_indices abs)).
Proof.
  unfold in_bounds; cbn [spec_indices templateIdx actionIdx encouragementIdx
    verbIdx accomplishmentIdx qualityIdx futureIdx].
  change (len templates) with 5. change (len actions) with 5.
  change (len encouragements) with 5. change (len verbs) with 5.
  change (len accomplishments) with 5. change (len qualities) with 5.
  change (len futureActions) with 5.
  repeat split; apply Z.mod_pos_bound; lia.
Qed.

(** No pool entry holds a dollar sign, so [replace] inserts each of them
    as it stands. *)
Lemma pools_have_no_dollar (k : slot) :
  forallb (fun s => negb (has_dollar s)) (pool k) = true.
Proof. destruct k; reflexivity. Qed.

(** The structured templates are the source's templates. *)
Lemma template_pieces_are_templates :
  map (render placeholder) template_pieces = templates.
Proof. reflexivity. Qed.

End Choices.

(** C2: with abs the absolute value of the seed, the template index is
    abs mod 5 and the slot indices are (abs + k) mod 5 for the offsets
    action 1, encouragement 2, verb 3, accomplishment 4, quality 5,
    futureAction 6; the message is the chosen template with the chosen pool
    entries in the place of its placeholders; a seed of 0 gives the indices
    0, 1, 2, 3, 4, 0, 1 and the message built from them. *)
Theorem indices_and_message_follow_the_formula (s : Generator.dateString_t) :
  let abs := Js.abs (Generator.seed_of s) in
  let ix := Generator.indices_of_seed (Generator.seed_of s) in
  Generator.templateIdx ix = abs mod 5 /\
  Generator.actionIdx ix = (abs + 1) mod 5 /\
  Generator.encouragementIdx ix = (abs + 2) mod 5 /\
  Generator.verbIdx ix = (abs + 3) mod 5 /\
  Generator.accomplishmentIdx ix = (abs + 4) mod 5 /\
  Generator.qualityIdx ix = (abs + 5) mod 5 /\
  Generator.futureIdx ix = (abs + 6) mod 5 /\
  Generator.generateDailyMessage s = Some (Generator.spec_message abs) /\
  (Generator.seed_of s = 0 ->
   ix = Generator.mkIndices 0 1 2 3 4 0 1 /\
   Generator.generateDailyMessage s =
     Some "You showed up today. You've got this"%string).
Proof.
  intros abs ix. subst abs ix.
  unfold Generator.generateDailyMessage.
  rewrite indices_of_seed_spec.
  repeat (split; [reflexivity|]).
  split.
  - apply fill_spec_message.
  - intros ->. split; reflexivity.
Qed.

(** The empty date string has seed 0 and exercises the last part of C2. *)
Lemma indices_and_message_follow_the_formula_witness :
  Generator.seed_of [] = 0 /\
  Generator.generateDailyMessage [] =
    Some "You showed up today. You've got this"%string.
Proof.
  split.
  - reflexivity.
  - pose proof (indices_and_message_follow_the_formula []) as H.
    cbv zeta in H. apply H. reflexivity.
Defined.

(** C3: the generator is total.  For every string it returns a message, the
    absolute value of the seed is not negative and each of the seven indices
    lies inside its pool; the empty string has seed 0 and gets the message of
    seed 0. *)
Theorem generateDailyMessage_total (s : Generator.dateString_t) :
  (exists message : string, Generator.generateDailyMessage s = Some message) /\
  0 <= Js.abs (Generator.seed_of s) /\
  (let ix := Generator.indices_of_seed (Generator.seed_of s) in
   Generator.in_bounds Generator.templates (Generator.templateIdx ix) /\
   Generator.in_bounds Generator.actions (Generator.actionIdx ix) /\
   Generator.in_bounds Generator.encouragements (Generator.encouragementIdx ix) /\
   Generator.in_bounds Generator.verbs (Generator.verbIdx ix) /\
   Generator.in_bounds Generator.accomplishments (Generator.accomplishmentIdx ix) /\
   Generator.in_bounds Generator.qualities (Generator.qualityIdx ix) /\
   Generator.in_bounds Generator.futureActions (Generator.futureIdx ix)) /\
  Generator.seed_of [] = 0 /\
  Generator.generateDailyMessage [] = Generator.fill (Generator.indices_of_seed 0) /\
  Generator.generateDailyMessage [] =
    Some "You showed up today. You've got this"%string.
Proof.
  split; [|split; [|split]].
  - exists (Generator.spec_message (Js.abs (Generator.seed_of s))).
    unfold Generator.generateDailyMessage.
    rewrite indices_of_seed_spec. apply fill_spec_message.
  - apply abs_nonneg.
  - cbv zeta. rewrite indices_of_seed_spec. apply spec_indices_in_bounds.
  - repeat split.
Qed.

(** ** The Pomodoro session *)

Section PomodoroInvariant.

Import Pomo.

Lemma mode_eqb_refl (m : mode) : mode_eqb m m = true.
Proof. now destruct m. Qed.

Lemma full_duration_pos (m : mode) : 0 < full_duration m.
Proof. destruct m; unfold full_duration; lia. Qed.

Ltac fin := cbn; repeat split; intros; try lia; try discriminate; try tauto; auto.

Lemma coherent_init : coherent init.
Proof. unfold coherent, init; cbn. repeat split; intros; try lia. Qed.

Lemma coherent_toggle (now : Z) (st : state) :
  coherent st -> coherent (toggle now st).
Proof.
  destruct st as [m r v start d itv [cr cv cm] reps].
  unfold coherent, toggle, render, running_effect, mode_effect; cbn.
  intros (Hr & Hm & Hi & Hs & Hv & Hc); subst cr cm.
  rewrite mode_eqb_refl. destruct r; cbn.
  - fin.
  - destruct (Js.truthy start); fin.
Qed.

Lemma coherent_reset (now : Z) (nextMode : mode) (st : state) :
  coherent st -> coherent (resetPomodoro now nextMode st).
Proof.
  destruct st as [m r v start d itv [cr cv cm] reps].
  unfold coherent, resetPomodoro, render, running_effect, mode_effect; cbn.
  intros (Hr & Hm & Hi & Hs & Hv & Hc); subst cr cm.
  pose proof (full_duration_pos nextMode).
  destruct r, m, nextMode; fin.
Qed.

Lemma coherent_tick (now : Z) (st : state) :
  coherent st -> coherent (tick now st).
Proof.
  destruct st as [m r v start d itv [cr cv cm] reps].
  unfold coherent, tick; cbn.
  intros (Hr & Hm & Hi & Hs & Hv & Hc); subst cr cm.
  destruct r; cbn; [|subst itv; fin].
  subst itv; cbn.
  unfold calculatePomoRemaining; cbn.
  destruct start as [start|]; cbn.
  - destruct (start =? 0); cbn.
    + unfold render; cbn. rewrite mode_eqb_refl; cbn.
      fin.
    + destruct (Js.max 0 (d - Js.floor_div (now - start) 1000) =? 0) eqn:E.
      * destruct m; fin.
      * unfold render; cbn. rewrite mode_eqb_refl; cbn.
        unfold Js.max in *.
        fin.
  - unfold render; cbn. rewrite mode_eqb_refl; cbn.
    fin.
Qed.

Lemma coherent_step (st : state) (e : event) :
  coherent st -> coherent (step st e).
Proof.
  destruct e; cbn.
  - apply coherent_tick.
  - apply coherent_toggle.
  - apply coherent_reset.
Qed.

Lemma coherent_run (es : list event) (st : state) :
  coherent st -> coherent (run es st).
Proof.
  revert st. induction es as [|e es IH]; intros st H; cbn.
  - exact H.
  - apply IH, coherent_step, H.
Qed.


End PomodoroInvariant.

Section PomodoroCompletion.

Import Pomo.

(** A tick that finds the session without a start changes neither the
    mode nor the refs nor the reports. *)
Lemma tick_without_start (now : Z) (st : state) :
  coherent st -> pomoSessionStartRef st = None ->
  let st' := tick now st in
  pomoSessionStartRef st' = None /\ pomoMode st' = pomoMode st /\
  pomoRunning st' = pomoRunning st /\ reports st' = reports st /\
  pomoSessionDurationRef st' = pomoSessionDurationRef st.
Proof.
  destruct st as [m r v start d itv [cr cv cm] reps].
  unfold coherent, tick; cbn.
  intros (Hr & Hm & Hi & Hs & Hv & Hc) ->; subst cr cm itv.
  destruct r; cbn; [|tauto].
  unfold render; cbn. rewrite mode_eqb_refl; cbn. tauto.
Qed.

Lemma ticks_without_start (ts : list Z) (st : state) :
  coherent st -> pomoSessionStartRef st = None ->
  pomoMode (run (map Tick ts) st) = pomoMode st /\
  reports (run (map Tick ts) st) = reports st.
Proof.
  revert st. induction ts as [|t ts IH]; intros st Hc Hs.
  - split; reflexivity.
  - destruct (tick_without_start t st Hc Hs) as (Hs' & Hm & _ & Hr & _).
    destruct (IH (tick t st) (coherent_tick t st Hc) Hs') as (Hm' & Hr').
    change (run (map Tick (t :: ts)) st) with (run (map Tick ts) (tick t st)).
    split; congruence.
Qed.

(** The tick that completes an interval. *)
Lemma tick_completes (now : Z) (st : state) :
  coherent st -> completes_at now st ->
  let st' := tick now st in
  pomoMode st' = match pomoMode st with focus => break | break => focus end /\
  reports st' = match pomoMode st with
                | focus => reports st ++ [25]
                | break => reports st
                end /\
  pomoRemaining st' = full_duration (pomoMode st') /\
  pomoSessionDurationRef st' = full_duration (pomoMode st') /\
  pomoSessionStartRef st' = None /\
  pomoRunning st' = true.
Proof.
  destruct st as [m r v start d itv [cr cv cm] reps].
  unfold coherent, completes_at, tick; cbn.
  intros (Hr & Hm & Hi & Hs & Hv & Hc) (Hrun & s & Hstart & Hs0 & Hz).
  subst cr cm r start itv; cbn.
  unfold calculatePomoRemaining; cbn.
  apply Z.eqb_neq in Hs0. rewrite Hs0; cbn.
  rewrite Hz; cbn.
  destruct m; cbn; repeat split.
Qed.

End PomodoroCompletion.

Section PomodoroLedger.

Import Pomo.

(** The hypothesis of a completing tick, in focus mode, is the test the
    ledger counts. *)
Lemma completes_focus_iff (now : Z) (st : state) :
  completes_focus now st = true <-> completes_at now st /\ pomoMode st = focus.
Proof.
  unfold completes_focus, completes_at, Js.truthy. split.
  - intros H. apply andb_prop in H as [H Hs]. apply andb_prop in H as [Hr Hm].
    destruct (pomoSessionStartRef st) as [start|]; [|discriminate].
    apply andb_prop in Hs as [Hs Hz].
    split; [split; [exact Hr|]|].
    + exists start. repeat split.
      * intros ->. discriminate.
      * apply Z.eqb_eq, Hz.
    + destruct (pomoMode st); [reflexivity|discriminate].
  - intros [(Hr & start & Hs & Hne & Hz) Hm].
    rewrite Hr, Hm, Hs, Hz. apply Z.eqb_neq in Hne. rewrite Hne. reflexivity.
Qed.

(** One event: only a tick that completes a focus interval reports, and it
    reports 25 once. *)
Lemma reports_step (e : event) (st : state) :
  coherent st ->
  reports (step st e) =
    reports st ++ (if completed_focus e st then [25] else []).
Proof.
  destruct st as [m r v start d itv [cr cv cm] reps].
  unfold coherent; cbn.
  intros (Hr & Hm & Hi & Hs & Hv & Hc); subst cr cm itv.
  destruct e as [now|now|now nextMode]; cbn [step completed_focus].
  - unfold tick, completes_focus, calculatePomoRemaining, Js.truthy; cbn.
    destruct r; cbn; [|now rewrite app_nil_r].
    destruct start as [start|]; cbn.
    + destruct (start =? 0); cbn.
      * unfold render; cbn. rewrite mode_eqb_refl; cbn.
        rewrite andb_false_r. now rewrite app_nil_r.
      * destruct (Js.max 0 (d - Js.floor_div (now - start) 1000) =? 0); cbn.
        -- destruct m; cbn; [reflexivity|now rewrite app_nil_r].
        -- unfold render; cbn. rewrite mode_eqb_refl; cbn.
           rewrite andb_false_r. now rewrite app_nil_r.
    + unfold render; cbn. rewrite mode_eqb_refl; cbn.
      rewrite andb_false_r. now rewrite app_nil_r.
  - rewrite app_nil_r.
    unfold toggle, render, running_effect; cbn. rewrite mode_eqb_refl.
    destruct r; cbn; [reflexivity|].
    destruct (Js.truthy start); reflexivity.
  - rewrite app_nil_r.
    unfold resetPomodoro, render, running_effect, mode_effect; cbn.
    destruct r, m, nextMode; reflexivity.
Qed.

(** A render of [Home] that follows no change of the session (its clock
    causes one every second) runs none of the effects. *)
Lemma render_unchanged (now : Z) (st : state) : render now st st = st.
Proof.
  unfold render. cbv zeta. rewrite mode_eqb_refl, Bool.eqb_reflx. reflexivity.
Qed.

(** The ledger of a run: one 25 for every completed focus interval and
    nothing else. *)
Lemma reports_run (es : list event) (st : state) :
  coherent st ->
  reports (run es st) = reports st ++ repeat 25 (focus_completions es st).
Proof.
  revert st. induction es as [|e es IH]; intros st Hc.
  - cbn. now rewrite app_nil_r.
  - change (run (e :: es) st) with (run es (step st e)).
    rewrite IH by (apply coherent_step, Hc).
    rewrite reports_step by exact Hc.
    cbn [focus_completions].
    destruct (completed_focus e st); cbn [Nat.add repeat].
    + rewrite <- app_assoc. reflexivity.
    + now rewrite app_nil_r.
Qed.

End PomodoroLedger.

(** C5: over any history of the session since [Home] mounted, the reports
    are one 25 for every tick that completed a focus interval and nothing
    else: no other tick, no press of start, pause or reset and no completed
    break calls the callback, and a render that follows no change of the
    session leaves the session as it is.  When the remaining time of a running focus
    interval reaches zero on a tick, the mode becomes break, the callback is
    called once, with 25 (whatever the clock says), the next session is
    armed with the five minutes of a break and no start, and further ticks
    report nothing more; when a break interval completes the mode becomes
    focus, nothing is reported and the twenty-five minutes of a focus
    interval are armed. *)
Theorem completed_focus_interval_reports_25_once
    (es : list Pomo.event) (now : Z) (later : list Z) :
  let st := Pomo.run es Pomo.init in
  let st' := Pomo.tick now st in
  Pomo.reports st = repeat 25 (Pomo.focus_completions es Pomo.init) /\
  (forall t s, Pomo.render t s s = s) /\
  (Pomo.completes_at now st ->
   (Pomo.pomoMode st = Pomo.focus ->
    Pomo.completes_focus now st = true /\
    Pomo.pomoMode st' = Pomo.break /\
    Pomo.reports st' = Pomo.reports st ++ [25] /\
    Pomo.pomoRemaining st' = 5 * 60 /\
    Pomo.pomoSessionDurationRef st' = 5 * 60 /\
    Pomo.pomoSessionStartRef st' = None /\
    Pomo.reports (Pomo.run (map Pomo.Tick later) st') = Pomo.reports st ++ [25] /\
    List.length (Pomo.reports (Pomo.run (map Pomo.Tick later) st')) =
      S (Pomo.focus_completions es Pomo.init)) /\
   (Pomo.pomoMode st = Pomo.break ->
    Pomo.completes_focus now st = false /\
    Pomo.pomoMode st' = Pomo.focus /\
    Pomo.reports st' = Pomo.reports st /\
    Pomo.pomoRemaining st' = 25 * 60 /\
    Pomo.pomoSessionDurationRef st' = 25 * 60 /\
    Pomo.pomoSessionStartRef st' = None /\
    Pomo.reports (Pomo.run (map Pomo.Tick later) st') = Pomo.reports st)).
Proof.
  intros st st'.
  assert (Hc : Pomo.coherent st) by apply coherent_run, coherent_init.
  assert (Hl : Pomo.reports st = repeat 25 (Pomo.focus_completions es Pomo.init)).
  { unfold st. rewrite reports_run by apply coherent_init. reflexivity. }
  split; [exact Hl|].
  split; [intros t s; apply render_unchanged|]. intros Hdone.
  destruct (tick_completes now st Hc Hdone) as (Hm & Hr & Hv & Hd & Hs & _).
  fold st' in Hm, Hr, Hv, Hd, Hs.
  assert (Hc' : Pomo.coherent st') by apply coherent_tick, Hc.
  destruct (ticks_without_start later st' Hc' Hs) as (_ & Hlater).
  split; intros E.
  - assert (Hf : Pomo.completes_focus now st = true)
      by (apply completes_focus_iff; split; assumption).
    rewrite E in *; rewrite Hm in *.
    repeat split; try assumption; try congruence.
    rewrite Hlater, Hr, Hl, length_app, repeat_length. cbn. lia.
  - assert (Hf : Pomo.completes_focus now st = false).
    { destruct (Pomo.completes_focus now st) eqn:F; [|reflexivity].
      apply completes_focus_iff in F as [_ F]. congruence. }
    rewrite E in *; rewrite Hm in *.
    repeat split; try assumption; congruence.
Qed.

(** A focus interval started at 1 s, ticked on the way, paused and resumed,
    and ticked to its end 1500 s of counted time later: one report of 25,
    and none more by the ticks that follow. *)
Lemma completed_focus_interval_reports_25_once_witness :
  Pomo.reports
    (Pomo.tick 1502000
       (Pomo.run [Pomo.Toggle 1000; Pomo.Tick 1100; Pomo.Tick 61000;
                  Pomo.Toggle 61500; Pomo.Toggle 62000; Pomo.Tick 62100]
          Pomo.init)) = [25] /\
  Pomo.reports
    (Pomo.run (map Pomo.Tick [1502100; 1502200])
       (Pomo.tick 1502000
          (Pomo.run [Pomo.Toggle 1000; Pomo.Tick 1100; Pomo.Tick 61000;
                     Pomo.Toggle 61500; Pomo.Toggle 62000; Pomo.Tick 62100]
             Pomo.init))) = [25].
Proof.
  assert (H : Pomo.completes_at 1502000
                (Pomo.run [Pomo.Toggle 1000; Pomo.Tick 1100; Pomo.Tick 61000;
                           Pomo.Toggle 61500; Pomo.Toggle 62000; Pomo.Tick 62100]
                   Pomo.init)).
  { split; [reflexivity|]. exists 62000. repeat split. discriminate. }
  pose proof (completed_focus_interval_reports_25_once
                [Pomo.Toggle 1000; Pomo.Tick 1100; Pomo.Tick 61000;
                 Pomo.Toggle 61500; Pomo.Toggle 62000; Pomo.Tick 62100]
                1502000 [1502100; 1502200]) as (_ & _ & Hw).
  cbv zeta in Hw. destruct (Hw H) as [Hf _].
  destruct (Hf eq_refl) as (_ & _ & H1 & _ & _ & _ & H2 & _).
  split; [exact H1 | exact H2].
Defined.

Section PomodoroPause.

Import Pomo.

Lemma last_cons (A : Type) (x d : A) (xs : list A) :
  last (x :: xs) d = last xs x.
Proof.
  revert x d. induction xs as [|y ys IH]; intros x d.
  - reflexivity.
  - change (last (x :: y :: ys) d) with (last (y :: ys) d).
    now rewrite !IH.
Qed.


(** While the session is paused no interval exists: a tick is nothing. *)
Lemma tick_while_paused (now : Z) (st : state) :
  coherent st -> pomoRunning st = false -> tick now st = st.
Proof.
  intros (_ & _ & Hi & _) Hr. unfold tick. rewrite Hi, Hr. reflexivity.
Qed.

Lemma ticks_while_paused (ts : list Z) (st : state) :
  coherent st -> pomoRunning st = false -> run (map Tick ts) st = st.
Proof.
  intros Hc Hr. induction ts as [|t ts IH].
  - reflexivity.
  - change (run (map Tick (t :: ts)) st) with (run (map Tick ts) (tick t st)).
    now rewrite tick_while_paused.
Qed.













End PomodoroPause.

(** ** The full-screen countdown *)

Section Fullscreen.

Import Fs.

Lemma fs_run_app (es1 es2 : list event) (st : state) :
  run (es1 ++ es2) st = run es2 (run es1 st).
Proof. apply fold_left_app. Qed.

Lemma seconds_report_effect (now : Z) (st : state) :
  seconds (report_effect now st) = seconds st.
Proof.
  unfold report_effect. destruct (running st); [reflexivity|].
  destruct (sessionStartTimeRef st) as [start|]; [|reflexivity].
  destruct (Js.truthy (Some start)); [|reflexivity].
  destruct (sessionMinutes (now - start) >? 0); reflexivity.
Qed.

Lemma seconds_tick_effect (st : state) : seconds (tick_effect st) = seconds st.
Proof. unfold tick_effect. destruct (running st); reflexivity. Qed.

(** Rendering never changes the number on display. *)
Lemma seconds_render (now : Z) (fresh : bool) (prev st : state) :
  seconds (render now fresh prev st) = seconds st.
Proof.
  unfold render.
  repeat match goal with
         | |- context [if ?b then _ else _] => destruct b
         end;
    repeat (rewrite ?seconds_tick_effect, ?seconds_report_effect;
            cbn [seconds setRunning]);
    reflexivity.
Qed.

Lemma non_negative_step (st : state) (e : event) :
  non_negative st -> non_negative (step st e).
Proof.
  unfold non_negative. intros H. destruct e as [now|now|now|now|now| |]; cbn.
  - unfold tick. destruct (interval st); [|exact H].
    destruct (_ <=? 0); [exact H|].
    rewrite seconds_render. cbn.
    destruct (_ <=? 0) eqn:E; [lia|]. apply Z.leb_gt in E. lia.
  - unfold toggle. rewrite seconds_render. exact H.
  - unfold plus. rewrite seconds_render. cbn. lia.
  - unfold minus. rewrite seconds_render. cbn. unfold Js.max. lia.
  - unfold rerender. rewrite seconds_render. exact H.
  - exact H.
  - exact H.
Qed.

Lemma non_negative_run (es : list event) (st : state) :
  non_negative st -> non_negative (run es st).
Proof.
  revert st. induction es as [|e es IH]; intros st H.
  - exact H.
  - apply IH, non_negative_step, H.
Qed.

End Fullscreen.

(** C7: whatever ticks, pauses, resumes, resets and adjustments happen, in
    whatever order and at whatever clock readings, the remaining time of the
    Pomodoro session and the seconds of the full-screen countdown are never
    below zero. *)
Theorem remaining_is_never_negative
    (pomodoro : list Pomo.event) (fullscreen : list Fs.event) (initialSeconds : Z) :
  0 <= initialSeconds ->
  0 <= Pomo.pomoRemaining (Pomo.run pomodoro Pomo.init) /\
  Fs.non_negative (Fs.run fullscreen (Fs.init initialSeconds)) /\
  Fs.non_negative (Fs.run fullscreen Fs.card).
Proof.
  intros Hinit. split; [|split].
  - apply (coherent_run pomodoro Pomo.init coherent_init).
  - apply non_negative_run. exact Hinit.
  - apply non_negative_run. unfold Fs.non_negative, Fs.card. cbn. lia.
Qed.

(** A clock that runs backwards, a countdown emptied by the minus button. *)
Lemma remaining_is_never_negative_witness :
  0 <= Pomo.pomoRemaining
         (Pomo.run [Pomo.Toggle 5000; Pomo.Tick 2000; Pomo.Tick 9000000;
                    Pomo.Toggle 9000100; Pomo.Reset 9000200 Pomo.break]
            Pomo.init) /\
  Fs.non_negative
    (Fs.run [Fs.Toggle 1000; Fs.Minus 1050; Fs.Tick 1100; Fs.Minus 1200; Fs.Tick 500]
       (Fs.init 90000)).
Proof.
  pose proof (remaining_is_never_negative
    [Pomo.Toggle 5000; Pomo.Tick 2000; Pomo.Tick 9000000;
     Pomo.Toggle 9000100; Pomo.Reset 9000200 Pomo.break]
    [Fs.Toggle 1000; Fs.Minus 1050; Fs.Tick 1100; Fs.Minus 1200; Fs.Tick 500]
    90000 ltac:(lia)) as (H1 & H2 & _).
  split; [exact H1 | exact H2].
Defined.

(** ** Whole numbers in binary64 *)

Section DoubleWhole.
Import Double SpecFloat.

Lemma digits2_size (p : positive) : digits2_pos p = Pos.size p.
Proof. induction p; cbn; congruence. Qed.

Lemma iter_xO_Z (q k : positive) : Z.pos (Pos.iter xO q k) = Z.pos q * 2 ^ Z.pos k.
Proof.
  induction k as [|k IH] using Pos.peano_ind.
  - cbn. lia.
  - rewrite Pos.iter_succ, Pos2Z.inj_succ, Z.pow_succ_r by lia.
    rewrite Pos2Z.inj_xO, IH. lia.
Qed.

Lemma shl_Z (q : positive) (k : Z) : 0 <= k -> Z.pos (shl q k) = Z.pos q * 2 ^ k.
Proof.
  intros H. destruct k as [|k|k]; cbn [shl].
  - lia.
  - apply iter_xO_Z.
  - lia.
Qed.

Lemma digits_iter_xO (q k : positive) :
  Z.pos (digits2_pos (Pos.iter xO q k)) = Z.pos (digits2_pos q) + Z.pos k.
Proof.
  induction k as [|k IH] using Pos.peano_ind.
  - cbn. lia.
  - rewrite Pos.iter_succ. cbn [digits2_pos]. rewrite Pos2Z.inj_succ, IH. lia.
Qed.

Lemma digits_shl (q : positive) (k : Z) :
  0 <= k -> Z.pos (digits2_pos (shl q k)) = Z.pos (digits2_pos q) + k.
Proof.
  intros H. destruct k as [|k|k]; cbn [shl].
  - lia.
  - apply digits_iter_xO.
  - lia.
Qed.

Lemma shl_shl (q : positive) (j k : Z) : 0 <= j -> 0 <= k -> shl (shl q j) k = shl q (j + k).
Proof.
  intros Hj Hk. apply Pos2Z.inj. rewrite !shl_Z by lia.
  rewrite Z.pow_add_r by lia. lia.
Qed.

Lemma iter_pos_iter (A : Type) (f : A -> A) (n : positive) (x : A) :
  iter_pos f n x = Pos.iter f x n.
Proof.
  revert x. induction n as [n IH|n IH|]; intros x; cbn.
  - rewrite !IH. now rewrite <- !Pos.iter_swap.
  - now rewrite !IH.
  - reflexivity.
Qed.

Lemma shr_exact (q n : positive) :
  iter_pos shr_1 n (Build_shr_record (Z.pos (Pos.iter xO q n)) false false) =
  Build_shr_record (Z.pos q) false false.
Proof.
  rewrite iter_pos_iter.
  induction n as [|n IH] using Pos.peano_ind.
  - reflexivity.
  - rewrite !Pos.iter_succ. rewrite <- Pos.iter_swap. cbn [shr_1 orb]. exact IH.
Qed.

Lemma digits_bound (q : positive) : Z.pos q < 2 ^ 53 -> Z.pos (digits2_pos q) <= 53.
Proof.
  intros H. rewrite digits2_size.
  pose proof (Pos.size_le q) as Hle.
  destruct (Z_le_gt_dec (Z.pos (Pos.size q)) 53) as [|Hgt]; [assumption|exfalso].
  assert (2 ^ 54 <= 2 ^ Z.pos (Pos.size q)) by (apply Z.pow_le_mono_r; lia).
  assert (Z.pos (2 ^ Pos.size q) <= Z.pos (q~0)) by exact Hle.
  rewrite Pos2Z.inj_pow in H1. change (2 ^ 54) with (2 * 2 ^ 53) in H0. lia.
Qed.


Lemma fexp_normal (x : Z) : -1021 <= x -> fexp prec emax x = x - 53.
Proof. intros H. unfold fexp, emin, prec, emax. lia. Qed.

(** A mantissa of 53 bits with an exponent in range is kept as it is. *)
Lemma round_aux_canonical (s : bool) (m : positive) (e : Z) :
  Z.pos (digits2_pos m) = 53 -> -1074 <= e <= 971 ->
  binary_round_aux prec emax s (Z.pos m) e loc_Exact = S754_finite s m e.
Proof.
  intros Hd He.
  assert (Hshift : fexp prec emax (Zdigits2 (Z.pos m) + e) - e = 0).
  { cbn [Zdigits2]. rewrite Hd. unfold fexp, emin, prec, emax. lia. }
  unfold binary_round_aux, shr_fexp.
  rewrite Hshift. cbn [shr shr_record_of_loc shr_m loc_of_shr_record round_nearest_even].
  rewrite Hshift. cbn [shr shr_record_of_loc shr_m].
  replace (e <=? emax - prec) with true; [reflexivity|].
  symmetry. apply Z.leb_le. unfold emax, prec. lia.
Qed.

(** Rounding a whole number that fits into 53 bits gives the number. *)
Lemma binary_round_whole (s : bool) (q : positive) (j : Z) :
  0 <= j -> Z.pos (digits2_pos q) <= 53 ->
  binary_round prec emax s (shl q j) (- j) = whole s q.
Proof.
  intros Hj Hd. set (d := Z.pos (digits2_pos q)) in *.
  assert (Hd1 : 1 <= d) by (unfold d; lia).
  unfold binary_round, whole. fold d.
  rewrite digits_shl by exact Hj. fold d.
  replace (d + j + - j) with d by lia.
  rewrite fexp_normal by lia.
  unfold shl_align.
  destruct (d - 53 - - j) as [|n|n] eqn:En.
  - (* no shift at all *)
    assert (j = prec - d) by (unfold prec; lia). subst j.
    replace (- (prec - d)) with (d - prec) by lia.
    apply round_aux_canonical.
    + rewrite digits_shl by lia. fold d. unfold prec. lia.
    + unfold prec. lia.
  - (* the number has more than 53 bits: the bits shifted out are zeros *)
    unfold binary_round_aux at 1, shr_fexp at 1.
    cbn [Zdigits2]. rewrite digits_shl by exact Hj. fold d.
    replace (d + j + - j) with d by lia.
    rewrite fexp_normal by lia. rewrite En.
    cbn [shr shr_record_of_loc].
    assert (Ej : shl q j = Pos.iter xO (shl q (prec - d)) n).
    { change (Pos.iter xO (shl q (prec - d)) n) with (shl (shl q (prec - d)) (Z.pos n)).
      rewrite shl_shl by (unfold prec; lia). f_equal. unfold prec. lia. }
    rewrite Ej, shr_exact.
    cbn [shr_m loc_of_shr_record round_nearest_even].
    replace (- j + Z.pos n) with (d - prec) by (unfold prec; lia).
    pose proof (round_aux_canonical s (shl q (prec - d)) (d - prec)) as H.
    unfold binary_round_aux in H.
    assert (Hshift : fexp prec emax (Zdigits2 (Z.pos (shl q (prec - d))) + (d - prec)) - (d - prec) = 0).
    { cbn [Zdigits2]. rewrite digits_shl by (unfold prec; lia). fold d.
      unfold fexp, emin, prec, emax. lia. }
    unfold shr_fexp in H |- *. rewrite Hshift in H |- *.
    cbn [shr shr_record_of_loc shr_m loc_of_shr_record round_nearest_even] in H |- *.
    rewrite Hshift in H.
    cbn [shr shr_record_of_loc shr_m] in H.
    apply H.
    + rewrite digits_shl by (unfold prec; lia). fold d. unfold prec. lia.
    + unfold prec. lia.
  - (* fewer than 53 bits: shift left *)
    assert (Ej : Pos.iter xO (shl q j) n = shl q (prec - d)).
    { change (Pos.iter xO (shl q j) n) with (shl (shl q j) (Z.pos n)).
      rewrite shl_shl by lia. f_equal. unfold prec. lia. }
    rewrite Ej.
    replace (d - 53) with (d - prec) by (unfold prec; lia).
    apply round_aux_canonical.
    + rewrite digits_shl by (unfold prec; lia). fold d. unfold prec. lia.
    + unfold prec. lia.
Qed.


Lemma of_Z_pos (q : positive) : Z.pos q < 2 ^ 53 -> of_Z (Z.pos q) = whole false q.
Proof.
  intros H. unfold of_Z. cbn [binary_normalize].
  apply (binary_round_whole false q 0); [lia|apply digits_bound, H].
Qed.

Lemma of_Z_neg (q : positive) : Z.pos q < 2 ^ 53 -> of_Z (Z.neg q) = whole true q.
Proof.
  intros H. unfold of_Z. cbn [binary_normalize].
  apply (binary_round_whole true q 0); [lia|apply digits_bound, H].
Qed.

Lemma fst_shl_align (m : positive) (e ez : Z) :
  ez <= e -> fst (shl_align m e ez) = shl m (e - ez).
Proof.
  intros H. unfold shl_align, shl.
  destruct (ez - e) as [|n|n] eqn:E1; destruct (e - ez) as [|k|k] eqn:E2;
    try lia; cbn [fst]; try reflexivity.
  f_equal. lia.
Qed.

(** The two mantissas of a sum or difference of whole numbers, brought to
    the smaller exponent. *)
Lemma aligned (p1 p2 : positive) :
  let d1 := Z.pos (digits2_pos p1) in
  let d2 := Z.pos (digits2_pos p2) in
  let ez := Z.min (d1 - prec) (d2 - prec) in
  d1 <= 53 -> d2 <= 53 ->
  0 <= - ez /\
  fst (shl_align (shl p1 (prec - d1)) (d1 - prec) ez) = shl p1 (- ez) /\
  fst (shl_align (shl p2 (prec - d2)) (d2 - prec) ez) = shl p2 (- ez).
Proof.
  intros d1 d2 ez H1 H2. unfold prec in *.
  assert (0 <= - ez) by (unfold ez; lia).
  split; [assumption|].
  split; rewrite fst_shl_align by (unfold ez; lia);
    rewrite shl_shl by (unfold ez; lia); f_equal; lia.
Qed.

Lemma add_whole_pos (p1 p2 : positive) :
  Z.pos (p1 + p2) < 2 ^ 53 ->
  add (whole false p1) (whole false p2) = whole false (p1 + p2).
Proof.
  intros H.
  assert (H1 : Z.pos (digits2_pos p1) <= 53) by (apply digits_bound; lia).
  assert (H2 : Z.pos (digits2_pos p2) <= 53) by (apply digits_bound; lia).
  destruct (aligned p1 p2 H1 H2) as (Hez & E1 & E2).
  unfold add, whole, SFadd. cbv zeta. rewrite E1, E2.
  set (ez := Z.min _ _) in *.
  cbn [cond_Zopp]. rewrite <- Pos2Z.inj_add. cbn [binary_normalize].
  replace (shl p1 (- ez) + shl p2 (- ez))%positive with (shl (p1 + p2) (- ez)).
  - rewrite <- (Z.opp_involutive ez) at 2.
    apply binary_round_whole; [exact Hez|apply digits_bound, H].
  - apply Pos2Z.inj. rewrite Pos2Z.inj_add, !shl_Z by exact Hez. lia.
Qed.

Lemma sub_whole_pos (p1 p2 : positive) :
  Z.pos p1 < 2 ^ 53 -> Z.pos p2 < 2 ^ 53 ->
  sub (whole false p1) (whole false p2) = of_Z (Z.pos p1 - Z.pos p2).
Proof.
  intros Hb1 Hb2.
  assert (H1 : Z.pos (digits2_pos p1) <= 53) by (apply digits_bound; lia).
  assert (H2 : Z.pos (digits2_pos p2) <= 53) by (apply digits_bound; lia).
  destruct (aligned p1 p2 H1 H2) as (Hez & E1 & E2).
  unfold sub, whole, SFsub. cbv zeta. rewrite E1, E2.
  set (ez := Z.min _ _) in *.
  cbn [cond_Zopp].
  assert (Ediff : Z.pos (shl p1 (- ez)) - Z.pos (shl p2 (- ez)) =
                  (Z.pos p1 - Z.pos p2) * 2 ^ (- ez))
    by (rewrite !shl_Z by exact Hez; lia).
  assert (Hpow : 0 < 2 ^ (- ez)) by (apply Z.pow_pos_nonneg; lia).
  destruct (Z.pos p1 - Z.pos p2) as [|q|q] eqn:Eq.
  - rewrite Ediff. reflexivity.
  - assert (Es : Z.pos (shl p1 (- ez)) - Z.pos (shl p2 (- ez)) = Z.pos (shl q (- ez)))
      by (rewrite Ediff, shl_Z by exact Hez; reflexivity).
    rewrite Es. cbn [binary_normalize].
    rewrite of_Z_pos by lia.
    rewrite <- (Z.opp_involutive ez) at 2.
    apply binary_round_whole; [exact Hez|apply digits_bound; lia].
  - assert (Es : Z.pos (shl p1 (- ez)) - Z.pos (shl p2 (- ez)) = Z.neg (shl q (- ez))).
    { rewrite Ediff.
      change (Z.neg (shl q (- ez))) with (- Z.pos (shl q (- ez))).
      rewrite shl_Z by exact Hez.
      change (Z.neg q) with (- Z.pos q). lia. }
    rewrite Es. cbn [binary_normalize].
    rewrite of_Z_neg by lia.
    rewrite <- (Z.opp_involutive ez) at 2.
    apply binary_round_whole; [exact Hez|apply digits_bound; lia].
Qed.

(** On whole numbers below 2^53 the sum, the difference and the larger of
    the difference and zero are computed without rounding. *)
Lemma add_whole (a b : Z) :
  0 <= a -> 0 <= b -> a + b < 2 ^ 53 -> add (of_Z a) (of_Z b) = of_Z (a + b).
Proof.
  intros Ha Hb H.
  destruct a as [|p1|p1]; [|destruct b as [|p2|p2]|]; try lia.
  - destruct b as [|p2|p2]; try lia; [reflexivity|].
    rewrite Z.add_0_l, of_Z_pos by lia. reflexivity.
  - rewrite Z.add_0_r, of_Z_pos by lia. reflexivity.
  - rewrite <- Pos2Z.inj_add in H |- *.
    rewrite !of_Z_pos by lia. apply add_whole_pos, H.
Qed.

Lemma sub_whole (a b : Z) :
  0 <= a < 2 ^ 53 -> 0 <= b < 2 ^ 53 -> sub (of_Z a) (of_Z b) = of_Z (a - b).
Proof.
  intros Ha Hb.
  destruct a as [|p1|p1]; [|destruct b as [|p2|p2]|]; try lia.
  - destruct b as [|p2|p2]; try lia; [reflexivity|].
    rewrite Z.sub_0_l. cbn [Z.opp]. rewrite of_Z_pos, of_Z_neg by lia. reflexivity.
  - rewrite Z.sub_0_r, of_Z_pos by lia. reflexivity.
  - rewrite (of_Z_pos p1), (of_Z_pos p2) by lia. apply sub_whole_pos; lia.
Qed.

Lemma max_zero_whole (n : Z) :
  - 2 ^ 53 < n < 2 ^ 53 -> max zero (of_Z n) = of_Z (Z.max 0 n).
Proof.
  intros H. destruct n as [|q|q].
  - reflexivity.
  - rewrite Z.max_r by lia. rewrite of_Z_pos by lia. reflexivity.
  - rewrite Z.max_l by lia. rewrite of_Z_neg by lia. reflexivity.
Qed.

(** Rounding a whole number given with at least 53 bits. *)
Lemma round_aux_whole (s : bool) (q : positive) (j : Z) :
  0 <= j -> Z.pos (digits2_pos q) <= 53 -> 53 <= Z.pos (digits2_pos q) + j ->
  binary_round_aux prec emax s (Z.pos (shl q j)) (- j) loc_Exact = whole s q.
Proof.
  intros Hj Hd Hlong.
  rewrite <- (binary_round_whole s q j Hj Hd).
  unfold binary_round.
  rewrite digits_shl by exact Hj.
  replace (Z.pos (digits2_pos q) + j + - j) with (Z.pos (digits2_pos q)) by lia.
  rewrite fexp_normal by lia.
  unfold shl_align.
  destruct (Z.pos (digits2_pos q) - 53 - - j) as [|n|n] eqn:En; try reflexivity.
  lia.
Qed.

Lemma div_whole_pos (k b : positive) :
  Z.pos (k * b) < 2 ^ 53 ->
  div (whole false (k * b)) (whole false b) = whole false k.
Proof.
  intros H.
  assert (Hk : Z.pos k < 2 ^ 53) by (rewrite Pos2Z.inj_mul in H; nia).
  assert (Hb : Z.pos b < 2 ^ 53) by (rewrite Pos2Z.inj_mul in H; nia).
  pose proof (digits_bound _ H) as Da.
  pose proof (digits_bound _ Hk) as Dk.
  pose proof (digits_bound _ Hb) as Db.
  set (da := Z.pos (digits2_pos (k * b))) in *.
  set (dk := Z.pos (digits2_pos k)) in *.
  set (db := Z.pos (digits2_pos b)) in *.
  assert (Hda : 1 <= da) by (unfold da; lia).
  assert (Hdb : 1 <= db) by (unfold db; lia).
  (* the digits of the product are not more than those of the factors *)
  assert (Hsum : da <= dk + db).
  { unfold da, dk, db. rewrite !digits2_size.
    pose proof (Pos.size_gt k) as G1. pose proof (Pos.size_gt b) as G2.
    pose proof (Pos.size_le (k * b)) as L.
    apply Pos2Z.pos_lt_pos in G1, G2. apply Pos2Z.pos_le_pos in L.
    rewrite Pos2Z.inj_pow in G1, G2, L. rewrite (Pos2Z.inj_xO (k * b)), Pos2Z.inj_mul in L.
    destruct (Z_le_gt_dec (Z.pos (Pos.size (k * b)))
                (Z.pos (Pos.size k) + Z.pos (Pos.size b))) as [|Hgt]; [assumption|exfalso].
    assert (2 ^ (Z.pos (Pos.size k) + Z.pos (Pos.size b) + 1)
            <= 2 ^ Z.pos (Pos.size (k * b))) by (apply Z.pow_le_mono_r; lia).
    rewrite Z.pow_add_r, Z.pow_add_r in H0 by lia.
    change (2 ^ 1) with 2 in H0. nia. }
  unfold div, whole, SFdiv. fold da db.
  unfold SFdiv_core_binary. cbn [Zdigits2].
  rewrite !digits_shl by (unfold prec; lia). fold da db.
  replace (da + (prec - da) + (da - prec) - (db + (prec - db) + (db - prec)))
    with (da - db) by lia.
  rewrite fexp_normal by lia.
  replace (Z.min (da - db - 53) (da - prec - (db - prec))) with (da - db - 53)
    by (unfold prec; lia).
  replace (da - prec - (db - prec) - (da - db - 53)) with 53 by (unfold prec; lia).
  rewrite Z.shiftl_mul_pow2 by lia.
  set (J := 53 + db - da).
  assert (HJ : 0 <= J) by (unfold J; lia).
  assert (Eq : Z.pos (shl (k * b) (prec - da)) * 2 ^ 53 =
               Z.pos (shl k J) * Z.pos (shl b (prec - db)) + 0).
  { rewrite !shl_Z by (unfold prec; lia). rewrite Pos2Z.inj_mul.
    unfold J, prec.
    assert (Hpow : 2 ^ (53 - da) * 2 ^ 53 = 2 ^ (53 + db - da) * 2 ^ (53 - db))
      by (rewrite <- !Z.pow_add_r by lia; f_equal; lia).
    rewrite Z.add_0_r, <- Z.mul_assoc, Hpow. ring. }
  assert (Hdiv : Z.div_eucl (Z.pos (shl (k * b) (prec - da)) * 2 ^ 53)
                   (Z.pos (shl b (prec - db))) = (Z.pos (shl k J), 0)).
  { pose proof (Z_div_mod (Z.pos (shl (k * b) (prec - da)) * 2 ^ 53)
                  (Z.pos (shl b (prec - db))) ltac:(lia)) as Hdm.
    destruct (Z.div_eucl _ _) as [q r]. destruct Hdm as [Hq Hr].
    rewrite Eq in Hq.
    assert (q = Z.pos (shl k J)) by nia.
    assert (r = 0) by nia. congruence. }
  rewrite Hdiv.
  replace (new_location (Z.pos (shl b (prec - db))) 0) with loc_Exact
    by (unfold new_location, new_location_even, new_location_odd;
        destruct (Z.even _); reflexivity).
  cbn [xorb].
  replace (da - db - 53) with (- J) by (unfold J; lia).
  apply round_aux_whole; [exact HJ|exact Dk|].
  fold dk. unfold J. lia.
Qed.

(** A quotient of whole numbers that is whole is computed without
    rounding. *)
Lemma div_whole (k b : Z) :
  0 <= k -> 0 < b < 2 ^ 53 -> k * b < 2 ^ 53 ->
  div (of_Z (k * b)) (of_Z b) = of_Z k.
Proof.
  intros Hk [Hb Hb'] H.
  destruct b as [|b|b]; try lia.
  destruct k as [|k|k]; try lia.
  - cbn [Z.mul]. rewrite of_Z_pos by lia. reflexivity.
  - change (Z.pos k * Z.pos b) with (Z.pos (k * b)) in H |- *.
    pose proof (Pos2Z.inj_mul k b) as Em.
    assert (Bk : Z.pos k < 2 ^ 53) by nia.
    assert (Bb : Z.pos b < 2 ^ 53) by nia.
    rewrite (of_Z_pos (k * b)), (of_Z_pos b), (of_Z_pos k) by assumption.
    apply div_whole_pos, H.
Qed.

End DoubleWhole.

(** ** The countdown in binary64 *)

Section Countdown64.

Import Fs64.



Lemma seconds64_report_effect (now : Z) (st : state) :
  seconds (report_effect now st) = seconds st.
Proof.
  unfold report_effect. destruct (running st); [reflexivity|].
  destruct (sessionStartTimeRef st) as [start|]; [|reflexivity].
  destruct (Js.truthy (Some start)); [|reflexivity].
  destruct (Fs.sessionMinutes (now - start) >? 0); reflexivity.
Qed.

Lemma seconds64_tick_effect (st : state) : seconds (tick_effect st) = seconds st.
Proof. unfold tick_effect. destruct (running st); reflexivity. Qed.

(** Rendering never changes the number on display. *)
Lemma seconds64_render (now : Z) (fresh : bool) (prev st : state) :
  seconds (render now fresh prev st) = seconds st.
Proof.
  unfold render.
  repeat match goal with
         | |- context [if ?b then _ else _] => destruct b
         end;
    repeat (rewrite ?seconds64_tick_effect, ?seconds64_report_effect;
            cbn [seconds setRunning]);
    reflexivity.
Qed.

(** A render after a handler that left [running] alone and the seconds
    at a value that is not zero: no effect runs. *)
Lemma render_seconds_only (now : Z) (prev st : state) :
  running prev = running st -> Double.eqb (seconds st) Double.zero = false ->
  render now false prev st = st.
Proof.
  intros Hr Hv. unfold render. cbv zeta.
  rewrite Hr, Bool.eqb_reflx. cbn [negb orb].
  rewrite Hv. now rewrite andb_false_r.
Qed.

(** The stop the effect on [[seconds]] causes. *)
Lemma after_stop64 (now : Z) (st : state) :
  let st' := tick_effect (report_effect now (setRunning false st)) in
  seconds st' = seconds st /\ running st' = false /\ interval st' = false /\
  lastTickRef st' = None /\ open st' = open st.
Proof.
  unfold report_effect, tick_effect; cbn.
  destruct (sessionStartTimeRef st) as [start|]; cbn; [|tauto].
  destruct (negb (start =? 0)); cbn; [|tauto].
  destruct (Fs.sessionMinutes (now - start) >? 0); cbn; tauto.
Qed.

(** Neither press of the start/pause button touches the seconds. *)
Lemma toggle64_keeps_seconds (now : Z) (st : state) :
  seconds (toggle now st) = seconds st.
Proof. unfold toggle. now rewrite seconds64_render. Qed.

(** While the countdown is paused no interval exists: a tick is nothing. *)
Lemma tick64_while_paused (now : Z) (st : state) :
  interval st = false -> tick now st = st.
Proof. intros H. unfold tick. now rewrite H. Qed.












End Countdown64.

Section Countdown64Whole.

Import Fs64.

Lemma whole_is_positive (n : Z) :
  0 < n < 2 ^ 53 ->
  Double.leb (Double.of_Z n) Double.zero = false /\
  Double.eqb (Double.of_Z n) Double.zero = false /\
  Double.same (Double.of_Z n) Double.zero = false.
Proof.
  intros H. destruct n as [|q|q]; try lia.
  rewrite of_Z_pos by lia. repeat split.
Qed.

Lemma whole_not_positive (n : Z) :
  - 2 ^ 53 < n <= 0 -> Double.leb (Double.of_Z n) Double.zero = true.
Proof.
  intros H. destruct n as [|q|q]; try lia.
  - reflexivity.
  - rewrite of_Z_neg by lia. reflexivity.
Qed.

(** A lag of [k] whole seconds is the double of [k]. *)
Lemma delta_whole (now last k : Z) :
  0 <= k -> now - last = k * 1000 -> k * 1000 < 2 ^ 53 ->
  delta now last = Double.of_Z k.
Proof.
  intros Hk E Hb. unfold delta. rewrite E. apply div_whole; lia.
Qed.

(** The updater on whole seconds. *)
Lemma countdown_whole (n k : Z) :
  0 <= n < 2 ^ 53 -> 0 <= k < 2 ^ 53 ->
  countdown (Double.of_Z n) (Double.of_Z k) = Double.of_Z (Z.max 0 (n - k)).
Proof.
  intros Hn Hk. unfold countdown. cbv zeta. rewrite sub_whole by lia.
  destruct (Z_le_gt_dec (n - k) 0) as [Hle|Hgt].
  - rewrite whole_not_positive by lia. now rewrite Z.max_l by lia.
  - destruct (whole_is_positive (n - k) ltac:(lia)) as [-> _].
    now rewrite Z.max_r by lia.
Qed.









End Countdown64Whole.




Section Adjust64.

Import Fs64.

Lemma plus64_seconds (now : Z) (st : state) :
  seconds (plus now st) = Double.add (seconds st) (Double.of_Z 60).
Proof. unfold plus. now rewrite seconds64_render. Qed.

Lemma minus64_seconds (now : Z) (st : state) :
  seconds (minus now st) =
    Double.max Double.zero (Double.sub (seconds st) (Double.of_Z 60)).
Proof. unfold minus. now rewrite seconds64_render. Qed.

(** An adjustment to a value that is not zero changes the seconds and
    nothing else. *)
Lemma plus64_shape (now : Z) (st : state) :
  Double.eqb (Double.add (seconds st) (Double.of_Z 60)) Double.zero = false ->
  plus now st = setSeconds (Double.add (seconds st) (Double.of_Z 60)) st.
Proof. intros H. apply render_seconds_only; [reflexivity|exact H]. Qed.

Lemma minus64_shape (now : Z) (st : state) :
  Double.eqb (Double.max Double.zero (Double.sub (seconds st) (Double.of_Z 60)))
    Double.zero = false ->
  minus now st =
    setSeconds (Double.max Double.zero (Double.sub (seconds st) (Double.of_Z 60))) st.
Proof. intros H. apply render_seconds_only; [reflexivity|exact H]. Qed.

(** A tick of a running countdown that counts: the seconds are what the
    updater makes of them with the time since the last tick. *)
Lemma tick64_seconds (t last : Z) (st : state) :
  interval st = true -> lastTickRef st = Some last ->
  Double.leb (delta t last) Double.zero = false ->
  seconds (tick t st) = countdown (seconds st) (delta t last).
Proof.
  intros Hi Hl Hd. unfold tick. rewrite Hi, Hl, Hd.
  now rewrite seconds64_render.
Qed.

Lemma interval64_after_adjust (now : Z) (v : Double.double) (st : state) :
  interval st = false ->
  interval (render now false st (setSeconds v st)) = false.
Proof.
  intros Hi. unfold render. cbv zeta.
  change (running (setSeconds v st)) with (running st).
  rewrite Bool.eqb_reflx. cbn [negb orb].
  match goal with
  | |- context [if ?c then _ else _] => destruct c
  end.
  - apply (after_stop64 now (setSeconds v st)).
  - exact Hi.
Qed.

(** A whole number of seconds is not zero after the plus button, and not
    zero after the minus button when it was above 60. *)
Lemma whole_not_zero (n : Z) :
  0 < n < 2 ^ 53 -> Double.eqb (Double.of_Z n) Double.zero = false.
Proof.
  intros H. destruct n as [|q|q]; try lia.
  rewrite of_Z_pos by lia. reflexivity.
Qed.

End Adjust64.

(** C9: the plus button sets the seconds to [s + 60] and the minus button
    to [Math.max(0, s - 60)], whether the countdown runs or not, and as long
    as the result is not zero neither changes anything else: the time of the
    last tick and the start of the session stay, so the next counting tick
    of a running countdown takes the time since the last tick off the
    adjusted value, and a countdown that is not running keeps the adjusted
    value.  The sum and the difference are those of the doubles; on a whole
    number of seconds below 2^53 they are exact: 60 more, or 60 less and not
    below zero. *)
Theorem adjust_moves_the_countdown_by_a_minute
    (st : Fs64.state) (now t last n : Z) :
  let up := Double.add (Fs64.seconds st) (Double.of_Z 60) in
  let down := Double.max Double.zero (Double.sub (Fs64.seconds st) (Double.of_Z 60)) in
  Fs64.seconds (Fs64.plus now st) = up /\
  Fs64.seconds (Fs64.minus now st) = down /\
  (Double.eqb up Double.zero = false ->
   Fs64.plus now st = Fs64.setSeconds up st /\
   (Fs64.interval st = true -> Fs64.lastTickRef st = Some last ->
    Double.leb (Fs64.delta t last) Double.zero = false ->
    Fs64.seconds (Fs64.tick t (Fs64.plus now st)) =
      Fs64.countdown up (Fs64.delta t last))) /\
  (Double.eqb down Double.zero = false ->
   Fs64.minus now st = Fs64.setSeconds down st /\
   (Fs64.interval st = true -> Fs64.lastTickRef st = Some last ->
    Double.leb (Fs64.delta t last) Double.zero = false ->
    Fs64.seconds (Fs64.tick t (Fs64.minus now st)) =
      Fs64.countdown down (Fs64.delta t last))) /\
  (Fs64.interval st = false ->
   Fs64.tick t (Fs64.plus now st) = Fs64.plus now st /\
   Fs64.tick t (Fs64.minus now st) = Fs64.minus now st) /\
  (0 <= n -> n + 60 < 2 ^ 53 -> Fs64.seconds st = Double.of_Z n ->
   up = Double.of_Z (n + 60) /\ down = Double.of_Z (Z.max 0 (n - 60)) /\
   Double.eqb up Double.zero = false /\
   (60 < n -> Double.eqb down Double.zero = false) /\
   (Fs64.interval st = true -> Fs64.lastTickRef st = Some last ->
    0 <= last < t -> t < 2 ^ 53 -> (t - last) mod 1000 = 0 ->
    Fs64.seconds (Fs64.tick t (Fs64.plus now st)) =
      Double.of_Z (Z.max 0 (n + 60 - (t - last) / 1000)) /\
    (60 < n ->
     Fs64.seconds (Fs64.tick t (Fs64.minus now st)) =
       Double.of_Z (Z.max 0 (n - 60 - (t - last) / 1000))))).
Proof.
  intros up down.
  split; [apply plus64_seconds|].
  split; [apply minus64_seconds|].
  split; [|split; [|split]].
  - intros Hup. split; [apply plus64_shape, Hup|].
    intros Hi Hl Hd. rewrite plus64_shape by exact Hup.
    rewrite (tick64_seconds t last) by assumption. reflexivity.
  - intros Hdown. split; [apply minus64_shape, Hdown|].
    intros Hi Hl Hd. rewrite minus64_shape by exact Hdown.
    rewrite (tick64_seconds t last) by assumption. reflexivity.
  - intros Hi. split; apply tick64_while_paused;
      apply interval64_after_adjust, Hi.
  - intros Hn Hb Hs. unfold up, down. rewrite Hs.
    rewrite add_whole by lia.
    rewrite sub_whole by lia.
    rewrite max_zero_whole by lia.
    split; [reflexivity|]. split; [reflexivity|].
    split; [apply whole_not_zero; lia|].
    split; [intros Hbig; apply whole_not_zero; lia|].
    intros Hi Hl Hlt Ht Hm.
    set (k := (t - last) / 1000).
    assert (Ek : t - last = k * 1000).
    { unfold k. pose proof (Z.div_mod (t - last) 1000 ltac:(lia)). lia. }
    assert (Hk : 1 <= k) by lia.
    assert (Ed : Fs64.delta t last = Double.of_Z k) by (apply delta_whole; lia).
    assert (Hd : Double.leb (Fs64.delta t last) Double.zero = false)
      by (rewrite Ed; apply whole_is_positive; lia).
    assert (Eup : Double.add (Fs64.seconds st) (Double.of_Z 60) = Double.of_Z (n + 60))
      by (rewrite Hs; apply add_whole; lia).
    assert (Edown : 60 < n ->
                    Double.max Double.zero (Double.sub (Fs64.seconds st) (Double.of_Z 60))
                    = Double.of_Z (n - 60)).
    { intros Hbig. rewrite Hs, sub_whole, max_zero_whole by lia.
      now rewrite Z.max_r by lia. }
    split.
    + rewrite plus64_shape by (rewrite Eup; apply whole_not_zero; lia).
      rewrite (tick64_seconds t last) by assumption.
      change (Fs64.seconds (Fs64.setSeconds ?v st)) with v.
      rewrite Eup, Ed. apply countdown_whole; lia.
    + intros Hbig.
      rewrite minus64_shape by (rewrite (Edown Hbig); apply whole_not_zero; lia).
      rewrite (tick64_seconds t last) by assumption.
      change (Fs64.seconds (Fs64.setSeconds ?v st)) with v.
      rewrite (Edown Hbig), Ed. apply countdown_whole; lia.
Qed.

(** The countdown of the card: 600 s, started at 1 s, ticked 10 s later
    (590 s left), plus pressed (650 s), ticked again after 100 ms: the double
    that 649.9 stands for.  After a tick at 599.9 s the card holds a little
    more than 0.1 s, and the plus button makes of it the double next to
    60.1 above it. *)
Lemma adjust_moves_the_countdown_by_a_minute_witness :
  Fs64.seconds (Fs64.run [Fs64.Toggle 1000; Fs64.Tick 11000] Fs64.card) =
    Double.of_Z 590 /\
  Fs64.seconds
    (Fs64.plus 11050 (Fs64.run [Fs64.Toggle 1000; Fs64.Tick 11000] Fs64.card)) =
    Double.of_Z 650 /\
  Fs64.seconds
    (Fs64.tick 11100
       (Fs64.plus 11050 (Fs64.run [Fs64.Toggle 1000; Fs64.Tick 11000] Fs64.card))) =
    Double.decimal 6499 10 /\
  Double.same
    (Fs64.seconds
       (Fs64.plus 600950 (Fs64.run [Fs64.Toggle 1000; Fs64.Tick 600900] Fs64.card)))
    (Double.decimal 601 10) = false.
Proof.
  assert (E : Fs64.seconds (Fs64.run [Fs64.Toggle 1000; Fs64.Tick 11000] Fs64.card) =
              Double.of_Z 590) by (vm_compute; reflexivity).
  pose proof (adjust_moves_the_countdown_by_a_minute
                (Fs64.run [Fs64.Toggle 1000; Fs64.Tick 11000] Fs64.card)
                11050 11100 11000 590) as H.
  cbv zeta in H. destruct H as (Hup & _ & Hplus & _ & _ & Hwhole).
  destruct (Hwhole ltac:(lia) ltac:(lia) E) as (Hup' & _ & Hnz & _).
  destruct (Hplus Hnz) as [_ Htick].
  split; [exact E|].
  split; [rewrite Hup; exact Hup'|].
  split.
  - rewrite (Htick eq_refl eq_refl ltac:(vm_compute; reflexivity)).
    rewrite Hup'. vm_compute. reflexivity.
  - vm_compute. reflexivity.
Defined.

(** ** Reports to the statistics *)

Section Reports.

Import Fs.

Lemma sessionMinutes_zero (d : Z) : sessionMinutes d <= 0 <-> d < 30000.
Proof.
  unfold sessionMinutes, Js.round_div.
  change (2 * (1000 * 60)) with 120000. change (1000 * 60) with 60000.
  split; intros H.
  - destruct (Z_lt_le_dec d 30000) as [|Hge]; [assumption|].
    assert (1 <= (2 * d + 60000) / 120000)
      by (apply Z.div_le_lower_bound; lia).
    lia.
  - assert ((2 * d + 60000) / 120000 < 1)
      by (apply Z.div_lt_upper_bound; lia).
    lia.
Qed.

Lemma sessionMinutes_round (d : Z) :
  60000 * sessionMinutes d - 30000 <= d < 60000 * sessionMinutes d + 30000.
Proof.
  unfold sessionMinutes, Js.round_div.
  change (2 * (1000 * 60)) with 120000. change (1000 * 60) with 60000.
  pose proof (Z.div_mod (2 * d + 60000) 120000 ltac:(lia)).
  pose proof (Z.mod_pos_bound (2 * d + 60000) 120000 ltac:(lia)).
  lia.
Qed.

(** The stop of a session that ran for [now - start]: the rounded minutes
    are reported when they are positive, and the session is closed. *)
Lemma stop_reports_rounded_minutes (now start : Z) (st : state) :
  running st = true -> sessionStartTimeRef st = Some start -> start <> 0 ->
  reports (toggle now st) =
    (if sessionMinutes (now - start) >? 0
     then reports st ++ [sessionMinutes (now - start)]
     else reports st) /\
  running (toggle now st) = false /\
  sessionStartTimeRef (toggle now st) = None.
Proof.
  destruct st as [s r o lt st0 itv reps]. cbn. intros -> -> Hne.
  unfold toggle, render, report_effect, tick_effect; cbn.
  apply Z.eqb_neq in Hne. rewrite Hne; cbn. rewrite Z.eqb_refl; cbn.
  destruct (sessionMinutes (now - start) >? 0); cbn; repeat split.
Qed.

Lemma report_effect_quiet (from till now : Z) (st : state) :
  till - from < 30000 -> from <= now <= till -> started_since from st ->
  reports (report_effect now st) = reports st /\
  started_since from (report_effect now st).
Proof.
  intros Hw Hn. unfold started_since, report_effect.
  destruct (running st); cbn; [intros _; split; [reflexivity|lia]|].
  destruct (sessionStartTimeRef st) as [start|] eqn:E; cbn.
  - intros Hs. destruct (negb (start =? 0)); cbn.
    + assert (Hz : sessionMinutes (now - start) <= 0)
        by (apply sessionMinutes_zero; lia).
      destruct (sessionMinutes (now - start) >? 0) eqn:E2;
        [apply Z.gtb_lt in E2; lia|].
      cbn. tauto.
    + rewrite E. tauto.
  - rewrite E. tauto.
Qed.

Lemma tick_effect_quiet (from : Z) (st : state) :
  started_since from st ->
  reports (tick_effect st) = reports st /\ started_since from (tick_effect st).
Proof.
  unfold started_since, tick_effect. destruct (running st); cbn; tauto.
Qed.

Lemma render_quiet (from till now : Z) (fresh : bool) (prev st : state) :
  till - from < 30000 -> from <= now <= till -> started_since from st ->
  reports (render now fresh prev st) = reports st /\
  started_since from (render now fresh prev st).
Proof.
  intros Hw Hn Hs.
  pose (Q := fun s : state => reports s = reports st /\ started_since from s).
  assert (HQ : Q st) by (split; [reflexivity|exact Hs]).
  assert (HE : forall s, Q s -> Q (report_effect now s)).
  { intros s [Hr Hss].
    destruct (report_effect_quiet from till now s Hw Hn Hss) as [Hr' Hs'].
    split; [congruence|exact Hs']. }
  assert (HT : forall s, Q s -> Q (tick_effect s)).
  { intros s [Hr Hss].
    destruct (tick_effect_quiet from s Hss) as [Hr' Hs'].
    split; [congruence|exact Hs']. }
  assert (HR : forall s, Q s -> Q (setRunning false s)).
  { intros s [Hr Hss]. split; assumption. }
  change (Q (render now fresh prev st)). unfold render.
  repeat match goal with
         | |- context [if ?c then _ else _] => destruct c
         end; auto 10.
Qed.

Lemma step_quiet (from till : Z) (e : event) (st : state) :
  till - from < 30000 -> within from till [e] -> started_since from st ->
  reports (step st e) = reports st /\ started_since from (step st e).
Proof.
  intros Hw He Hs. inversion He as [|? ? Ht _]; subst.
  assert (HR : forall now fresh prev s,
             from <= now <= till ->
             reports s = reports st -> started_since from s ->
             reports (render now fresh prev s) = reports st /\
             started_since from (render now fresh prev s)).
  { intros now fresh prev s Hn Hr Hss.
    destruct (render_quiet from till now fresh prev s Hw Hn Hss) as [Hr' Hs'].
    split; [congruence|exact Hs']. }
  destruct e as [now|now|now|now|now| |]; cbn in Ht |- *;
    try (apply HR; [exact Ht|reflexivity|exact Hs]);
    try (split; [reflexivity|exact Hs]).
  unfold tick. destruct (interval st); [|split; [reflexivity|exact Hs]].
  destruct (_ <=? 0); [split; [reflexivity|exact Hs]|].
  apply HR; [exact Ht|reflexivity|exact Hs].
Qed.

(** Nothing is reported inside a window shorter than 30 s on which no
    session was open at the start. *)
Lemma run_quiet (from till : Z) (es : list event) (st : state) :
  till - from < 30000 -> within from till es -> started_since from st ->
  reports (run es st) = reports st.
Proof.
  intros Hw Hes. revert st. induction Hes as [|e es He _ IH]; intros st Hs.
  - reflexivity.
  - destruct (step_quiet from till e st Hw) as [Hr Hs'];
      [constructor; [exact He|constructor] | exact Hs |].
    change (run (e :: es) st) with (run es (step st e)).
    rewrite IH by assumption. exact Hr.
Qed.

End Reports.

Section Statistics.

Import Stats.

Lemma addFocusTime_ignored (ok : bool) (m : Z) (st : state) :
  m <= 0 -> addFocusTime ok m st = st.
Proof.
  intros H. unfold addFocusTime.
  destruct (m <=? 0) eqn:E; [reflexivity|]. apply Z.leb_gt in E. lia.
Qed.

Lemma addFocusTime_adds (ok : bool) (m : Z) (st : state) :
  0 < m ->
  focusTime (addFocusTime ok m st) = focusTime st + m /\
  user (addFocusTime ok m st) = user st /\
  persisted (addFocusTime ok m st) =
    (if ok then Some (focusTime st + m) else persisted st).
Proof.
  intros H. unfold addFocusTime, persisted, doc_focusTime.
  destruct (m <=? 0) eqn:E; [apply Z.leb_le in E; lia|].
  destruct ok, (user st) eqn:U; cbn; rewrite ?U; repeat split.
Qed.

Lemma addFocusTime_grows (ok : bool) (m : Z) (st : state) :
  focusTime st <= focusTime (addFocusTime ok m st).
Proof.
  destruct (Z_le_gt_dec m 0) as [H|H].
  - rewrite addFocusTime_ignored by assumption. lia.
  - destruct (addFocusTime_adds ok m st ltac:(lia)) as [-> _]. lia.
Qed.

Lemma addAll_grows (ok : bool) (ms : list Z) (st : state) :
  focusTime st <= focusTime (addAll ok ms st).
Proof.
  revert st. induction ms as [|m ms IH]; intros st.
  - cbn. lia.
  - change (addAll ok (m :: ms) st) with (addAll ok ms (addFocusTime ok m st)).
    pose proof (addFocusTime_grows ok m st). specialize (IH (addFocusTime ok m st)).
    lia.
Qed.

End Statistics.

(** C10 at the failing input.  A signed-in user whose document holds 400
    minutes; [getDoc] of [loadStatistics] fails when [Home] mounts, so the
    state stays at the 0 of [useState]; the Pomodoro then completes a focus
    interval and reports 25.  [addFocusTime] writes the state plus 25: the
    400 minutes of the store become 25.  With the load answered the same
    report stores 425. *)
Theorem stored_focus_time_goes_down :
  let lagging := Stats.mount false true (Some (Some 400)) None in
  let loaded := Stats.mount true true (Some (Some 400)) None in
  let reports := Pomo.reports (Pomo.run [Pomo.Toggle 1000; Pomo.Tick 1501000] Pomo.init) in
  reports = [25] /\
  Stats.focusTime lagging = 0 /\
  Stats.persisted lagging = Some 400 /\
  Stats.focusTime (Stats.addAll true reports lagging) = 25 /\
  Stats.persisted (Stats.addAll true reports lagging) = Some 25 /\
  Stats.persisted (Stats.addAll true reports loaded) = Some 425.
Proof. repeat split. Qed.

(** The focus time on display never goes down.  [addFocusTime m] with
    m <= 0 changes nothing, neither the state nor what is stored; with m > 0
    the new [focusTime] state is the old one plus m; so no sequence of
    reports lowers the state (the stored value is another matter, see
    [stored_focus_time_goes_down]).  A full-screen run whose rounded minutes
    are 0, that is one shorter than 30 s, reports nothing when it stops, and
    no events at all inside a window shorter than 30 s make the countdown
    report. *)
Theorem focus_time_never_decreases
    (write_ok : bool) (m : Z) (stats : Stats.state) (ms : list Z)
    (fullscreen : Fs.state) (es : list Fs.event) (from till now start : Z) :
  (m <= 0 -> Stats.addFocusTime write_ok m stats = stats) /\
  (0 < m ->
   Stats.focusTime (Stats.addFocusTime write_ok m stats) = Stats.focusTime stats + m) /\
  Stats.focusTime stats <= Stats.focusTime (Stats.addFocusTime write_ok m stats) /\
  Stats.focusTime stats <= Stats.focusTime (Stats.addAll write_ok ms stats) /\
  (Fs.sessionMinutes (now - start) <= 0 <-> now - start < 30000) /\
  (Fs.running fullscreen = true -> Fs.sessionStartTimeRef fullscreen = Some start ->
   Fs.sessionMinutes (now - start) <= 0 ->
   Fs.reports (Fs.toggle now fullscreen) = Fs.reports fullscreen) /\
  (Fs.sessionStartTimeRef fullscreen = None -> Fs.within from till es ->
   till - from < 30000 ->
   Fs.reports (Fs.run es fullscreen) = Fs.reports fullscreen).
Proof.
  split; [|split; [|split; [|split; [|split; [|split]]]]].
  - apply addFocusTime_ignored.
  - intros H. apply addFocusTime_adds, H.
  - apply addFocusTime_grows.
  - apply addAll_grows.
  - apply sessionMinutes_zero.
  - intros Hr Hs Hz.
    destruct (Z.eq_dec start 0) as [->|Hne].
    + destruct fullscreen as [s r o lt st0 itv reps]. cbn in *. subst.
      unfold Fs.toggle, Fs.render, Fs.report_effect, Fs.tick_effect; cbn.
      rewrite Z.eqb_refl. reflexivity.
    + destruct (stop_reports_rounded_minutes now start fullscreen Hr Hs Hne) as [-> _].
      destruct (Fs.sessionMinutes (now - start) >? 0) eqn:E; [|reflexivity].
      apply Z.gtb_lt in E. lia.
  - intros Hs Hes Hw. apply (run_quiet from till); try assumption.
    unfold Fs.started_since. now rewrite Hs.
Qed.

(** A guest with 40 minutes gets 25 more; a countdown started at 1 s and
    paused at 30.9 s reports nothing. *)
Lemma focus_time_never_decreases_witness :
  Stats.focusTime
    (Stats.addFocusTime true 25 (Stats.mkState 40 false None (Some 40))) = 65 /\
  Stats.addFocusTime true 0 (Stats.mkState 40 false None (Some 40)) =
    Stats.mkState 40 false None (Some 40) /\
  Fs.reports (Fs.run [Fs.Toggle 1000; Fs.Tick 1100; Fs.Toggle 30900] Fs.card) = [].
Proof.
  pose proof (focus_time_never_decreases true 25
                (Stats.mkState 40 false None (Some 40)) []
                Fs.card [Fs.Toggle 1000; Fs.Tick 1100; Fs.Toggle 30900]
                1000 30900 0 0) as (_ & H1 & _ & _ & _ & _ & H2).
  pose proof (focus_time_never_decreases true 0
                (Stats.mkState 40 false None (Some 40)) []
                Fs.card [] 0 0 0 0) as (H0 & _).
  split; [|split].
  - exact (H1 eq_refl).
  - apply H0. discriminate.
  - apply H2.
    + reflexivity.
    + repeat constructor; cbn; lia.
    + reflexivity.
Defined.

Section FullscreenStop.

Import Fs.

(** A render of [Home] while the countdown runs starts the measured
    session over and moves the time of the last tick. *)
Lemma rerender_restarts_session (now : Z) (st : state) :
  running st = true ->
  sessionStartTimeRef (rerender now st) = Some now /\
  lastTickRef (rerender now st) = Some now /\
  seconds (rerender now st) = seconds st /\
  reports (rerender now st) = reports st.
Proof.
  intros Hr. unfold rerender, render, report_effect.
  rewrite Bool.eqb_reflx, Z.eqb_refl, Hr. cbn. repeat split.
Qed.

End FullscreenStop.

Section Stop64.

Import Fs64.

(** The updater hands back 0 exactly when the difference is not above
    zero. *)
Lemma countdown_zero (prev d : Double.double) :
  Double.leb (Double.sub prev d) Double.zero = true ->
  countdown prev d = Double.zero.
Proof. intros H. unfold countdown. cbv zeta. now rewrite H. Qed.

Lemma max_zero_of_nonpositive (x : Double.double) :
  Double.leb x Double.zero = true -> Double.max Double.zero x = Double.zero.
Proof.
  destruct x as [s|s| |s m e]; cbn.
  - destruct s; reflexivity.
  - destruct s; [reflexivity|discriminate].
  - discriminate.
  - destruct s; [reflexivity|discriminate].
Qed.

(** A handler of a running countdown that sets the seconds from a value
    that is not 0 to 0: the effect on [[seconds]] stops the countdown. *)
Lemma render_at_zero (now : Z) (prev st : state) :
  running prev = true -> running st = true ->
  Double.same (seconds prev) Double.zero = false ->
  seconds st = Double.zero ->
  let st' := render now false prev st in
  seconds st' = Double.zero /\ running st' = false /\ interval st' = false /\
  lastTickRef st' = None.
Proof.
  intros Hp Hr Hs Hz. unfold render. cbv zeta.
  rewrite Hp, Hr. cbn [Bool.eqb negb orb].
  rewrite Hz, Hs, Hr.
  change (Double.eqb Double.zero Double.zero) with true. cbn [negb andb].
  destruct (after_stop64 now st) as (H1 & H2 & H3 & H4 & _).
  rewrite H1, Hz. repeat split; assumption.
Qed.

(** A tick that uses up what is left stops the countdown. *)
Lemma tick64_reaching_zero (t last : Z) (st : state) :
  interval st = true -> running st = true -> lastTickRef st = Some last ->
  Double.same (seconds st) Double.zero = false ->
  Double.leb (delta t last) Double.zero = false ->
  Double.leb (Double.sub (seconds st) (delta t last)) Double.zero = true ->
  seconds (tick t st) = Double.zero /\ running (tick t st) = false /\
  interval (tick t st) = false /\ lastTickRef (tick t st) = None.
Proof.
  intros Hi Hr Hl Hs Hd Hz. unfold tick. rewrite Hi, Hl, Hd.
  rewrite countdown_zero by exact Hz.
  apply render_at_zero; [exact Hr|exact Hr|exact Hs|reflexivity].
Qed.

(** The minus button that empties a running countdown stops it too. *)
Lemma minus64_reaching_zero (now : Z) (st : state) :
  running st = true -> Double.same (seconds st) Double.zero = false ->
  Double.leb (Double.sub (seconds st) (Double.of_Z 60)) Double.zero = true ->
  seconds (minus now st) = Double.zero /\ running (minus now st) = false /\
  interval (minus now st) = false /\ lastTickRef (minus now st) = None.
Proof.
  intros Hr Hs Hz. unfold minus.
  rewrite max_zero_of_nonpositive by exact Hz.
  apply render_at_zero; [exact Hr|exact Hr|exact Hs|reflexivity].
Qed.

End Stop64.

(** The first half of C8: a running full-screen countdown whose seconds
    reach zero stops; there is no mode to flip.  The seconds reach zero when
    the difference the source computes, [prev - delta] at a counting tick or
    [s - 60] at the minus button, is not above zero: the seconds are then
    set to 0 and the effect on [[seconds]] stops the countdown, clears the
    interval and the time of the last tick.  (A difference that is above
    zero by a rounding error only does not stop it; the next tick does.) *)
Theorem fullscreen_countdown_stops_at_zero (st : Fs64.state) (t last now n : Z) :
  Fs64.running st = true -> Fs64.interval st = true ->
  (Double.same (Fs64.seconds st) Double.zero = false ->
   Fs64.lastTickRef st = Some last ->
   Double.leb (Fs64.delta t last) Double.zero = false ->
   Double.leb (Double.sub (Fs64.seconds st) (Fs64.delta t last)) Double.zero = true ->
   Fs64.seconds (Fs64.tick t st) = Double.zero /\
   Fs64.running (Fs64.tick t st) = false /\
   Fs64.interval (Fs64.tick t st) = false /\
   Fs64.lastTickRef (Fs64.tick t st) = None) /\
  (Double.same (Fs64.seconds st) Double.zero = false ->
   Double.leb (Double.sub (Fs64.seconds st) (Double.of_Z 60)) Double.zero = true ->
   Fs64.seconds (Fs64.minus now st) = Double.zero /\
   Fs64.running (Fs64.minus now st) = false /\
   Fs64.interval (Fs64.minus now st) = false /\
   Fs64.lastTickRef (Fs64.minus now st) = None) /\
  (Fs64.seconds st = Double.of_Z n -> 0 < n < 2 ^ 53 ->
   (Fs64.lastTickRef st = Some last -> 0 <= last < t -> t < 2 ^ 53 ->
    (t - last) mod 1000 = 0 -> n <= (t - last) / 1000 ->
    Fs64.seconds (Fs64.tick t st) = Double.zero /\
    Fs64.running (Fs64.tick t st) = false /\
    Fs64.interval (Fs64.tick t st) = false) /\
   (n <= 60 ->
    Fs64.seconds (Fs64.minus now st) = Double.zero /\
    Fs64.running (Fs64.minus now st) = false /\
    Fs64.interval (Fs64.minus now st) = false)).
Proof.
  intros Hr Hi. split; [|split].
  - intros Hs Hl Hd Hz. apply (tick64_reaching_zero t last); assumption.
  - intros Hs Hz. apply minus64_reaching_zero; assumption.
  - intros En Hn.
    assert (Hs : Double.same (Fs64.seconds st) Double.zero = false)
      by (rewrite En; apply whole_is_positive, Hn).
    split.
    + intros Hl Hlt Ht Hm Hle.
      set (k := (t - last) / 1000) in *.
      assert (Ek : t - last = k * 1000).
      { unfold k. pose proof (Z.div_mod (t - last) 1000 ltac:(lia)). lia. }
      assert (Ed : Fs64.delta t last = Double.of_Z k) by (apply delta_whole; lia).
      destruct (tick64_reaching_zero t last st Hi Hr Hl Hs) as (H1 & H2 & H3 & _).
      * rewrite Ed. apply whole_is_positive. lia.
      * rewrite En, Ed, sub_whole by lia. apply whole_not_positive. lia.
      * repeat split; assumption.
    + intros Hle.
      destruct (minus64_reaching_zero now st Hr Hs) as (H1 & H2 & H3 & _).
      * rewrite En, sub_whole by lia. apply whole_not_positive. lia.
      * repeat split; assumption.
Qed.

(** The card started at 1 s.  A tick 600 s later stops it, and so does a
    minus press at 50 s left.  Ticked at 599.9 s and at 600 s it is left
    with a rounding error of some 2e-14 s and still runs; the tick after
    that stops it. *)
Lemma fullscreen_countdown_stops_at_zero_witness :
  Fs64.running (Fs64.tick 601000 (Fs64.run [Fs64.Toggle 1000] Fs64.card)) = false /\
  Fs64.running
    (Fs64.minus 551500 (Fs64.run [Fs64.Toggle 1000; Fs64.Tick 551000] Fs64.card))
    = false /\
  Fs64.running
    (Fs64.run [Fs64.Toggle 1000; Fs64.Tick 600900; Fs64.Tick 601000] Fs64.card)
    = true /\
  Double.ltb Double.zero
    (Fs64.seconds
       (Fs64.run [Fs64.Toggle 1000; Fs64.Tick 600900; Fs64.Tick 601000] Fs64.card))
    = true /\
  Fs64.running
    (Fs64.tick 601100
       (Fs64.run [Fs64.Toggle 1000; Fs64.Tick 600900; Fs64.Tick 601000] Fs64.card))
    = false.
Proof.
  split; [|split; [|split; [|split]]].
  - destruct (fullscreen_countdown_stops_at_zero
                (Fs64.run [Fs64.Toggle 1000] Fs64.card) 601000 1000 0 600
                eq_refl eq_refl) as (_ & _ & H).
    destruct (H eq_refl ltac:(lia)) as [Ht _].
    apply (Ht eq_refl); try lia; reflexivity.
  - destruct (fullscreen_countdown_stops_at_zero
                (Fs64.run [Fs64.Toggle 1000; Fs64.Tick 551000] Fs64.card)
                0 0 551500 50 eq_refl eq_refl) as (_ & _ & H).
    assert (E : Fs64.seconds (Fs64.run [Fs64.Toggle 1000; Fs64.Tick 551000] Fs64.card)
                = Double.of_Z 50) by (vm_compute; reflexivity).
    destruct (H E ltac:(lia)) as [_ Hm].
    apply Hm. lia.
  - vm_compute. reflexivity.
  - vm_compute. reflexivity.
  - destruct (fullscreen_countdown_stops_at_zero
                (Fs64.run [Fs64.Toggle 1000; Fs64.Tick 600900; Fs64.Tick 601000]
                   Fs64.card) 601100 601000 0 0
                ltac:(vm_compute; reflexivity) ltac:(vm_compute; reflexivity))
      as (H & _).
    apply H; vm_compute; reflexivity.
Defined.

(** The hook on its own, between two renders of [Home]: a stop reports the
    rounded minutes since the session start when they are positive. *)
Theorem fullscreen_stop_reports_rounded_minutes (st : Fs.state) (now start : Z) :
  Fs.running st = true -> Fs.sessionStartTimeRef st = Some start -> start <> 0 ->
  Fs.reports (Fs.toggle now st) =
    (if Fs.sessionMinutes (now - start) >? 0
     then Fs.reports st ++ [Fs.sessionMinutes (now - start)]
     else Fs.reports st) /\
  60000 * Fs.sessionMinutes (now - start) - 30000 <= now - start
    < 60000 * Fs.sessionMinutes (now - start) + 30000.
Proof.
  intros Hr Hs Hne. split.
  - apply stop_reports_rounded_minutes; assumption.
  - apply sessionMinutes_round.
Qed.

Lemma fullscreen_stop_reports_rounded_minutes_witness :
  Fs.reports (Fs.toggle 130000 (Fs.run [Fs.Toggle 1000; Fs.Tick 1100] Fs.card)) = [2].
Proof.
  destruct (fullscreen_stop_reports_rounded_minutes
              (Fs.run [Fs.Toggle 1000; Fs.Tick 1100] Fs.card) 130000 1000
              eq_refl eq_refl ltac:(discriminate)) as [H _].
  exact H.
Defined.

(** The second half of C8 fails on the code.  The effect that measures the
    session depends on [onFocusTime], and [Home] hands down a new function at
    each of its renders, which its clock causes every second: while the
    countdown runs each render writes the current time into
    [sessionStartTimeRef].  A run from 1 s to 130.5 s, 129.5 s long, reports
    2 minutes without such renders and nothing with them: the measured time
    is the one since the last render. *)
Theorem fullscreen_report_measures_from_the_last_render :
  Fs.sessionMinutes (130500 - 1000) = 2 /\
  Fs.reports (Fs.run [Fs.Toggle 1000; Fs.Toggle 130500] Fs.card) = [2] /\
  Fs.reports
    (Fs.run [Fs.Toggle 1000; Fs.Rerender 120000; Fs.Toggle 130500] Fs.card) = [] /\
  Fs.reports
    (Fs.run (Fs.Toggle 1000 :: Fs.clock_renders 1000 129 ++ [Fs.Toggle 130500])
       Fs.card) = [] /\
  Fs.sessionStartTimeRef
    (Fs.run (Fs.Toggle 1000 :: Fs.clock_renders 1000 129) Fs.card) = Some 130000.
Proof. vm_compute. repeat split. Qed.

Section PomodoroWaiting.

Import Pomo.

Lemma tick_completes_waiting (now : Z) (st : state) :
  coherent st -> completes_at now st -> waiting (tick now st).
Proof.
  destruct st as [m r v start d itv [cr cv cm] reps].
  unfold coherent, completes_at, waiting, tick; cbn.
  intros (Hr & Hm & Hi & Hs & Hv & Hc) (Hrun & s & Hstart & Hs0 & Hz).
  subst cr cm r start itv; cbn.
  unfold calculatePomoRemaining; cbn.
  apply Z.eqb_neq in Hs0. rewrite Hs0; cbn.
  rewrite Hz; cbn.
  destruct m; cbn; repeat split.
Qed.

Lemma tick_waiting (t : Z) (st : state) :
  coherent st -> waiting st -> tick t st = st.
Proof.
  destruct st as [m r v start d itv [cr cv cm] reps].
  unfold coherent, waiting, tick; cbn.
  intros (Hr & Hm & Hi & _) (Hrun & Hs & Hv & Hc).
  subst cr cm r start itv v cv; cbn.
  unfold render; cbn. rewrite mode_eqb_refl. reflexivity.
Qed.

Lemma ticks_waiting (ts : list Z) (st : state) :
  coherent st -> waiting st -> run (map Tick ts) st = st.
Proof.
  intros Hc Hw. induction ts as [|t ts IH].
  - reflexivity.
  - change (run (map Tick (t :: ts)) st) with (run (map Tick ts) (tick t st)).
    now rewrite tick_waiting.
Qed.

End PomodoroWaiting.

(** After a completed interval the session has no start: the effect on the
    mode clears the start that the interval effect had just set.  It is
    still running and shows the full length of the next interval, and the
    ticks that follow change nothing, until the session is paused and
    resumed. *)
Theorem completed_interval_waits_for_a_resume
    (es : list Pomo.event) (now : Z) (later : list Z) :
  Pomo.completes_at now (Pomo.run es Pomo.init) ->
  Pomo.waiting (Pomo.tick now (Pomo.run es Pomo.init)) /\
  Pomo.run (map Pomo.Tick later) (Pomo.tick now (Pomo.run es Pomo.init)) =
    Pomo.tick now (Pomo.run es Pomo.init).
Proof.
  intros Hdone.
  assert (Hc : Pomo.coherent (Pomo.run es Pomo.init))
    by apply coherent_run, coherent_init.
  pose proof (tick_completes_waiting now _ Hc Hdone) as Hw.
  split; [exact Hw|].
  apply ticks_waiting; [apply coherent_tick, Hc | exact Hw].
Qed.

(** A focus interval started at 1 s and completed 1500 s later: ten more
    minutes of ticks leave the break at its five minutes. *)
Lemma completed_interval_waits_for_a_resume_witness :
  Pomo.pomoRemaining
    (Pomo.run (map Pomo.Tick [1501100; 1801000; 2101000])
       (Pomo.tick 1501000 (Pomo.run [Pomo.Toggle 1000] Pomo.init))) = 5 * 60.
Proof.
  assert (H : Pomo.completes_at 1501000 (Pomo.run [Pomo.Toggle 1000] Pomo.init)).
  { split; [reflexivity|]. exists 1000. repeat split. discriminate. }
  destruct (completed_interval_waits_for_a_resume
              [Pomo.Toggle 1000] 1501000 [1501100; 1801000; 2101000] H) as [_ ->].
  reflexivity.
Defined.

(** ** The clock display *)

Section ClockDisplay.

Import Format.

Lemma fill_length (c : ascii) (cur : string) (k : nat) :
  String.length (fill (String c EmptyString) cur k) = k.
Proof.
  revert cur. induction k as [|k IH]; intros cur.
  - reflexivity.
  - cbn [fill]. destruct cur as [|c' rest]; cbn [String.length]; now rewrite IH.
Qed.

Lemma append_length (a b : string) :
  String.length (a ++ b) = (String.length a + String.length b)%nat.
Proof.
  induction a as [|c a IH]; cbn.
  - reflexivity.
  - now rewrite IH.
Qed.

Lemma padStart_length (n : nat) (c : ascii) (s : string) :
  String.length (padStart n (String c EmptyString) s) = Nat.max n (String.length s).
Proof. unfold padStart. rewrite append_length, fill_length. lia. Qed.

(** Zeros in front of an unsigned number do not change what it reads as. *)
Lemma read_zeros (k : nat) (s : string) (u : Decimal.uint) :
  NilEmpty.uint_of_string s = Some u ->
  exists u', NilEmpty.uint_of_string (fill "0" "0" k ++ s) = Some u' /\
             Z.of_uint u' = Z.of_uint u.
Proof.
  intros Hs.
  assert (G : forall cur,
             (cur = EmptyString \/ cur = "0"%string) ->
             exists u', NilEmpty.uint_of_string (fill "0" cur k ++ s) = Some u' /\
                        Z.of_uint u' = Z.of_uint u).
  { induction k as [|k IH]; intros cur Hcur.
    - exists u. split; [exact Hs|reflexivity].
    - destruct Hcur as [-> | ->]; cbn [fill append].
      + destruct (IH EmptyString (or_introl eq_refl)) as (u' & E & V).
        exists (Decimal.D0 u'). cbn [NilEmpty.uint_of_string]. rewrite E.
        split; [reflexivity|exact V].
      + destruct (IH EmptyString (or_introl eq_refl)) as (u' & E & V).
        exists (Decimal.D0 u'). cbn [NilEmpty.uint_of_string]. rewrite E.
        split; [reflexivity|exact V]. }
  apply G. now right.
Qed.

Lemma String_of_nonneg (n : Z) :
  0 <= n ->
  exists u, String_of n = NilZero.string_of_uint u /\
            NilEmpty.uint_of_string (String_of n) = Some u /\
            Z.of_uint u = n /\ u <> Decimal.Nil.
Proof.
  intros Hn. unfold String_of.
  pose proof (DecimalZ.of_to n) as Hof.
  destruct (Z.to_int n) as [u|u] eqn:E.
  - exists u. cbn [NilZero.string_of_int].
    assert (Hu : u <> Decimal.Nil).
    { intros ->. destruct n; cbn in E; discriminate. }
    repeat split; try assumption.
    unfold NilZero.string_of_uint. destruct u; try congruence; apply NilEmpty.usu.
  - destruct n; cbn in E; try discriminate. lia.
Qed.

Lemma int_of_digits (s : string) (u : Decimal.uint) :
  NilEmpty.uint_of_string s = Some u -> s <> EmptyString ->
  NilZero.int_of_string s = Some (Decimal.Pos u).
Proof.
  intros Hs Hne. destruct s as [|a s']; [congruence|].
  unfold NilZero.int_of_string, NilZero.uint_of_string.
  destruct (Ascii.eqb a "-") eqn:E.
  - apply Ascii.eqb_eq in E. subst a. cbn in Hs.
    destruct (NilEmpty.uint_of_string s'); discriminate.
  - now rewrite Hs.
Qed.

Lemma String_of_nonempty (n : Z) : 0 <= n -> String_of n <> EmptyString.
Proof.
  intros Hn. destruct (String_of_nonneg n Hn) as (u & E & _ & _ & Hu).
  rewrite E. unfold NilZero.string_of_uint.
  destruct u; try discriminate; cbn; discriminate.
Qed.

(** [pad2] has at least two characters and reads back as the number it was
    given. *)
Lemma pad2_reads_back (n : Z) :
  0 <= n ->
  read_decimal (pad2 n) = Some n /\ (2 <= String.length (pad2 n))%nat.
Proof.
  intros Hn. split.
  - destruct (String_of_nonneg n Hn) as (u & _ & Hu & Hv & _).
    unfold pad2, padStart.
    destruct (read_zeros (2 - String.length (String_of n)) _ _ Hu) as (u' & E & V).
    unfold read_decimal. rewrite (int_of_digits _ _ E).
    + cbn. f_equal. change (Z.of_uint u' = n). congruence.
    + pose proof (String_of_nonempty n Hn) as Hne.
      destruct (fill "0" "0" (2 - String.length (String_of n))); cbn; [exact Hne|discriminate].
  - unfold pad2. rewrite padStart_length. lia.
Qed.

Lemma display_ok_below_an_hour :
  forallb (fun k => display_ok (Z.of_nat k)) (seq 0 3600) = true.
Proof. vm_compute. reflexivity. Qed.

Lemma formatHMS_negative (s : Z) : s <= 0 -> formatHMS s = "00:00"%string.
Proof.
  intros H. unfold formatHMS, Js.max. rewrite Z.max_l by lia. reflexivity.
Qed.

End ClockDisplay.

(** [formatHMS] below an hour: the display has the five characters [MM:SS],
    with the colon in the middle, and reads back as the seconds it was given,
    so that different seconds never look the same; anything below zero is
    shown as [00:00]. *)
Theorem formatHMS_shows_minutes_and_seconds (a b : Z) :
  0 <= a < 3600 -> 0 <= b < 3600 ->
  String.length (Format.formatHMS a) = 5%nat /\
  substring 2 1 (Format.formatHMS a) = ":"%string /\
  Format.read_MMSS (Format.formatHMS a) = Some a /\
  (Format.formatHMS a = Format.formatHMS b -> a = b) /\
  (forall s, s <= 0 -> Format.formatHMS s = "00:00"%string).
Proof.
  assert (H : forall s, 0 <= s < 3600 -> Format.display_ok s = true).
  { intros s Hs.
    pose proof display_ok_below_an_hour as Hall.
    rewrite forallb_forall in Hall.
    specialize (Hall (Z.to_nat s)).
    rewrite Z2Nat.id in Hall by lia. apply Hall.
    apply in_seq. lia. }
  assert (R : forall s, 0 <= s < 3600 ->
              Format.read_MMSS (Format.formatHMS s) = Some s).
  { intros s Hs. specialize (H s Hs). unfold Format.display_ok in H.
    apply andb_prop in H. destruct H as [H _].
    apply andb_prop in H. destruct H as [_ H].
    destruct (Format.read_MMSS (Format.formatHMS s)) as [v|]; [|discriminate].
    apply Z.eqb_eq in H. now subst. }
  intros Ha Hb. specialize (H a Ha). unfold Format.display_ok in H.
  apply andb_prop in H. destruct H as [H Hcolon].
  apply andb_prop in H. destruct H as [Hlen _].
  split; [|split; [|split; [|split]]].
  - now apply Nat.eqb_eq.
  - now apply String.eqb_eq.
  - apply R, Ha.
  - intros E. pose proof (R a Ha) as Ra. pose proof (R b Hb) as Rb.
    rewrite E in Ra. congruence.
  - apply formatHMS_negative.
Qed.

(** 1500 s and 1499 s. *)
Lemma formatHMS_shows_minutes_and_seconds_witness :
  Format.formatHMS 1500 = "25:00"%string /\
  Format.read_MMSS (Format.formatHMS 1499) = Some 1499.
Proof.
  destruct (formatHMS_shows_minutes_and_seconds 1499 1500 ltac:(lia) ltac:(lia))
    as (_ & _ & R & _ & _).
  split; [reflexivity | exact R].
Defined.

(** [pad2] of a whole number from 0 to 2^53, where [String] writes all the
    digits, has at least two characters, exactly two below 100, and reads
    back as that number. *)
Theorem pad2_keeps_the_number (n : Z) :
  0 <= n <= 2 ^ 53 ->
  Format.read_decimal (Format.pad2 n) = Some n /\
  (2 <= String.length (Format.pad2 n))%nat /\
  (n < 100 -> String.length (Format.pad2 n) = 2%nat) /\
  (String.length (Format.pad2 n) =
     Nat.max 2 (String.length (Format.String_of n))).
Proof.
  intros [Hn _]. destruct (pad2_reads_back n Hn) as [Hr Hl].
  split; [exact Hr|split; [exact Hl|split]].
  - intros Hlt.
    assert (Hall : forallb (fun k => (String.length (Format.pad2 (Z.of_nat k)) =? 2)%nat)
                     (seq 0 100) = true) by (vm_compute; reflexivity).
    rewrite forallb_forall in Hall. specialize (Hall (Z.to_nat n)).
    rewrite Z2Nat.id in Hall by lia. apply Nat.eqb_eq, Hall, in_seq. lia.
  - unfold Format.pad2. apply padStart_length.
Qed.

Lemma pad2_keeps_the_number_witness :
  Format.read_decimal (Format.pad2 7) = Some 7 /\ Format.pad2 7 = "07"%string /\
  Format.read_decimal (Format.pad2 123) = Some 123.
Proof.
  destruct (pad2_keeps_the_number 7 ltac:(lia)) as (H7 & _).
  destruct (pad2_keeps_the_number 123 ltac:(lia)) as (H123 & _).
  split; [exact H7 | split; [reflexivity | exact H123]].
Defined.

(** ** The login streak *)

Section LoginStreak.

Import Streak.

Lemma same_date_refl (d : string) : same_date (Some d) d = true.
Proof. cbn. apply String.eqb_refl. Qed.

Lemma same_date_other (d d' : string) : d <> d' -> same_date (Some d) d' = false.
Proof. intros H. cbn. now apply String.eqb_neq. Qed.

(** A visit by a signed-in user, with the store reachable, on a day that is
    not the stored one. *)
Lemma update_on_a_new_day (today yesterdayStr : string) (st : state) :
  user st = true -> same_date (stored_date st) today = false ->
  updateLoginStreak true true today yesterdayStr st =
    let s := if same_date (stored_date st) yesterdayStr
             then streak_or_0 (stored_streak st) + 1 else 1 in
    mkState true (Some (mkDoc (Some s) (Some today))) s.
Proof.
  intros Hu Hd. unfold updateLoginStreak, stored_date, stored_streak in *.
  rewrite Hu. cbn [negb].
  destruct (doc st) as [data|]; cbn in *.
  - rewrite Hd. cbn. destruct (same_date (doc_lastLoginDate data) yesterdayStr); reflexivity.
  - reflexivity.
Qed.

Lemma update_on_the_same_day (read_ok write_ok : bool) (today yesterdayStr : string)
    (st : state) :
  same_date (stored_date st) today = true ->
  updateLoginStreak read_ok write_ok today yesterdayStr st = st.
Proof.
  intros Hd. unfold updateLoginStreak, stored_date in *.
  destruct (user st); cbn; [|reflexivity].
  destruct read_ok; cbn; [|reflexivity].
  destruct (doc st) as [data|]; cbn in *; [|discriminate].
  now rewrite Hd.
Qed.

Lemma visits_count (days : list string) (prev : string) (st : state) (s : Z) :
  user st = true -> stored_date st = Some prev -> stored_streak st = Some s ->
  0 < s -> streak st = s -> distinct_days prev days ->
  let st' := visits prev days st in
  streak st' = s + Z.of_nat (List.length days) /\
  stored_streak st' = Some (s + Z.of_nat (List.length days)) /\
  stored_date st' = Some (last days prev).
Proof.
  revert prev st s. induction days as [|today days IH];
    intros prev st s Hu Hd Hs Hpos Hst Hdistinct.
  - cbn. rewrite Z.add_0_r. tauto.
  - destruct Hdistinct as [Hne Hrest].
    cbn [visits]. rewrite last_cons.
    rewrite update_on_a_new_day;
      [|assumption|rewrite Hd; apply same_date_other; congruence].
    rewrite Hd, Hs, same_date_refl. cbn zeta.
    assert (E : streak_or_0 (Some s) = s).
    { cbn. destruct (s =? 0) eqn:E0; [apply Z.eqb_eq in E0; lia|reflexivity]. }
    rewrite E.
    specialize (IH today (mkState true (Some (mkDoc (Some (s + 1)) (Some today))) (s + 1))
                  (s + 1) eq_refl eq_refl eq_refl ltac:(lia) eq_refl Hrest).
    cbv zeta in IH. destruct IH as (H1 & H2 & H3).
    rewrite H1, H2, H3. cbn [List.length]. rewrite Nat2Z.inj_succ.
    split; [lia | split; [f_equal; lia | reflexivity]].
Qed.

End LoginStreak.

(** [updateLoginStreak]: once a visit has been written to the store, every
    further call on the same day changes nothing, neither the store nor the
    streak on display, whatever the clock gives as yesterday and whether the
    store can be reached or not. *)
Theorem login_streak_counts_a_day_once
    (read_ok write_ok : bool) (today yesterdayStr yesterdayStr' : string)
    (st : Streak.state) :
  Streak.updateLoginStreak read_ok write_ok today yesterdayStr'
    (Streak.updateLoginStreak true true today yesterdayStr st) =
  Streak.updateLoginStreak true true today yesterdayStr st.
Proof.
  destruct (Streak.user st) eqn:Hu.
  - destruct (Streak.same_date (Streak.stored_date st) today) eqn:Hd.
    + rewrite (update_on_the_same_day true true) by assumption.
      apply update_on_the_same_day, Hd.
    + rewrite update_on_a_new_day by assumption. cbv zeta.
      apply update_on_the_same_day. cbn. apply String.eqb_refl.
  - unfold Streak.updateLoginStreak at 2. rewrite Hu. cbn.
    unfold Streak.updateLoginStreak. rewrite Hu. reflexivity.
Qed.

(** A first visit sets the streak to 1, and visits on days that follow one
    another (at each visit the clock's yesterday is the day of the visit
    before) raise it by one each: after a first visit and [n] such visits the
    streak on display and in the store is [n + 1], and the stored date is the
    day of the last visit. *)
Theorem login_streak_counts_consecutive_days
    (first : string) (days : list string) (yesterdayStr : string) :
  Streak.distinct_days first days ->
  let st := Streak.visits first days
              (Streak.updateLoginStreak true true first yesterdayStr
                 (Streak.mkState true None 0)) in
  Streak.streak st = 1 + Z.of_nat (List.length days) /\
  Streak.stored_streak st = Some (1 + Z.of_nat (List.length days)) /\
  Streak.stored_date st = Some (last days first).
Proof.
  intros Hd. cbn [Streak.updateLoginStreak Streak.user Streak.doc negb Streak.same_date].
  apply visits_count; try reflexivity; assumption.
Qed.

Lemma login_streak_counts_consecutive_days_witness :
  Streak.streak
    (Streak.visits "Mon Jan 06 2025"%string
       ["Tue Jan 07 2025"%string; "Wed Jan 08 2025"%string]
       (Streak.updateLoginStreak true true
          "Mon Jan 06 2025"%string "Sun Jan 05 2025"%string
          (Streak.mkState true None 0))) = 3.
Proof.
  assert (H : Streak.distinct_days "Mon Jan 06 2025"%string
                ["Tue Jan 07 2025"%string; "Wed Jan 08 2025"%string]).
  { cbn. repeat split; discriminate. }
  destruct (login_streak_counts_consecutive_days
              "Mon Jan 06 2025"%string
              ["Tue Jan 07 2025"%string; "Wed Jan 08 2025"%string]
              "Sun Jan 05 2025"%string H) as [E _].
  exact E.
Defined.

(** A visit after a gap: when the store can be reached and the stored date
    is neither today nor what the clock gives as yesterday (or there is no
    stored date, or no document), the streak is set to 1 on display and in
    the store, whatever it was; when the stored date is yesterday the stored
    streak goes up by exactly one.  A visit that cannot read the store
    changes nothing, and one that cannot write leaves the store as it was. *)
Theorem login_streak_restarts_after_a_gap
    (today yesterdayStr : string) (st : Streak.state) :
  Streak.user st = true ->
  Streak.same_date (Streak.stored_date st) today = false ->
  (Streak.same_date (Streak.stored_date st) yesterdayStr = false ->
   Streak.streak (Streak.updateLoginStreak true true today yesterdayStr st) = 1 /\
   Streak.stored_streak (Streak.updateLoginStreak true true today yesterdayStr st)
     = Some 1) /\
  (Streak.same_date (Streak.stored_date st) yesterdayStr = true ->
   Streak.stored_streak (Streak.updateLoginStreak true true today yesterdayStr st)
     = Some (Streak.streak_or_0 (Streak.stored_streak st) + 1)) /\
  Streak.stored_date (Streak.updateLoginStreak true true today yesterdayStr st)
    = Some today /\
  (forall write_ok,
     Streak.updateLoginStreak false write_ok today yesterdayStr st = st) /\
  Streak.doc (Streak.updateLoginStreak true false today yesterdayStr st)
    = Streak.doc st.
Proof.
  intros Hu Hd. rewrite update_on_a_new_day by assumption. cbv zeta.
  split; [|split; [|split; [|split]]].
  - intros ->. split; reflexivity.
  - intros ->. reflexivity.
  - reflexivity.
  - intros w. unfold Streak.updateLoginStreak. rewrite Hu. reflexivity.
  - unfold Streak.updateLoginStreak, Streak.stored_date in *. rewrite Hu. cbn.
    destruct (Streak.doc st) as [data|]; cbn in *.
    + rewrite Hd. reflexivity.
    + reflexivity.
Qed.

(** A streak of 9 last written on Jan 03, a visit on Jan 07. *)
Lemma login_streak_restarts_after_a_gap_witness :
  Streak.streak
    (Streak.updateLoginStreak true true
       "Tue Jan 07 2025"%string "Mon Jan 06 2025"%string
       (Streak.mkState true
          (Some (Streak.mkDoc (Some 9) (Some "Fri Jan 03 2025"%string))) 9)) = 1.
Proof.
  destruct (login_streak_restarts_after_a_gap
              "Tue Jan 07 2025"%string "Mon Jan 06 2025"%string
              (Streak.mkState true
                 (Some (Streak.mkDoc (Some 9) (Some "Fri Jan 03 2025"%string))) 9)
              eq_refl eq_refl) as [H _].
  exact (proj1 (H eq_refl)).
Defined.

(** ** The task list *)

Section TaskList.

Import Tasks.

Lemma toggle_ids (i : string) (ts : list LocalTask) : ids (toggleTask i ts) = ids ts.
Proof.
  unfold ids, toggleTask. rewrite map_map. apply map_ext.
  intros t. destruct (String.eqb (id t) i); reflexivity.
Qed.

Lemma toggle_twice (i : string) (ts : list LocalTask) :
  toggleTask i (toggleTask i ts) = ts.
Proof.
  unfold toggleTask. rewrite map_map. rewrite <- (map_id ts) at 2.
  apply map_ext. intros [ti tt td tc]. cbn.
  destruct (String.eqb ti i) eqn:E; cbn; rewrite E; [|reflexivity].
  now rewrite negb_involutive.
Qed.

Lemma remove_absent (i : string) (ts : list LocalTask) :
  ~ In i (ids ts) -> removeTask i ts = ts.
Proof.
  unfold removeTask, ids. induction ts as [|t ts IH]; intros H; cbn.
  - reflexivity.
  - cbn in H. destruct (String.eqb (id t) i) eqn:E.
    + apply String.eqb_eq in E. tauto.
    + cbn. rewrite IH by tauto. reflexivity.
Qed.

Lemma remove_removes (i : string) (ts : list LocalTask) :
  ~ In i (ids (removeTask i ts)).
Proof.
  unfold ids, removeTask. intros H. apply in_map_iff in H.
  destruct H as (t & E & Hin). apply filter_In in Hin.
  destruct Hin as [_ Hne]. rewrite E, String.eqb_refl in Hne. discriminate.
Qed.

Lemma remove_keeps_others (i : string) (t : LocalTask) (ts : list LocalTask) :
  id t <> i -> (In t (removeTask i ts) <-> In t ts).
Proof.
  intros Hne. unfold removeTask. rewrite filter_In.
  apply String.eqb_neq in Hne. rewrite Hne. cbn. tauto.
Qed.

Lemma toggle_cons (i : string) (u : LocalTask) (us : list LocalTask) :
  toggleTask i (u :: us) =
    (if String.eqb (id u) i
     then mkTask (id u) (title u) (negb (done u)) (createdAt u) else u)
    :: toggleTask i us.
Proof. reflexivity. Qed.

Lemma toggle_absent (i : string) (ts : list LocalTask) :
  ~ In i (ids ts) -> toggleTask i ts = ts.
Proof.
  intros H. unfold toggleTask. rewrite <- (map_id ts) at 2. apply map_ext_in.
  intros a Ha. destruct (String.eqb (id a) i) eqn:E; [|reflexivity].
  apply String.eqb_eq in E. exfalso. apply H. rewrite <- E.
  unfold ids. now apply in_map.
Qed.

Lemma remaining_cons (u : LocalTask) (us : list LocalTask) :
  remaining (u :: us) = ((if done u then 0 else 1) + remaining us)%nat.
Proof. unfold remaining. cbn. destruct (done u); reflexivity. Qed.

Lemma remaining_toggle (i : string) (ts : list LocalTask) (t : LocalTask) :
  NoDup (ids ts) -> In t ts -> id t = i ->
  (remaining (toggleTask i ts) + (if done t then 0 else 1) =
   remaining ts + (if done t then 1 else 0))%nat.
Proof.
  induction ts as [|u us IH]; intros Hnd Hin Hid; [contradiction|].
  unfold ids in Hnd. cbn [map] in Hnd.
  inversion Hnd as [|? ? Hnotin Hnd']; subst.
  rewrite toggle_cons, !remaining_cons.
  destruct Hin as [->|Hin].
  - rewrite String.eqb_refl, toggle_absent by exact Hnotin.
    cbn [done]. destruct (done t); cbn [negb]; lia.
  - specialize (IH Hnd' Hin eq_refl).
    destruct (String.eqb (id u) (id t)) eqn:E.
    + apply String.eqb_eq in E. exfalso. apply Hnotin. rewrite E.
      now apply in_map.
    + lia.
Qed.

Lemma remove_app (i : string) (l1 l2 : list LocalTask) :
  removeTask i (l1 ++ l2) = removeTask i l1 ++ removeTask i l2.
Proof. unfold removeTask. apply filter_app. Qed.

Lemma remaining_remove_le (i : string) (ts : list LocalTask) :
  (remaining (removeTask i ts) <= remaining ts)%nat.
Proof.
  unfold remaining, removeTask.
  induction ts as [|u us IH]; cbn; [lia|].
  destruct (negb (String.eqb (id u) i)); cbn;
    destruct (negb (done u)); cbn; lia.
Qed.

Lemma remove_cons (i : string) (u : LocalTask) (us : list LocalTask) :
  removeTask i (u :: us) =
    if String.eqb (id u) i then removeTask i us else u :: removeTask i us.
Proof. unfold removeTask. cbn. destruct (String.eqb (id u) i); reflexivity. Qed.

Lemma remaining_remove (i : string) (ts : list LocalTask) (t : LocalTask) :
  NoDup (ids ts) -> In t ts -> id t = i ->
  (remaining (removeTask i ts) + (if done t then 0 else 1) = remaining ts)%nat.
Proof.
  induction ts as [|u us IH]; intros Hnd Hin Hid; [contradiction|].
  unfold ids in Hnd. cbn [map] in Hnd.
  inversion Hnd as [|? ? Hnotin Hnd']; subst.
  rewrite remove_cons, remaining_cons.
  destruct Hin as [->|Hin].
  - rewrite String.eqb_refl, remove_absent by exact Hnotin.
    destruct (done t); lia.
  - specialize (IH Hnd' Hin eq_refl).
    destruct (String.eqb (id u) (id t)) eqn:E.
    + apply String.eqb_eq in E. exfalso. apply Hnotin. rewrite E.
      now apply in_map.
    + rewrite remaining_cons. lia.
Qed.

End TaskList.

(** [toggleTask] is its own inverse: toggling the same task twice gives the
    list back, and a toggle changes neither the ids nor their order nor the
    number of tasks. *)
Theorem toggleTask_twice_is_nothing (i : string) (tasks : list Tasks.LocalTask) :
  Tasks.toggleTask i (Tasks.toggleTask i tasks) = tasks /\
  Tasks.ids (Tasks.toggleTask i tasks) = Tasks.ids tasks /\
  List.length (Tasks.toggleTask i tasks) = List.length tasks.
Proof.
  split; [apply toggle_twice|split; [apply toggle_ids|]].
  unfold Tasks.toggleTask. apply length_map.
Qed.

(** [removeTask] removes every task with the id and only those, and keeps
    the others in their order: around a task with another id the list is
    cleaned on both sides and the task stays between them, a task with the
    id disappears.  Removing twice is removing once.  A task that was just
    added under an id that is not in the list and is removed again leaves
    the list as it was, and removing an id that is not in the list changes
    nothing. *)
Theorem removeTask_undoes_addTask
    (uuid title : string) (now : Z) (i : string) (t : Tasks.LocalTask)
    (tasks before after : list Tasks.LocalTask) :
  (~ In uuid (Tasks.ids tasks) ->
   Tasks.removeTask uuid (Tasks.addTask uuid now title tasks) = tasks /\
   Tasks.removeTask uuid tasks = tasks) /\
  Tasks.removeTask i [] = [] /\
  (Tasks.id t <> i ->
   Tasks.removeTask i (before ++ t :: after) =
     Tasks.removeTask i before ++ t :: Tasks.removeTask i after) /\
  (Tasks.id t = i ->
   Tasks.removeTask i (before ++ t :: after) =
     Tasks.removeTask i before ++ Tasks.removeTask i after) /\
  ~ In i (Tasks.ids (Tasks.removeTask i tasks)) /\
  (Tasks.id t <> i -> (In t (Tasks.removeTask i tasks) <-> In t tasks)) /\
  Tasks.removeTask i (Tasks.removeTask i tasks) = Tasks.removeTask i tasks.
Proof.
  split; [|split; [|split; [|split; [|split; [|split]]]]].
  - intros Hfresh. split.
    + unfold Tasks.addTask, Tasks.removeTask. cbn. rewrite String.eqb_refl. cbn.
      apply remove_absent, Hfresh.
    + apply remove_absent, Hfresh.
  - reflexivity.
  - intros Hne. rewrite remove_app. cbn. apply String.eqb_neq in Hne.
    rewrite Hne. reflexivity.
  - intros He. rewrite remove_app. cbn. apply String.eqb_eq in He.
    rewrite He. reflexivity.
  - apply remove_removes.
  - apply remove_keeps_others.
  - apply remove_absent, remove_removes.
Qed.

Lemma removeTask_undoes_addTask_witness :
  Tasks.removeTask "b"%string (Tasks.addTask "b"%string 20 "water the plants"%string
                          [Tasks.mkTask "a"%string "read"%string false 10]) =
  [Tasks.mkTask "a"%string "read"%string false 10].
Proof.
  assert (H : ~ In "b"%string (Tasks.ids [Tasks.mkTask "a"%string "read"%string false 10])).
  { cbn. intros [H|[]]. discriminate. }
  exact (proj1 (proj1 (removeTask_undoes_addTask "b"%string "water the plants"%string 20
                         ""%string (Tasks.mkTask "a"%string "read"%string false 10)
                         [Tasks.mkTask "a"%string "read"%string false 10] [] []) H)).
Defined.

(** The count of open tasks the card shows.  A new task raises it by one,
    whatever the list; removing never raises it; removing or toggling an id
    that is not in the list leaves it.  In a list without repeated ids,
    toggling a task moves the count by exactly one, down when the task was
    open and up when it was done, and removing a task lowers it by one when
    the task was open and leaves it when the task was done. *)
Theorem remaining_follows_the_toggles
    (i : string) (t : Tasks.LocalTask) (tasks : list Tasks.LocalTask)
    (uuid title : string) (now : Z) :
  Tasks.remaining (Tasks.addTask uuid now title tasks) = S (Tasks.remaining tasks) /\
  Tasks.remaining (Tasks.addTask uuid now title []) = 1%nat /\
  (Tasks.remaining (Tasks.removeTask i tasks) <= Tasks.remaining tasks)%nat /\
  (~ In i (Tasks.ids tasks) ->
   Tasks.remaining (Tasks.removeTask i tasks) = Tasks.remaining tasks /\
   Tasks.remaining (Tasks.toggleTask i tasks) = Tasks.remaining tasks) /\
  (NoDup (Tasks.ids tasks) -> In t tasks -> Tasks.id t = i ->
   (Tasks.done t = false ->
    S (Tasks.remaining (Tasks.toggleTask i tasks)) = Tasks.remaining tasks /\
    S (Tasks.remaining (Tasks.removeTask i tasks)) = Tasks.remaining tasks) /\
   (Tasks.done t = true ->
    Tasks.remaining (Tasks.toggleTask i tasks) = S (Tasks.remaining tasks) /\
    Tasks.remaining (Tasks.removeTask i tasks) = Tasks.remaining tasks)).
Proof.
  split; [|split; [|split; [|split]]].
  - reflexivity.
  - reflexivity.
  - apply remaining_remove_le.
  - intros Habs. rewrite remove_absent, toggle_absent by exact Habs.
    split; reflexivity.
  - intros Hnd Hin Hid.
    pose proof (remaining_toggle i tasks t Hnd Hin Hid) as H.
    pose proof (remaining_remove i tasks t Hnd Hin Hid) as H'.
    split; intros E; rewrite E in H, H'; split; lia.
Qed.

Lemma remaining_follows_the_toggles_witness :
  S (Tasks.remaining
       (Tasks.toggleTask "a"%string
          [Tasks.mkTask "a"%string "read"%string false 10; Tasks.mkTask "b"%string "write"%string false 20])) =
  Tasks.remaining
    [Tasks.mkTask "a"%string "read"%string false 10; Tasks.mkTask "b"%string "write"%string false 20].
Proof.
  assert (Hnd : NoDup (Tasks.ids [Tasks.mkTask "a"%string "read"%string false 10;
                                  Tasks.mkTask "b"%string "write"%string false 20])).
  { cbn. repeat constructor; cbn; intuition discriminate. }
  destruct (remaining_follows_the_toggles "a"%string (Tasks.mkTask "a"%string "read"%string false 10)
              [Tasks.mkTask "a"%string "read"%string false 10;
               Tasks.mkTask "b"%string "write"%string false 20]
              ""%string ""%string 0) as (_ & _ & _ & _ & H).
  destruct (H Hnd (or_introl eq_refl) eq_refl) as [H0 _].
  exact (proj1 (H0 eq_refl)).
Defined.

(** ** The end-of-day message *)

Section EndOfDay.

Import Generator.

Lemma spec_message_possible (abs : Z) :
  nth_error Messages.possible (Z.to_nat (abs mod 5)) = Some (spec_message abs).
Proof.
  rewrite spec_message_mod.
  destruct (residue_cases abs) as [E|[E|[E|[E|E]]]]; rewrite E; reflexivity.
Qed.

Lemma possible_presentable :
  forallb Messages.presentable Messages.possible = true.
Proof. reflexivity. Qed.

Lemma generated_is_possible (s : dateString_t) :
  exists message,
    generateDailyMessage s = Some message /\
    nth_error Messages.possible (Z.to_nat (Js.abs (seed_of s) mod 5)) = Some message.
Proof.
  exists (spec_message (Js.abs (seed_of s))). split.
  - unfold generateDailyMessage. rewrite indices_of_seed_spec. apply fill_spec_message.
  - apply spec_message_possible.
Qed.

Lemma generated_presentable (s : dateString_t) (message : string) :
  generateDailyMessage s = Some message -> Messages.presentable message = true.
Proof.
  intros H. destruct (generated_is_possible s) as (m & E & Hn).
  assert (m = message) by congruence. subst m.
  pose proof possible_presentable as Hall. rewrite forallb_forall in Hall.
  apply Hall. eapply nth_error_In, Hn.
Qed.

End EndOfDay.

(** The generator has five things to say.  Whatever the date string, the
    message is the sentence of [Messages.possible] at position
    [abs mod 5]: the seven indices move together, so the other combinations
    of pool entries never occur.  None of the five is empty and none has a
    placeholder left in it. *)
Theorem generator_has_five_messages (s : Generator.dateString_t) :
  exists message,
    Generator.generateDailyMessage s = Some message /\
    nth_error Messages.possible
      (Z.to_nat (Js.abs (Generator.seed_of s) mod 5)) = Some message /\
    In message Messages.possible /\
    Messages.presentable message = true /\
    List.length Messages.possible = 5%nat.
Proof.
  destruct (generated_is_possible s) as (m & E & Hn).
  exists m. split; [exact E|split; [exact Hn|split; [|split]]].
  - eapply nth_error_In, Hn.
  - eapply generated_presentable, E.
  - reflexivity.
Qed.

(** The cache of the end-of-day message.  Once the answer to a request has
    been stored for a day, every run of the effect that evening (the hour is
    21 or later, the day is the same) shows the stored message and sends no
    request, provided the message is not empty; a message of the generator
    never is.  On another day the effect sends a request and leaves what is
    on display. *)
Theorem eod_message_is_fetched_once_a_day
    (date : Generator.dateString_t) (message todayKey otherDay : string)
    (hour : Z) (st : Eod.state) :
  Generator.generateDailyMessage date = Some message ->
  21 <= hour -> otherDay <> todayKey ->
  Eod.effect hour todayKey (Eod.on_response todayKey message st) =
    (Eod.on_response todayKey message st, false) /\
  Eod.eodMessage (Eod.on_response todayKey message st) = Some message /\
  Eod.effect hour otherDay (Eod.on_response todayKey message st) =
    (Eod.on_response todayKey message st, true).
Proof.
  intros Hgen Hhour Hother.
  pose proof (generated_presentable date message Hgen) as Hp.
  unfold Messages.presentable in Hp. apply andb_prop in Hp. destruct Hp as [Hne _].
  apply negb_true_iff in Hne.
  unfold Eod.effect, Eod.on_response. cbn.
  assert (Hh : (hour >=? 21) = true) by (apply Z.geb_le; lia).
  rewrite Hh, String.eqb_refl, Hne. cbn.
  split; [reflexivity|split; [reflexivity|]].
  apply String.eqb_neq in Hother. rewrite String.eqb_sym in Hother.
  rewrite Hother. reflexivity.
Qed.

(** The empty date string, on the evening of Jan 02 and of Jan 03. *)
Lemma eod_message_is_fetched_once_a_day_witness :
  snd (Eod.effect 22 "Thu Jan 02 2025"%string
         (Eod.on_response "Thu Jan 02 2025"%string
            "You showed up today. You've got this"%string
            (Eod.mkState None (Eod.mkStorage None None)))) = false /\
  snd (Eod.effect 22 "Fri Jan 03 2025"%string
         (Eod.on_response "Thu Jan 02 2025"%string
            "You showed up today. You've got this"%string
            (Eod.mkState None (Eod.mkStorage None None)))) = true.
Proof.
  destruct (eod_message_is_fetched_once_a_day []
              "You showed up today. You've got this"%string
              "Thu Jan 02 2025"%string "Fri Jan 03 2025"%string 22
              (Eod.mkState None (Eod.mkStorage None None))
              eq_refl ltac:(lia) ltac:(discriminate)) as (H1 & _ & H2).
  rewrite H1, H2. split; reflexivity.
Defined.

(** Before 21:00 the effect clears the message and neither sends a request
    nor touches the storage.  A failed request puts the fallback sentence on
    display and stores nothing, so the next run of the effect decides as the
    one before the failure did: a request that failed is sent again. *)
Theorem eod_message_failure_is_not_cached
    (hour hour' : Z) (todayKey : string) (st : Eod.state) :
  hour < 21 ->
  Eod.effect hour todayKey st = (Eod.mkState None (Eod.localStorage st), false) /\
  Eod.eodMessage (Eod.on_failure st) = Some Eod.fallback /\
  Eod.localStorage (Eod.on_failure st) = Eod.localStorage st /\
  snd (Eod.effect hour' todayKey (Eod.on_failure st)) =
    snd (Eod.effect hour' todayKey st) /\
  (snd (Eod.effect hour' todayKey st) = true ->
   Eod.effect hour' todayKey (Eod.on_failure (fst (Eod.effect hour' todayKey st))) =
     (Eod.on_failure st, true)).
Proof.
  intros Hhour.
  assert (Hh : (hour >=? 21) = false).
  { destruct (hour >=? 21) eqn:E; [apply Z.geb_le in E; lia|reflexivity]. }
  split; [|split; [|split; [|split]]].
  - unfold Eod.effect. now rewrite Hh.
  - reflexivity.
  - reflexivity.
  - unfold Eod.effect, Eod.on_failure. cbn.
    destruct (hour' >=? 21); [|reflexivity].
    destruct (_ || _); [reflexivity|].
    destruct (Eod.falsy _); reflexivity.
  - unfold Eod.effect, Eod.on_failure. cbn.
    destruct (hour' >=? 21); cbn; [|discriminate].
    destruct (_ || _) eqn:E; cbn; [|destruct (Eod.falsy _); discriminate].
    intros _. rewrite E. reflexivity.
Qed.

Lemma eod_message_failure_is_not_cached_witness :
  Eod.effect 9 "Thu Jan 02 2025"%string
    (Eod.mkState (Some "yesterday's"%string)
       (Eod.mkStorage (Some "Wed Jan 01 2025"%string) (Some "yesterday's"%string))) =
  (Eod.mkState None
     (Eod.mkStorage (Some "Wed Jan 01 2025"%string) (Some "yesterday's"%string)),
   false).
Proof.
  exact (proj1 (eod_message_failure_is_not_cached 9 0 "Thu Jan 02 2025"%string
                  (Eod.mkState (Some "yesterday's"%string)
                     (Eod.mkStorage (Some "Wed Jan 01 2025"%string)
                        (Some "yesterday's"%string)))
                  ltac:(lia))).
Defined.

(** ** The timers of the first version *)

Section LegacyTimers.

Import Legacy.

Lemma whole_seconds_close (now last : Z) :
  now < last + 1000 -> whole_seconds now last = 0.
Proof.
  intros H. unfold whole_seconds, Js.max, Js.floor_div.
  assert ((now - last) / 1000 < 1) by (apply Z.div_lt_upper_bound; lia).
  lia.
Qed.

Lemma whole_seconds_self (now : Z) : whole_seconds now now = 0.
Proof. apply whole_seconds_close. lia. Qed.

Lemma whole_seconds_nonneg (now last : Z) : 0 <= whole_seconds now last.
Proof. unfold whole_seconds, Js.max. lia. Qed.

Lemma ticks_without_interval (ts : list Z) (st : countdown) :
  interval st = false -> ticks ts st = st.
Proof.
  intros H. induction ts as [|t ts IH]; [reflexivity|].
  change (ticks (t :: ts) st) with (ticks ts (tick t st)).
  unfold tick at 1. now rewrite H.
Qed.

Lemma close_tick (t : Z) (st : countdown) :
  interval st = true -> close_ticks_from (lastTickRef st) [t] ->
  tick t st = mkCountdown (seconds st) (running st) (Some t) true.
Proof.
  intros Hi Hc. unfold tick. rewrite Hi.
  destruct (lastTickRef st) as [l|]; cbn in Hc.
  - rewrite whole_seconds_close by tauto. reflexivity.
  - rewrite whole_seconds_self. reflexivity.
Qed.

Lemma close_ticks_keep_seconds (ts : list Z) (st : countdown) :
  close_ticks_from (lastTickRef st) ts ->
  seconds (ticks ts st) = seconds st /\ running (ticks ts st) = running st.
Proof.
  destruct (interval st) eqn:Hi;
    [|intros _; rewrite ticks_without_interval by assumption; tauto].
  revert st Hi. induction ts as [|t ts IH]; intros st Hi Hc; [cbn; tauto|].
  change (ticks (t :: ts) st) with (ticks ts (tick t st)).
  rewrite close_tick; [|assumption|].
  - apply (IH (mkCountdown (seconds st) (running st) (Some t) true) eq_refl).
    cbn. destruct (lastTickRef st); cbn in Hc; [tauto|exact Hc].
  - destruct (lastTickRef st); cbn in *; tauto.
Qed.

Lemma pomo_ticks_without_interval (f b : Z) (ts : list Z) (st : pomodoro) :
  pomo_interval st = None -> pomo_ticks f b ts st = st.
Proof.
  intros H. induction ts as [|t ts IH]; [reflexivity|].
  change (pomo_ticks f b (t :: ts) st) with (pomo_ticks f b ts (pomo_tick f b t st)).
  unfold pomo_tick at 1. now rewrite H.
Qed.

Lemma pomo_close_tick (f b t : Z) (st : pomodoro) (seen : Pomo.mode) :
  pomo_interval st = Some seen -> close_ticks_from (pomo_lastTickRef st) [t] ->
  pomo_tick f b t st =
    mkPomodoro (mode st) (pomo_running st) (remaining st) (Some t) (Some seen).
Proof.
  intros Hi Hc. unfold pomo_tick. rewrite Hi.
  destruct (pomo_lastTickRef st) as [l|]; cbn in Hc.
  - rewrite whole_seconds_close by tauto. reflexivity.
  - rewrite whole_seconds_self. reflexivity.
Qed.

Lemma pomo_close_ticks_keep_remaining (f b : Z) (ts : list Z) (st : pomodoro) :
  close_ticks_from (pomo_lastTickRef st) ts ->
  remaining (pomo_ticks f b ts st) = remaining st /\
  mode (pomo_ticks f b ts st) = mode st.
Proof.
  destruct (pomo_interval st) as [seen|] eqn:Hi;
    [|intros _; rewrite pomo_ticks_without_interval by assumption; tauto].
  revert st Hi. induction ts as [|t ts IH]; intros st Hi Hc; [cbn; tauto|].
  change (pomo_ticks f b (t :: ts) st) with (pomo_ticks f b ts (pomo_tick f b t st)).
  rewrite (pomo_close_tick f b t st seen); [|assumption|].
  - apply (IH (mkPomodoro (mode st) (pomo_running st) (remaining st) (Some t) (Some seen))
              eq_refl).
    cbn. destruct (pomo_lastTickRef st); cbn in Hc; [tauto|exact Hc].
  - destruct (pomo_lastTickRef st); cbn in *; tauto.
Qed.

End LegacyTimers.

(** The timers of the first version do not move under ticks that come less
    than a second apart: every tick, counted or not, becomes the time of the
    last tick, and the whole seconds since it are zero.  Whatever the number
    of such ticks, the countdown keeps its seconds and the Pomodoro its
    remaining time and its mode.  (Both hooks ask for a tick every 250 ms.) *)
Theorem legacy_timers_ignore_close_ticks
    (focusMin breakMin : Z) (ts : list Z)
    (countdown : Legacy.countdown) (pomodoro : Legacy.pomodoro) :
  Legacy.close_ticks_from (Legacy.lastTickRef countdown) ts ->
  Legacy.close_ticks_from (Legacy.pomo_lastTickRef pomodoro) ts ->
  Legacy.seconds (Legacy.ticks ts countdown) = Legacy.seconds countdown /\
  Legacy.remaining (Legacy.pomo_ticks focusMin breakMin ts pomodoro) =
    Legacy.remaining pomodoro /\
  Legacy.mode (Legacy.pomo_ticks focusMin breakMin ts pomodoro) = Legacy.mode pomodoro.
Proof.
  intros Hc Hp. split.
  - apply close_ticks_keep_seconds, Hc.
  - apply pomo_close_ticks_keep_remaining, Hp.
Qed.

(** A minute of ticks every 250 ms on both timers, just started. *)
Lemma legacy_timers_ignore_close_ticks_witness :
  Legacy.seconds
    (Legacy.ticks (map (fun k => 1000 + 250 * Z.of_nat k) (seq 1 240))
       (Legacy.toggle (Legacy.countdown_init 600))) = 600 /\
  Legacy.remaining
    (Legacy.pomo_ticks 25 5 (map (fun k => 1000 + 250 * Z.of_nat k) (seq 1 240))
       (Legacy.pomo_toggle (Legacy.pomo_init 25 5))) = 25 * 60.
Proof.
  assert (H : forall n from,
             Legacy.close_ticks (1000 + 250 * Z.of_nat from)
               (map (fun k => 1000 + 250 * Z.of_nat k) (seq (S from) n))).
  { induction n as [|n IH]; intros from; cbn [seq map Legacy.close_ticks].
    - exact I.
    - split; [lia|apply IH]. }
  destruct (legacy_timers_ignore_close_ticks 25 5
              (map (fun k => 1000 + 250 * Z.of_nat k) (seq 1 240))
              (Legacy.toggle (Legacy.countdown_init 600))
              (Legacy.pomo_toggle (Legacy.pomo_init 25 5))
              (H 239%nat 1%nat) (H 239%nat 1%nat)) as (H1 & H2 & _).
  split; [exact H1 | exact H2].
Defined.

(** A tick of the first countdown that comes a second or more after the
    last one takes off the whole seconds between the two, the rest of the
    time is lost with it; the seconds never go below zero, and a running
    countdown that reaches zero stops. *)
Theorem legacy_countdown_counts_whole_seconds
    (now last : Z) (st : Legacy.countdown) :
  Legacy.interval st = true -> Legacy.running st = true ->
  Legacy.lastTickRef st = Some last -> 0 < Legacy.seconds st ->
  Legacy.seconds (Legacy.tick now st) =
    Z.max 0 (Legacy.seconds st - Legacy.whole_seconds now last) /\
  (Legacy.whole_seconds now last < Legacy.seconds st ->
   Legacy.running (Legacy.tick now st) = true /\
   Legacy.lastTickRef (Legacy.tick now st) = Some now) /\
  (Legacy.seconds st <= Legacy.whole_seconds now last ->
   Legacy.running (Legacy.tick now st) = false /\
   Legacy.interval (Legacy.tick now st) = false /\
   Legacy.lastTickRef (Legacy.tick now st) = None).
Proof.
  destruct st as [s r lt itv]. cbn. intros -> -> -> Hpos.
  pose proof (whole_seconds_nonneg now last) as Hnn.
  unfold Legacy.tick; cbn.
  destruct (Legacy.whole_seconds now last <=? 0) eqn:E.
  - apply Z.leb_le in E. assert (E0 : Legacy.whole_seconds now last = 0) by lia.
    rewrite E0. cbn. repeat split; intros; try lia; reflexivity.
  - apply Z.leb_gt in E.
    destruct (s - Legacy.whole_seconds now last <=? 0) eqn:E2.
    + apply Z.leb_le in E2. unfold Legacy.render; cbn.
      destruct (s =? 0) eqn:E3; [apply Z.eqb_eq in E3; lia|]. cbn.
      repeat split; intros; try lia; reflexivity.
    + apply Z.leb_gt in E2. unfold Legacy.render; cbn.
      destruct (s =? s - Legacy.whole_seconds now last) eqn:E3;
        [apply Z.eqb_eq in E3; lia|]. cbn.
      destruct (s - Legacy.whole_seconds now last =? 0) eqn:E4;
        [apply Z.eqb_eq in E4; lia|]. cbn.
      repeat split; intros; try lia; reflexivity.
Qed.

(** 600 s, started, first tick at 1 s: a tick 1.9 s later counts one second,
    a tick 700 s later stops the countdown at zero. *)
Lemma legacy_countdown_counts_whole_seconds_witness :
  Legacy.seconds
    (Legacy.tick 2900 (Legacy.tick 1000 (Legacy.toggle (Legacy.countdown_init 600))))
    = 599 /\
  Legacy.running
    (Legacy.tick 701000 (Legacy.tick 1000 (Legacy.toggle (Legacy.countdown_init 600))))
    = false.
Proof.
  destruct (legacy_countdown_counts_whole_seconds 2900 1000
              (Legacy.tick 1000 (Legacy.toggle (Legacy.countdown_init 600)))
              eq_refl eq_refl eq_refl eq_refl) as (H1 & _ & _).
  destruct (legacy_countdown_counts_whole_seconds 701000 1000
              (Legacy.tick 1000 (Legacy.toggle (Legacy.countdown_init 600)))
              eq_refl eq_refl eq_refl eq_refl) as (_ & _ & H2).
  split; [exact H1 | exact (proj1 (H2 ltac:(vm_compute; discriminate)))].
Defined.

(** The first Pomodoro goes on by itself: a tick that uses up the remaining
    time flips the mode, arms the full length of the new mode (what the tick
    overshot is dropped), and leaves the session running with a new interval
    and the tick as its last one, so that the next tick counts the new
    interval down. *)
Theorem legacy_pomodoro_flips_and_goes_on
    (focusMin breakMin now later last : Z) (st : Legacy.pomodoro) :
  Legacy.pomo_running st = true ->
  Legacy.pomo_interval st = Some (Legacy.mode st) ->
  Legacy.pomo_lastTickRef st = Some last ->
  0 < Legacy.remaining st <= Legacy.whole_seconds now last ->
  let flipped :=
    match Legacy.mode st with Pomo.focus => Pomo.break | Pomo.break => Pomo.focus end in
  let st' := Legacy.pomo_tick focusMin breakMin now st in
  st' = Legacy.mkPomodoro flipped true (Legacy.duration focusMin breakMin flipped)
          (Some now) (Some flipped) /\
  (0 < Legacy.whole_seconds later now < Legacy.duration focusMin breakMin flipped ->
   Legacy.remaining (Legacy.pomo_tick focusMin breakMin later st') =
     Legacy.duration focusMin breakMin flipped - Legacy.whole_seconds later now /\
   Legacy.mode (Legacy.pomo_tick focusMin breakMin later st') = flipped).
Proof.
  destruct st as [m r v lt itv]. cbn. intros -> -> -> [Hpos Hle].
  assert (E : Legacy.pomo_tick focusMin breakMin now
                (Legacy.mkPomodoro m true v (Some last) (Some m)) =
              Legacy.mkPomodoro
                (match m with Pomo.focus => Pomo.break | Pomo.break => Pomo.focus end)
                true
                (Legacy.duration focusMin breakMin
                   (match m with Pomo.focus => Pomo.break | Pomo.break => Pomo.focus end))
                (Some now)
                (Some (match m with Pomo.focus => Pomo.break | Pomo.break => Pomo.focus end))).
  { unfold Legacy.pomo_tick; cbn.
    destruct (Legacy.whole_seconds now last <=? 0) eqn:E0;
      [apply Z.leb_le in E0; lia|].
    destruct (v - Legacy.whole_seconds now last >? 0) eqn:E1;
      [apply Z.gtb_lt in E1; lia|].
    unfold Legacy.pomo_render, Legacy.pomo_effect; cbn.
    destruct m; reflexivity. }
  rewrite E. split; [reflexivity|].
  intros [Hd1 Hd2]. unfold Legacy.pomo_tick; cbn.
  destruct (Legacy.whole_seconds later now <=? 0) eqn:E0;
    [apply Z.leb_le in E0; lia|].
  match goal with
  | |- context [?x >? 0] => destruct (x >? 0) eqn:E1
  end.
  - unfold Legacy.pomo_render; cbn. rewrite mode_eqb_refl. cbn. split; reflexivity.
  - exfalso. revert E1. cbn. intros E1.
    assert (H : (Legacy.duration focusMin breakMin
                   (match m with Pomo.focus => Pomo.break | Pomo.break => Pomo.focus end)
                 - Legacy.whole_seconds later now >? 0) = true)
      by (apply Z.gtb_lt; lia).
    congruence.
Qed.

(** 25 and 5 minutes: a tick 1500 s after the last one ends the focus
    interval, a tick 10 s later shows 4 min 50 s of the break. *)
Lemma legacy_pomodoro_flips_and_goes_on_witness :
  Legacy.remaining
    (Legacy.pomo_tick 25 5 1511000
       (Legacy.pomo_tick 25 5 1501000
          (Legacy.pomo_tick 25 5 1000 (Legacy.pomo_toggle (Legacy.pomo_init 25 5)))))
    = 290.
Proof.
  destruct (legacy_pomodoro_flips_and_goes_on 25 5 1501000 1511000 1000
              (Legacy.pomo_tick 25 5 1000 (Legacy.pomo_toggle (Legacy.pomo_init 25 5)))
              eq_refl eq_refl eq_refl ltac:(vm_compute; split; [reflexivity|discriminate]))
    as [_ H].
  exact (proj1 (H ltac:(vm_compute; split; reflexivity))).
Defined.

(** ** What the Pomodoro card shows *)

Section PomodoroDisplay.

Import Pomo PomoClock.

Ltac done_bounded :=
  cbn; repeat split; intros; try lia; try discriminate; try tauto; auto.

Lemma bounded_init (t : Z) : bounded t init.
Proof. unfold bounded, init; cbn. lia. Qed.

Lemma bounded_toggle (t now : Z) (st : state) :
  coherent st -> bounded t st -> t <= now -> bounded now (toggle now st).
Proof.
  destruct st as [m r v start d itv [cr cv cm] reps].
  unfold coherent, bounded, toggle, render, running_effect, mode_effect; cbn.
  intros (Hr & Hm & Hi & Hs & Hv & Hc) (Bv & Bc & Bs) Hle; subst cr cm.
  rewrite mode_eqb_refl. destruct r; cbn.
  - done_bounded.
  - rewrite (Hs eq_refl). cbn. done_bounded.
Qed.

Lemma bounded_reset (t now : Z) (nextMode : mode) (st : state) :
  coherent st -> bounded t st -> t <= now -> bounded now (resetPomodoro now nextMode st).
Proof.
  destruct st as [m r v start d itv [cr cv cm] reps].
  unfold coherent, bounded, resetPomodoro, render, running_effect, mode_effect; cbn.
  intros (Hr & Hm & Hi & Hs & Hv & Hc) (Bv & Bc & Bs) Hle; subst cr cm.
  destruct r, m, nextMode; cbn; done_bounded.
Qed.

Lemma bounded_tick (t now : Z) (st : state) :
  coherent st -> bounded t st -> t <= now -> bounded now (tick now st).
Proof.
  destruct st as [m r v start d itv [cr cv cm] reps].
  unfold coherent, bounded, tick; cbn.
  intros (Hr & Hm & Hi & Hs & Hv & Hc) (Bv & Bc & Bs) Hle; subst cr cm.
  destruct r; cbn; [|subst itv; cbn; rewrite (Hs eq_refl); done_bounded].
  subst itv; cbn.
  unfold calculatePomoRemaining; cbn.
  destruct start as [start|]; cbn.
  - destruct Bs as [Bs Bd].
    destruct (start =? 0); cbn.
    + unfold render; cbn. rewrite mode_eqb_refl; cbn. done_bounded.
    + assert (0 <= Js.floor_div (now - start) 1000)
        by (unfold Js.floor_div; apply Z.div_pos; lia).
      destruct (Js.max 0 (d - Js.floor_div (now - start) 1000) =? 0) eqn:E.
      * destruct m; cbn; done_bounded.
      * unfold render; cbn. rewrite mode_eqb_refl; cbn.
        unfold Js.max in *. done_bounded.
  - unfold render; cbn. rewrite mode_eqb_refl; cbn. done_bounded.
Qed.

Lemma bounded_run (es : list event) (t : Z) (st : state) :
  coherent st -> bounded t st -> ascending t es ->
  exists t', bounded t' (run es st).
Proof.
  revert t st. induction es as [|e es IH]; intros t st Hc Hb Ha.
  - exists t. exact Hb.
  - destruct Ha as [Hle Hrest].
    apply (IH (event_time e) (step st e)).
    + apply coherent_step, Hc.
    + destruct e; cbn in *.
      * apply (bounded_tick t); assumption.
      * apply (bounded_toggle t); assumption.
      * apply (bounded_reset t); assumption.
    + exact Hrest.
Qed.

End PomodoroDisplay.

(** Under a clock that does not run backwards the remaining time of the
    Pomodoro session stays between 0 and the 25 minutes of a focus
    interval, whatever is pressed and whenever the ticks come, so that the
    card always shows five characters, [MM:SS], that read back as the
    remaining seconds. *)
Theorem pomodoro_card_shows_minutes_and_seconds (from : Z) (es : list Pomo.event) :
  PomoClock.ascending from es ->
  0 <= Pomo.pomoRemaining (Pomo.run es Pomo.init) <= 25 * 60 /\
  String.length (Format.formatHMS (Pomo.pomoRemaining (Pomo.run es Pomo.init))) = 5%nat /\
  Format.read_MMSS (Format.formatHMS (Pomo.pomoRemaining (Pomo.run es Pomo.init))) =
    Some (Pomo.pomoRemaining (Pomo.run es Pomo.init)).
Proof.
  intros Ha.
  pose proof (coherent_run es Pomo.init coherent_init) as (_ & _ & _ & _ & Hnn & _).
  destruct (bounded_run es from Pomo.init coherent_init (bounded_init from) Ha)
    as (t' & Hb & _).
  assert (Hr : 0 <= Pomo.pomoRemaining (Pomo.run es Pomo.init) < 3600) by lia.
  assert (H : Format.display_ok (Pomo.pomoRemaining (Pomo.run es Pomo.init)) = true).
  { pose proof display_ok_below_an_hour as Hall.
    rewrite forallb_forall in Hall.
    specialize (Hall (Z.to_nat (Pomo.pomoRemaining (Pomo.run es Pomo.init)))).
    rewrite Z2Nat.id in Hall by lia. apply Hall, in_seq. lia. }
  unfold Format.display_ok in H.
  apply andb_prop in H. destruct H as [H _].
  apply andb_prop in H. destruct H as [Hlen Hread].
  split; [lia|split].
  - now apply Nat.eqb_eq.
  - destruct (Format.read_MMSS _) as [v|]; [|discriminate].
    apply Z.eqb_eq in Hread. now subst.
Qed.

(** Started at 1 s, ticked at 11.5 s, paused, reset to a break. *)
Lemma pomodoro_card_shows_minutes_and_seconds_witness :
  Format.formatHMS
    (Pomo.pomoRemaining (Pomo.run [Pomo.Toggle 1000; Pomo.Tick 11500] Pomo.init))
    = "24:50"%string /\
  String.length
    (Format.formatHMS
       (Pomo.pomoRemaining
          (Pomo.run [Pomo.Toggle 1000; Pomo.Tick 11500; Pomo.Toggle 12000;
                     Pomo.Reset 13000 Pomo.break] Pomo.init))) = 5%nat.
Proof.
  split; [reflexivity|].
  assert (Ha : PomoClock.ascending 0
                 [Pomo.Toggle 1000; Pomo.Tick 11500; Pomo.Toggle 12000;
                  Pomo.Reset 13000 Pomo.break]).
  { cbn. lia. }
  exact (proj1 (proj2 (pomodoro_card_shows_minutes_and_seconds 0 _ Ha))).
Defined.

(** ** Full screen and reset *)

Section FullScreenFlag.

Import Fs FsScreen.

Lemma same_timer_fields (a b : state) :
  same_timer a b ->
  seconds a = seconds b /\ running a = running b /\ lastTickRef a = lastTickRef b /\
  sessionStartTimeRef a = sessionStartTimeRef b /\ interval a = interval b /\
  reports a = reports b.
Proof.
  destruct a, b. unfold same_timer, setOpen; cbn. intros [= -> -> -> -> -> ->].
  repeat split.
Qed.

Lemma same_timer_refl (a : state) : same_timer a a.
Proof. reflexivity. Qed.

Lemma same_timer_setOpen (o : bool) (a b : state) :
  same_timer a b -> same_timer (setOpen o a) b.
Proof.
  destruct a, b. unfold same_timer, setOpen; cbn. intros [= -> -> -> -> -> ->].
  reflexivity.
Qed.

Lemma report_effect_open (now : Z) (st : state) :
  open (report_effect now st) = open st.
Proof.
  unfold report_effect. destruct (running st); [reflexivity|].
  destruct (sessionStartTimeRef st) as [start|]; [|reflexivity].
  destruct (Js.truthy (Some start)); [|reflexivity].
  destruct (sessionMinutes (now - start) >? 0); reflexivity.
Qed.

Lemma tick_effect_open (st : state) : open (tick_effect st) = open st.
Proof. unfold tick_effect. destruct (running st); reflexivity. Qed.

Lemma render_open (now : Z) (fresh : bool) (prev st : state) :
  open (render now fresh prev st) = open st.
Proof.
  unfold render.
  repeat match goal with
         | |- context [if ?b then _ else _] => destruct b
         end;
    repeat (rewrite ?tick_effect_open, ?report_effect_open; cbn [open setRunning]);
    reflexivity.
Qed.

Lemma step_open (e : event) (st : state) :
  is_screen e = false -> open (step st e) = open st.
Proof.
  destruct e as [now|now|now|now|now| |]; cbn; intros H; try discriminate;
    unfold tick, toggle, plus, minus, rerender;
    repeat match goal with
           | |- context [if ?b then _ else _] => destruct b
           end;
    rewrite ?render_open; reflexivity.
Qed.

(** The timer does not look at [open]: setting it before or after an event
    of the timer is the same. *)
Lemma seconds_setOpen (o : bool) (st : state) : seconds (setOpen o st) = seconds st.
Proof. reflexivity. Qed.

Lemma running_setOpen (o : bool) (st : state) : running (setOpen o st) = running st.
Proof. reflexivity. Qed.

Lemma report_effect_setOpen (o : bool) (now : Z) (st : state) :
  report_effect now (setOpen o st) = setOpen o (report_effect now st).
Proof.
  destruct st as [s r op lt start itv reps]. unfold report_effect.
  cbn [setOpen seconds running open lastTickRef sessionStartTimeRef interval reports].
  destruct r; [reflexivity|].
  destruct start as [start|]; [|reflexivity].
  destruct (Js.truthy (Some start)); [|reflexivity].
  destruct (sessionMinutes (now - start) >? 0); reflexivity.
Qed.

Lemma tick_effect_setOpen (o : bool) (st : state) :
  tick_effect (setOpen o st) = setOpen o (tick_effect st).
Proof. destruct st as [s r op lt start itv reps]. destruct r; reflexivity. Qed.

Lemma setRunning_setOpen (o r : bool) (st : state) :
  setRunning r (setOpen o st) = setOpen o (setRunning r st).
Proof. reflexivity. Qed.

Lemma render_setOpen (o : bool) (now : Z) (fresh : bool) (prev st : state) :
  render now fresh (setOpen o prev) (setOpen o st) = setOpen o (render now fresh prev st).
Proof.
  unfold render. cbv zeta.
  rewrite !running_setOpen, !seconds_setOpen.
  destruct (negb (Bool.eqb (running prev) (running st))), fresh; cbn [orb];
    rewrite ?report_effect_setOpen, ?tick_effect_setOpen,
      ?running_setOpen, ?seconds_setOpen;
    match goal with
    | |- (if ?c then _ else _) = _ => destruct c
    end;
    rewrite ?setRunning_setOpen, ?report_effect_setOpen, ?tick_effect_setOpen;
    reflexivity.
Qed.

Lemma step_setOpen (o : bool) (e : event) (st : state) :
  is_screen e = false -> step (setOpen o st) e = setOpen o (step st e).
Proof.
  destruct e as [now|now|now|now|now| |]; cbn [is_screen step]; intros H;
    try discriminate; unfold tick, toggle, plus, minus, rerender.
  - change (interval (setOpen o st)) with (interval st).
    change (lastTickRef (setOpen o st)) with (lastTickRef st).
    change (seconds (setOpen o st)) with (seconds st).
    destruct (interval st); [|reflexivity].
    cbv zeta.
    destruct (now - match lastTickRef st with Some l => l | None => now end <=? 0).
    + destruct st; reflexivity.
    + rewrite <- render_setOpen. destruct st; reflexivity.
  - rewrite <- render_setOpen. destruct st; reflexivity.
  - rewrite <- render_setOpen. destruct st; reflexivity.
  - rewrite <- render_setOpen. destruct st; reflexivity.
  - rewrite <- render_setOpen. destruct st; reflexivity.
Qed.

Lemma setOpen_setOpen (o o' : bool) (st : state) :
  setOpen o (setOpen o' st) = setOpen o st.
Proof. destruct st; reflexivity. Qed.

Lemma step_same_timer (e : event) (a b : state) :
  is_screen e = false -> same_timer a b -> same_timer (step a e) (step b e).
Proof.
  unfold same_timer. intros E H.
  rewrite <- !step_setOpen by assumption. rewrite H. reflexivity.
Qed.

Lemma run_screen (es : list event) (a b : state) :
  same_timer a b ->
  same_timer (run es a) (run (filter (fun e => negb (is_screen e)) es) b) /\
  open (run es a) = open_after (open a) es.
Proof.
  revert a b. induction es as [|e es IH]; intros a b H.
  - split; [exact H|reflexivity].
  - change (run (e :: es) a) with (run es (step a e)).
    destruct (is_screen e) eqn:E.
    + cbn [filter]. rewrite E. cbn [negb].
      destruct e; try discriminate; cbn [step open_after].
      * destruct (IH (enter a) b (same_timer_setOpen true a b H)) as [H1 H2].
        split; [exact H1|]. rewrite H2. reflexivity.
      * destruct (IH (exit a) b (same_timer_setOpen false a b H)) as [H1 H2].
        split; [exact H1|]. rewrite H2. reflexivity.
    + cbn [filter]. rewrite E. cbn [negb].
      change (run (e :: ?l) b) with (run l (step b e)).
      destruct (IH (step a e) (step b e) (step_same_timer e a b E H)) as [H1 H2].
      split; [exact H1|].
      rewrite H2, step_open by assumption.
      destruct e; try discriminate; reflexivity.
Qed.

End FullScreenFlag.

(** The full-screen flag and the countdown do not touch each other: leaving
    out every [enter] and [exit] changes nothing in the seconds, the running
    state, the refs and the reports the other events lead to, and [open] is
    what the last [enter] or [exit] made it, whatever the timer did. *)
Theorem full_screen_flag_is_independent (es : list Fs.event) (st : Fs.state) :
  FsScreen.same_timer (Fs.run es st)
    (Fs.run (filter (fun e => negb (FsScreen.is_screen e)) es) st) /\
  Fs.seconds (Fs.run es st) =
    Fs.seconds (Fs.run (filter (fun e => negb (FsScreen.is_screen e)) es) st) /\
  Fs.running (Fs.run es st) =
    Fs.running (Fs.run (filter (fun e => negb (FsScreen.is_screen e)) es) st) /\
  Fs.reports (Fs.run es st) =
    Fs.reports (Fs.run (filter (fun e => negb (FsScreen.is_screen e)) es) st) /\
  Fs.open (Fs.run es st) = FsScreen.open_after (Fs.open st) es.
Proof.
  destruct (run_screen es st st (same_timer_refl st)) as [H1 H2].
  destruct (same_timer_fields _ _ H1) as (Hs & Hr & _ & _ & _ & Hrep).
  repeat split; assumption.
Qed.

Section PomodoroReset.

Import Pomo.

Lemma reset_shape (now : Z) (nextMode : mode) (st : state) :
  coherent st ->
  resetPomodoro now nextMode st =
    mkState nextMode false (full_duration nextMode) None
      (pomoSessionDurationRef st) None
      (if pomoRunning st || negb (mode_eqb (pomoMode st) nextMode)
       then mkClosure false (full_duration nextMode) nextMode
       else calculate st)
      (reports st).
Proof.
  destruct st as [m r v start d itv [cr cv cm] reps].
  unfold coherent, resetPomodoro, render, running_effect, mode_effect; cbn.
  intros (Hr & Hm & Hi & Hs & Hv & Hc); subst cr cm.
  destruct r, m, nextMode; cbn in *; subst; try rewrite (Hs eq_refl); reflexivity.
Qed.

End PomodoroReset.

(** [resetPomodoro] from any state the session can be in: the session is
    not running, has no interval and no start, is in the requested mode and
    shows that mode's full length; nothing is reported, and the ticks that
    may still arrive change nothing. *)
Theorem reset_stops_the_pomodoro
    (es : list Pomo.event) (now : Z) (nextMode : Pomo.mode) (later : list Z) :
  let st := Pomo.resetPomodoro now nextMode (Pomo.run es Pomo.init) in
  Pomo.pomoRunning st = false /\
  Pomo.pomoMode st = nextMode /\
  Pomo.pomoRemaining st = Pomo.full_duration nextMode /\
  Pomo.pomoIntervalRef st = None /\
  Pomo.pomoSessionStartRef st = None /\
  Pomo.reports st = Pomo.reports (Pomo.run es Pomo.init) /\
  Pomo.run (map Pomo.Tick later) st = st.
Proof.
  intros st.
  assert (Hc : Pomo.coherent (Pomo.run es Pomo.init))
    by apply coherent_run, coherent_init.
  assert (Hc' : Pomo.coherent st) by apply coherent_reset, Hc.
  assert (E : Pomo.pomoRunning st = false)
    by (subst st; rewrite reset_shape by assumption; reflexivity).
  subst st. split; [exact E|].
  split; [|split; [|split; [|split; [|split]]]];
    try (rewrite reset_shape by assumption; reflexivity).
  apply ticks_while_paused; assumption.
Qed.

Section NotBelowZero64.

Import Fs64.

Lemma leb_false_ltb (a b : Double.double) :
  Double.leb a b = false -> Double.ltb a b = false.
Proof.
  unfold Double.leb, Double.ltb, SpecFloat.SFleb, SpecFloat.SFltb.
  destruct (SpecFloat.SFcompare a b) as [[| |]|]; intros H;
    try reflexivity; discriminate.
Qed.

(** A rounded number with the sign bit unset is not below zero. *)
Lemma round_aux_not_below (m e : Z) (l : SpecFloat.location) :
  Double.ltb (SpecFloat.binary_round_aux Double.prec Double.emax false m e l)
    Double.zero = false.
Proof.
  unfold SpecFloat.binary_round_aux.
  destruct (SpecFloat.shr_fexp _ _ m e l) as [mrs' e'].
  destruct (SpecFloat.shr_fexp _ _ _ e' SpecFloat.loc_Exact) as [mrs'' e''].
  destruct (SpecFloat.shr_m mrs'') as [|p|p]; try reflexivity.
  destruct (e'' <=? _); reflexivity.
Qed.

Lemma add_not_below (a : Double.double) :
  Double.ltb a Double.zero = false ->
  Double.ltb (Double.add a (Double.of_Z 60)) Double.zero = false.
Proof.
  assert (E60 : exists m e, Double.of_Z 60 = SpecFloat.S754_finite false m e)
    by (eexists; eexists; vm_compute; reflexivity).
  destruct E60 as (m60 & e60 & ->).
  destruct a as [s|s| |s m e]; intros H.
  - reflexivity.
  - destruct s; [discriminate|reflexivity].
  - reflexivity.
  - destruct s; [discriminate|].
    unfold Double.add, SpecFloat.SFadd. cbv zeta.
    cbn [SpecFloat.cond_Zopp Z.add SpecFloat.binary_normalize].
    unfold SpecFloat.binary_round.
    destruct (SpecFloat.shl_align _ _ _) as [mz ez].
    apply round_aux_not_below.
Qed.

Lemma max_zero_not_below (x : Double.double) :
  Double.ltb (Double.max Double.zero x) Double.zero = false.
Proof.
  destruct x as [s|s| |s m e]; cbn.
  - reflexivity.
  - destruct s; reflexivity.
  - reflexivity.
  - destruct s; reflexivity.
Qed.

Lemma countdown_not_below (prev d : Double.double) :
  Double.ltb (countdown prev d) Double.zero = false.
Proof.
  unfold countdown. cbv zeta.
  destruct (Double.leb (Double.sub prev d) Double.zero) eqn:E.
  - reflexivity.
  - apply leb_false_ltb, E.
Qed.

Lemma not_below_step (st : state) (e : event) :
  not_below_zero st -> not_below_zero (step st e).
Proof.
  unfold not_below_zero. intros H. destruct e as [now|now|now|now|now| |]; cbn [step].
  - unfold tick. destruct (interval st); [|exact H].
    destruct (Double.leb _ Double.zero); [exact H|].
    rewrite seconds64_render. apply countdown_not_below.
  - rewrite toggle64_keeps_seconds. exact H.
  - rewrite plus64_seconds. apply add_not_below, H.
  - rewrite minus64_seconds. apply max_zero_not_below.
  - unfold rerender. rewrite seconds64_render. exact H.
  - exact H.
  - exact H.
Qed.

Lemma not_below_run (es : list event) (st : state) :
  not_below_zero st -> not_below_zero (run es st).
Proof.
  revert st. induction es as [|e es IH]; intros st H.
  - exact H.
  - apply IH, not_below_step, H.
Qed.

End NotBelowZero64.

(** The seconds of the countdown as the source computes them, in doubles,
    are never below zero: whatever ticks, presses of start and pause,
    adjustments and renders happen, at whatever clock readings, the test
    [seconds < 0] is false in every state, from any initial value for which
    it is false. *)
Theorem countdown_in_doubles_is_never_below_zero
    (es : list Fs64.event) (initialSeconds : Double.double) :
  Double.ltb initialSeconds Double.zero = false ->
  Double.ltb (Fs64.seconds (Fs64.run es (Fs64.init initialSeconds))) Double.zero = false /\
  Double.ltb (Fs64.seconds (Fs64.run es Fs64.card)) Double.zero = false.
Proof.
  intros H. split.
  - apply (not_below_run es (Fs64.init initialSeconds)). exact H.
  - apply (not_below_run es Fs64.card). reflexivity.
Qed.

(** A clock that runs backwards, a countdown emptied by the minus button
    and by a late tick. *)
Lemma countdown_in_doubles_is_never_below_zero_witness :
  Double.ltb
    (Fs64.seconds
       (Fs64.run [Fs64.Toggle 1000; Fs64.Minus 1050; Fs64.Tick 1150; Fs64.Minus 1200;
                  Fs64.Tick 500; Fs64.Plus 600; Fs64.Tick 900000]
          (Fs64.init (Double.decimal 905 10))))
    Double.zero = false.
Proof.
  exact (proj1 (countdown_in_doubles_is_never_below_zero
                  [Fs64.Toggle 1000; Fs64.Minus 1050; Fs64.Tick 1150; Fs64.Minus 1200;
                   Fs64.Tick 500; Fs64.Plus 600; Fs64.Tick 900000]
                  (Double.decimal 905 10) ltac:(vm_compute; reflexivity))).
Defined.
